(** * The state-diff tracer of go-ethereum's native tracers

    A shallow embedding of [StateDiffTracer] (package [native]): the diff
    store, the event handlers and the report generator, followed by the
    properties of its specification.

    Conventions.
    - [uint64], [int64] and [int] values are integers in [Z]; every
      conversion and every operation that can wrap is written out
      ([wrap_uint64], [wrap_int64]).  Go's [int] is taken at 64 bits.
    - a [big.Int] is [Z]; a pointer that the code tests against [nil] is an
      [option].
    - [[]byte] is [list byte]; where the code tells a [nil] slice from an
      empty one it is [option (list byte)].
    - [common.Address] and [common.Hash] are byte arrays, [list byte].
    - Go maps are [gmap]s.
    - A method of the tracer is a computation in the monad [M]: it threads
      the tracer and fails ([None]) where the Go code panics. *)

From Stdlib Require Import ZArith NArith Lia List String Ascii.
From Stdlib.Strings Require Import Byte.
From Stdlib Require Import Hexadecimal HexadecimalString HexadecimalZ HexadecimalN.
From stdpp Require Import base option list gmap strings fin_maps.

#[local] Open Scope Z_scope.
#[local] Set Warnings "-register-all".

(** ** Machine integers *)

Definition wrap_uint64 (z : Z) : Z := z mod 2 ^ 64.

Definition wrap_int64 (z : Z) : Z := (z + 2 ^ 63) mod 2 ^ 64 - 2 ^ 63.

(** [int64(x)] for [x : uint64]. *)
Definition int64_of_uint64 (x : Z) : Z := wrap_int64 x.

(** Unary minus on [int64]. *)
Definition neg_int64 (x : Z) : Z := wrap_int64 (- x).

(** [n++] on [int]. *)
Definition int_incr (n : Z) : Z := wrap_int64 (n + 1).

(** [uint64(n)] for [n : int]. *)
Definition uint64_of_int (n : Z) : Z := wrap_uint64 n.

(** [a - b] on [uint64]. *)
Definition sub_uint64 (a b : Z) : Z := wrap_uint64 (a - b).

(** ** Bytes, addresses and hashes *)

#[global] Instance byte_eq_dec : EqDecision byte := Byte.byte_eq_dec.

#[global] Instance byte_countable : Countable byte :=
  inj_countable Byte.to_N Byte.of_N Byte.of_to_N.

Abbreviation Address := (list byte) (only parsing).
Abbreviation Hash := (list byte) (only parsing).

Definition byte_of_N (n : N) : byte :=
  match Byte.of_N (n mod 256)%N with
  | Some b => b
  | None => x00
  end.

(** The [len] low-order bytes of [n], most significant first. *)
Fixpoint be_bytes (len : nat) (n : N) : list byte :=
  match len with
  | O => []
  | S k => be_bytes k (n / 256)%N ++ [byte_of_N n]
  end.

(** [uint256.Int.Bytes32], of the library of 256-bit words: the 32-byte
    big-endian form of a stack word. *)
Definition Bytes32 (w : N) : Hash := be_bytes 32 w.

(** [common.Hash{}], the zero value of a hash. *)
Definition zeroHash : Hash := replicate 32 x00.

(** ** Text rendering *)

(** [hextable] of package [encoding/hex]. *)
Definition hextable : string := "0123456789abcdef".

(** [hextable[n]], for a nibble [n]. *)
Definition hexdigit (n : N) : ascii :=
  match String.get (N.to_nat n) hextable with
  | Some c => c
  | None => "f"%char
  end.

(** [hex.EncodeToString]: two lowercase digits per byte, no prefix. *)
Fixpoint EncodeToString (bs : list byte) : string :=
  match bs with
  | [] => EmptyString
  | b :: rest =>
      String (hexdigit (Byte.to_N b / 16))
        (String (hexdigit (Byte.to_N b mod 16)) (EncodeToString rest))
  end.

Definition bytes_of_string (s : string) : list byte :=
  List.map byte_of_ascii (list_ascii_of_string s).

(** [fmt.Sprintf("%x", s)] for a string [s]: the verb applied to a string
    prints the hexadecimal form of its bytes. *)
Definition fmt_x_string (s : string) : string :=
  EncodeToString (bytes_of_string s).

(** [fmt.Sprintf("%x", n)] for an unsigned integer: its hexadecimal digits,
    lowercase, without leading zeros. *)
Definition fmt_x_uint64 (n : Z) : string :=
  NilEmpty.string_of_uint (N.to_hex_uint (Z.to_N n)).

(** [big.Int.Text(16)]: sign and lowercase hexadecimal digits. *)
Definition Text16 (z : Z) : string :=
  NilEmpty.string_of_int (Z.to_hex_int z).

(** Modelled from the spec: [common.Hash.Hex], which lives in package
    [common]; identifiers "are rendered in their canonical fixed-width
    hexadecimal form", the [0x] prefix and two digits for each byte. *)
Definition Hash_Hex (h : Hash) : string := "0x" +:+ EncodeToString h.

(** ** The data model *)

(** Modelled from the spec: [vm.OpCode] and its constants, which live in
    package [vm]; the call types are "call", "two creation variants, and
    self-destruct", and there is a "storage-write opcode".  An opcode is a
    byte, and the values are those of the instruction set. *)
Abbreviation OpCode := byte (only parsing).
Definition SSTORE : OpCode := x55.
Definition CREATE : OpCode := xf0.
Definition CALL : OpCode := xf1.
Definition CREATE2 : OpCode := xf5.
Definition SELFDESTRUCT : OpCode := xff.

Record diff (T : Type) : Type := mkDiff { before : T; after : T }.
Arguments mkDiff {T} _ _.
Arguments before {T} _.
Arguments after {T} _.

Record accountDiff : Type := mkAccountDiff {
  balanceDelta : option Z;
  nonceDelta : Z;
  storage : gmap Hash (diff Hash);
  code : diff (option (list byte))
}.

(** Modelled from the spec: the committed-state reader [vm.StateDB], which
    "must expose [getBalance(account)], [getNonce(account)],
    [getCode(account)], [getStorageValue(account, key)] as of the current
    point in execution". *)
Record StateDB : Type := mkStateDB {
  GetBalance : Address -> Z;
  GetNonce : Address -> Z;
  GetCode : Address -> option (list byte);
  GetState : Address -> Hash -> Hash
}.

Record EVM : Type := mkEVM { evmStateDB : StateDB }.

(** A frame of the call tracer, [callFrame], with the fields that the
    tracer reads: [Type], [From], [GasUsed], [To], [Input], [Calls] and
    [Value]. *)
Inductive callFrame : Type := mkCallFrame {
  cfType : OpCode;
  cfFrom : Address;
  cfGasUsed : Z;
  cfTo : option Address;
  cfInput : option (list byte);
  cfCalls : list callFrame;
  cfValue : option Z
}.

Record Contract : Type := mkContract { contractAddress : Address }.

Record ScopeContext : Type := mkScope {
  scopeContract : Contract;
  scopeStack : list N  (* [Stack.Data()], the top of the stack last *)
}.

(** The embedded [callTracer] is used through the tracer interface and
    through its [callstack]; its methods are the operations of this class.
    A method fails where the call tracer panics. *)
Class CallTracer (T : Type) : Type := {
  callstack : T -> list callFrame;
  ct_CaptureTxStart : Z -> T -> option T;
  ct_CaptureTxEnd : Z -> T -> option T;
  ct_CaptureStart :
    EVM -> Address -> Address -> bool -> option (list byte) -> Z ->
    option Z -> T -> option T;
  ct_CaptureEnd : option (list byte) -> Z -> option string -> T -> option T;
  ct_CaptureEnter :
    OpCode -> Address -> Address -> option (list byte) -> Z -> option Z ->
    T -> option T;
  ct_CaptureExit : option (list byte) -> Z -> option string -> T -> option T;
  ct_CaptureFault :
    Z -> OpCode -> Z -> Z -> ScopeContext -> Z -> option string ->
    T -> option T
}.

Record StateDiffTracer (T : Type) : Type := mkTracer {
  accounts : gmap Address accountDiff;
  env : option EVM;
  gasLimit : Z;  (* a field of the first revision only *)
  tracer : T
}.
Arguments mkTracer {T} _ _ _ _.
Arguments accounts {T} _.
Arguments env {T} _.
Arguments gasLimit {T} _.
Arguments tracer {T} _.

Inductive reportField : Type :=
| Unchanged                      (* the string "=" *)
| Changed (ftFrom ftTo : string) (* a [fromTo] *).

Record accountReport : Type := mkReport {
  Balance : reportField;
  Nonce : reportField;
  Code : reportField;
  Storage : gmap string (string * string)
}.

(** ** The tracer monad *)

Module TracerMonad.

Definition M (S A : Type) : Type := S -> option (A * S).

Definition ret {S A} (a : A) : M S A := fun s => Some (a, s).

Definition bind {S A B} (c : M S A) (k : A -> M S B) : M S B :=
  fun s => match c s with
           | Some (a, s') => k a s'
           | None => None
           end.

Definition get {S} : M S S := fun s => Some (s, s).

Definition put {S} (s : S) : M S unit := fun _ => Some (tt, s).

(** A run-time panic. *)
Definition panic {S A} : M S A := fun _ => None.

(** Dereference of a pointer, or an indexing that is in range. *)
Definition deref {S A} (o : option A) : M S A :=
  match o with
  | Some a => ret a
  | None => panic
  end.

Definition exec {S A} (c : M S A) (s : S) : option S :=
  match c s with
  | Some (_, s') => Some s'
  | None => None
  end.

End TracerMonad.
Import TracerMonad.

Notation "x <- c1 ;; c2" := (bind c1 (fun x => c2))
  (at level 100, c1 at next level, right associativity).
Notation "c1 ;; c2" := (bind c1 (fun _ => c2))
  (at level 100, right associativity).

(** ** The diff store

    [tryInitAccDiff], [recordNonceIncrese], [recordCode], [recordStorage]
    and [recordBalanceChange]; the two revisions of the tracer have the
    same text for them. *)

Section DiffStore.

Context {T : Type}.

#[local] Abbreviation Tr := (M (StateDiffTracer T)).

(** [l.accounts[addr] = d] *)
Definition setAccount (addr : Address) (d : accountDiff) : Tr unit :=
  l <- get ;;
  put (mkTracer (<[addr := d]> (accounts l)) (env l) (gasLimit l) (tracer l)).

(** The zero value that a Go map yields for a key it does not hold. *)
Definition zeroAccountDiff : accountDiff :=
  mkAccountDiff None 0 ∅ (mkDiff None None).

(** [l.accounts[addr]] *)
Definition accountAt (addr : Address) : Tr accountDiff :=
  l <- get ;;
  ret (default zeroAccountDiff (accounts l !! addr)).

(** [l.env.StateDB] *)
Definition stateDB : Tr StateDB :=
  l <- get ;;
  e <- deref (env l) ;;
  ret (evmStateDB e).

Definition tryInitAccDiff (addr : Address) : Tr bool :=
  l <- get ;;
  match accounts l !! addr with
  | None =>
      setAccount addr (mkAccountDiff (Some 0) 0 ∅ (mkDiff None None)) ;;
      ret true
  | Some _ => ret false
  end.

Definition recordNonceIncrese (addr : Address) : Tr unit :=
  tryInitAccDiff addr ;;
  d <- accountAt addr ;;
  setAccount addr
    (mkAccountDiff (balanceDelta d) (int_incr (nonceDelta d))
       (storage d) (code d)).

Definition recordCode (addr : Address) (newCode : option (list byte))
  : Tr unit :=
  isInit <- tryInitAccDiff addr ;;
  d <- accountAt addr ;;
  d <- (if isInit : bool then
          db <- stateDB ;;
          let beforeCode :=
            match GetCode db addr with
            | None => Some []
            | Some c => Some c
            end in
          ret (mkAccountDiff (balanceDelta d) (nonceDelta d) (storage d)
                 (mkDiff beforeCode (after (code d))))
        else ret d) ;;
  setAccount addr
    (mkAccountDiff (balanceDelta d) (nonceDelta d) (storage d)
       (mkDiff (before (code d)) newCode)).

Definition recordStorage (addr : Address) (key newAfter : Hash) : Tr unit :=
  isInit <- tryInitAccDiff addr ;;
  d <- accountAt addr ;;
  let value := default (mkDiff zeroHash zeroHash) (storage d !! key) in
  let value := mkDiff (before value) newAfter in
  value <- (if isInit : bool then
              db <- stateDB ;;
              ret (mkDiff (GetState db addr key) (after value))
            else ret value) ;;
  (* the write goes to the map of the entry, which must exist *)
  l <- get ;;
  e <- deref (accounts l !! addr) ;;
  setAccount addr
    (mkAccountDiff (balanceDelta e) (nonceDelta e)
       (<[key := value]> (storage e)) (code e)).

Definition recordBalanceChange (addr : Address) (delta : Z) : Tr unit :=
  tryInitAccDiff addr ;;
  d <- accountAt addr ;;
  b <- deref (balanceDelta d) ;;
  setAccount addr
    (mkAccountDiff (Some (b + delta)) (nonceDelta d) (storage d) (code d)).

(** *** The report generator *)

(** [report], the balance field. *)
Definition reportBalance (addr : Address) (a : accountDiff)
  : Tr reportField :=
  match balanceDelta a with
  | Some delta =>
      if decide (Z.sgn delta <> 0) then
        db <- stateDB ;;
        let current := GetBalance db addr in
        ret (Changed ("0x" +:+ fmt_x_string (Text16 (current - delta)))
                     ("0x" +:+ fmt_x_string (Text16 current)))
      else ret Unchanged
  | None => ret Unchanged
  end.

(** [report], the nonce field. *)
Definition reportNonce (addr : Address) (a : accountDiff)
  : Tr reportField :=
  if decide (nonceDelta a <> 0) then
    db <- stateDB ;;
    let current := GetNonce db addr in
    ret (Changed
           ("0x" +:+ fmt_x_uint64
                       (sub_uint64 current (uint64_of_int (nonceDelta a))))
           ("0x" +:+ fmt_x_uint64 current))
  else ret Unchanged.

(** [report], the code field. *)
Definition reportCode (a : accountDiff) : reportField :=
  match before (code a), after (code a) with
  | None, None => Unchanged
  | b, c =>
      let beforeS := match b with Some x => EncodeToString x | None => "" end in
      let afterS := match c with Some x => EncodeToString x | None => "" end in
      if decide (beforeS <> afterS) then Changed beforeS afterS
      else Unchanged
  end.

(** [report], the loop over the storage map. *)
Definition reportStorage (a : accountDiff) : gmap string (string * string) :=
  map_fold
    (fun (k : Hash) (v : diff Hash) (res : gmap string (string * string)) =>
       let beforeS := Hash_Hex (before v) in
       let afterS := Hash_Hex (after v) in
       if decide (beforeS <> afterS)
       then <[Hash_Hex k := (beforeS, afterS)]> res
       else res)
    ∅ (storage a).

Definition report (addr : Address) (a : accountDiff) : Tr accountReport :=
  bal <- reportBalance addr a ;;
  non <- reportNonce addr a ;;
  ret (mkReport bal non (reportCode a) (reportStorage a)).

End DiffStore.

(** ** The event handlers *)

(** A Go [error]: [nil] or a message. *)
Abbreviation error := (option string) (only parsing).

Section Handlers.

Context {T : Type} `{CallTracer T}.

#[local] Abbreviation Tr := (M (StateDiffTracer T)).

(** [l.tracer.m(...)]: a method of the embedded call tracer. *)
Definition onTracer (m : T -> option T) : Tr unit :=
  l <- get ;;
  t <- deref (m (tracer l)) ;;
  put (mkTracer (accounts l) (env l) (gasLimit l) t).

(** [l.tracer.callstack] *)
Definition getCallstack : Tr (list callFrame) :=
  l <- get ;;
  ret (callstack (tracer l)).

Definition CaptureTxStart (gasLimit : Z) : Tr unit :=
  onTracer (ct_CaptureTxStart gasLimit).

Definition CaptureTxEnd (restGas : Z) : Tr unit :=
  onTracer (ct_CaptureTxEnd restGas) ;;
  cs <- getCallstack ;;
  callFrame <- deref (cs !! 0%nat) ;;
  let caller := cfFrom callFrame in
  let used := cfGasUsed callFrame in
  recordBalanceChange caller (neg_int64 (int64_of_uint64 used)) ;;
  if decide (cfType callFrame <> CREATE)
  then recordNonceIncrese caller
  else ret tt.

Definition CaptureStart (e : EVM) (from to : Address) (create : bool)
    (input : option (list byte)) (gas : Z) (value : option Z) : Tr unit :=
  l <- get ;;
  put (mkTracer (accounts l) (Some e) (gasLimit l) (tracer l)) ;;
  onTracer (ct_CaptureStart e from to create input gas value) ;;
  if create then recordNonceIncrese from else ret tt.

(** The ether transfer of a frame, in [CaptureEnd] and [CaptureExit]. *)
Definition recordTransfer (callframe : callFrame) : Tr unit :=
  match cfValue callframe with
  | Some value =>
      let from := cfFrom callframe in
      to <- deref (cfTo callframe) ;;
      recordBalanceChange from (- value) ;;
      recordBalanceChange to value
  | None => ret tt
  end.

Definition CaptureEnd (output : option (list byte)) (gasUsed : Z)
    (err : error) : Tr unit :=
  onTracer (ct_CaptureEnd output gasUsed err) ;;
  cs <- getCallstack ;;
  callframe <- deref (cs !! 0%nat) ;;
  let opType := cfType callframe in
  if decide (opType = CREATE \/ opType = CREATE2 \/ opType = CALL) then
    (if decide (opType = CREATE \/ opType = CREATE2) then
       contract <- deref (cfTo callframe) ;;
       db <- stateDB ;;
       recordCode contract (GetCode db contract)
     else ret tt) ;;
    recordTransfer callframe
  else ret tt.

Definition CaptureEnter (typ : OpCode) (from to : Address)
    (input : option (list byte)) (gas : Z) (value : option Z) : Tr unit :=
  onTracer (ct_CaptureEnter typ from to input gas value) ;;
  if decide (typ = CREATE \/ typ = CREATE2)
  then recordNonceIncrese from
  else ret tt.

Definition CaptureExit (output : option (list byte)) (gasUsed : Z)
    (err : error) : Tr unit :=
  onTracer (ct_CaptureExit output gasUsed err) ;;
  cs <- getCallstack ;;
  top <- deref (last cs) ;;
  let lastCallStack := cfCalls top in
  callframe <- deref (last lastCallStack) ;;
  let opType := cfType callframe in
  if decide (opType = CREATE \/ opType = CREATE2 \/ opType = CALL) then
    (if decide (opType = CREATE \/ opType = CREATE2) then
       contract <- deref (cfTo callframe) ;;
       recordCode contract (cfInput callframe)
     else ret tt) ;;
    recordTransfer callframe
  else if decide (opType = SELFDESTRUCT) then
    contract <- deref (cfTo callframe) ;;
    recordCode contract (Some []) ;;
    db <- stateDB ;;
    recordBalanceChange contract (- GetBalance db contract)
  else ret tt.

Definition CaptureFault (pc : Z) (op : OpCode) (gas cost : Z)
    (scope : ScopeContext) (depth : Z) (err : error) : Tr unit :=
  onTracer (ct_CaptureFault pc op gas cost scope depth err).

Definition CaptureState (pc : Z) (op : OpCode) (gas cost : Z)
    (scope : ScopeContext) (rData : option (list byte)) (depth : Z)
    (err : error) : Tr unit :=
  if decide (op = SSTORE) then
    let contract := scopeContract scope in
    let stack := scopeStack scope in
    let stackLen := length stack in
    if decide (2 <= stackLen)%nat then
      v <- deref (stack !! (stackLen - 2)%nat) ;;
      k <- deref (stack !! (stackLen - 1)%nat) ;;
      let value := Bytes32 v in
      let address := Bytes32 k in
      recordStorage (contractAddress contract) address value
    else ret tt
  else ret tt.

(** [GetResult], up to the map that is marshalled; [Address_Hex] is the
    rendering of an account identifier. *)
Definition GetResult (Address_Hex : Address -> string)
  : Tr (gmap string accountReport) :=
  l <- get ;;
  map_fold
    (fun (addr : Address) (d : accountDiff)
         (acc : Tr (gmap string accountReport)) =>
       stateDiffResult <- acc ;;
       r <- report addr d ;;
       ret (<[Address_Hex addr := r]> stateDiffResult))
    (ret ∅) (accounts l).

(** *** The ordered event stream of one traced execution *)

Inductive event : Type :=
| TxStart (gasLimit : Z)
| TxEnd (restGas : Z)
| Start (e : EVM) (from to : Address) (create : bool)
    (input : option (list byte)) (gas : Z) (value : option Z)
| End_ (output : option (list byte)) (gasUsed : Z) (err : error)
| Enter (typ : OpCode) (from to : Address) (input : option (list byte))
    (gas : Z) (value : option Z)
| Exit (output : option (list byte)) (gasUsed : Z) (err : error)
| Fault (pc : Z) (op : OpCode) (gas cost : Z) (scope : ScopeContext)
    (depth : Z) (err : error)
| State (pc : Z) (op : OpCode) (gas cost : Z) (scope : ScopeContext)
    (rData : option (list byte)) (depth : Z) (err : error)
| Host (db : StateDB)
    (* the execution engine changes the state behind [l.env.StateDB] *).

Definition handle (ev : event) : Tr unit :=
  match ev with
  | TxStart g => CaptureTxStart g
  | TxEnd r => CaptureTxEnd r
  | Start e from to create input gas value =>
      CaptureStart e from to create input gas value
  | End_ output gasUsed err => CaptureEnd output gasUsed err
  | Enter typ from to input gas value =>
      CaptureEnter typ from to input gas value
  | Exit output gasUsed err => CaptureExit output gasUsed err
  | Fault pc op gas cost scope depth err =>
      CaptureFault pc op gas cost scope depth err
  | State pc op gas cost scope rData depth err =>
      CaptureState pc op gas cost scope rData depth err
  | Host db =>
      l <- get ;;
      match env l with
      | Some _ =>
          put (mkTracer (accounts l) (Some (mkEVM db)) (gasLimit l) (tracer l))
      | None => ret tt
      end
  end.

Fixpoint run (evs : list event) : Tr unit :=
  match evs with
  | [] => ret tt
  | ev :: rest => handle ev ;; run rest
  end.

End Handlers.

(** ** The first revision of the handlers

    The earlier revision of the tracer keeps the gas limit, charges the gas
    of every frame where the frame ends, and has no report. *)

Module Rev0.
Section Handlers.

Context {T : Type} `{CallTracer T}.

#[local] Abbreviation Tr := (M (StateDiffTracer T)).

(** Modelled from the spec: [core.Transfer], which lives in package
    [core]; it "performs the underlying value transfer via the state
    handle". *)
Definition Transfer (db : StateDB) (sender recipient : Address)
    (amount : Z) : StateDB :=
  let sub := mkStateDB
    (fun a => if decide (a = sender) then GetBalance db a - amount
              else GetBalance db a)
    (GetNonce db) (GetCode db) (GetState db) in
  mkStateDB
    (fun a => if decide (a = recipient) then GetBalance sub a + amount
              else GetBalance sub a)
    (GetNonce db) (GetCode db) (GetState db).

Definition WrappedTransferFunc (db : StateDB) (sender recipient : Address)
    (amount : Z) : Tr StateDB :=
  let db' := Transfer db sender recipient amount in
  (* the deferred function *)
  recordBalanceChange sender (- amount) ;;
  recordBalanceChange recipient amount ;;
  ret db'.

Definition CaptureTxStart (g : Z) : Tr unit :=
  l <- get ;;
  put (mkTracer (accounts l) (env l) g (tracer l)) ;;
  onTracer (ct_CaptureTxStart g).

Definition CaptureTxEnd (restGas : Z) : Tr unit :=
  onTracer (ct_CaptureTxEnd restGas) ;;
  cs <- getCallstack ;;
  top <- deref (cs !! 0%nat) ;;
  let caller := cfFrom top in
  let used := cfGasUsed top in
  recordBalanceChange caller (neg_int64 (int64_of_uint64 used)).

Definition CaptureEnd (output : option (list byte)) (gasUsed : Z)
    (err : error) : Tr unit :=
  onTracer (ct_CaptureEnd output gasUsed err) ;;
  cs <- getCallstack ;;
  callframe <- deref (cs !! 0%nat) ;;
  recordBalanceChange (cfFrom callframe) (- int64_of_uint64 gasUsed) ;;
  if decide (cfType callframe = CREATE \/ cfType callframe = CREATE2) then
    contract <- deref (cfTo callframe) ;;
    db <- stateDB ;;
    recordCode contract (GetCode db contract)
  else ret tt.

Definition CaptureExit (output : option (list byte)) (gasUsed : Z)
    (err : error) : Tr unit :=
  onTracer (ct_CaptureExit output gasUsed err) ;;
  cs <- getCallstack ;;
  top <- deref (last cs) ;;
  let lastCallStack := cfCalls top in
  callframe <- deref (last lastCallStack) ;;
  recordBalanceChange (cfFrom callframe) (- int64_of_uint64 gasUsed) ;;
  if decide (cfType callframe = CREATE \/ cfType callframe = CREATE2) then
    contract <- deref (cfTo callframe) ;;
    recordCode contract (cfInput callframe)
  else if decide (cfType callframe = SELFDESTRUCT) then
    contract <- deref (cfTo callframe) ;;
    recordCode contract (Some []) ;;
    db <- stateDB ;;
    recordBalanceChange contract (- GetBalance db contract)
  else ret tt.

End Handlers.
End Rev0.

(** ** The call tracer

    The call tracer ([callTracer], [newCallTracer] and its methods) is not
    part of these sources; this module is an instance of [CallTracer] that
    follows what the spec says of it. *)

Module SpecCallTracer.

(** Modelled from the spec: the state of the call tracer, which must
    "record gas limit context" and "expose, per frame,
    [{From, To, Type, Value, GasUsed, Input}] and the nested call tree". *)
Record callTracer : Type := mkCallTracer {
  ctCallstack : list callFrame;
  ctGasLimit : Z
}.

Definition zeroFrame : callFrame :=
  mkCallFrame x00 (replicate 20 x00) 0 None None [] None.

(** Modelled from the spec: [newCallTracer]; the first frame of the stack
    is the place of the "outermost call of the transaction". *)
Definition newCallTracer : callTracer := mkCallTracer [zeroFrame] 0.

Definition setTop (f : callFrame -> callFrame) (t : callTracer)
  : option callTracer :=
  match ctCallstack t with
  | [] => None
  | top :: rest => Some (mkCallTracer (f top :: rest) (ctGasLimit t))
  end.

Definition withGasUsed (g : Z) (f : callFrame) : callFrame :=
  mkCallFrame (cfType f) (cfFrom f) g (cfTo f) (cfInput f) (cfCalls f)
    (cfValue f).

Definition addCall (c : callFrame) (f : callFrame) : callFrame :=
  mkCallFrame (cfType f) (cfFrom f) (cfGasUsed f) (cfTo f) (cfInput f)
    (cfCalls f ++ [c]) (cfValue f).

(** Modelled from the spec: "Transaction start(gasLimit): record gas limit
    context". *)
Definition TxStart (g : Z) (t : callTracer) : option callTracer :=
  Some (mkCallTracer (ctCallstack t) g).

(** Modelled from the spec: "Transaction end(restGas): compute
    [used = gasLimit − restGas]", the gas used of the outermost frame. *)
Definition TxEnd (restGas : Z) (t : callTracer) : option callTracer :=
  setTop (withGasUsed (sub_uint64 (ctGasLimit t) restGas)) t.

(** Modelled from the spec: "Call start(create, from, to, value) —
    outermost call of the transaction"; the frame is a creation when
    [create] is set and a call otherwise. *)
Definition Start (e : EVM) (from to : Address) (create : bool)
    (input : option (list byte)) (gas : Z) (value : option Z)
    (t : callTracer) : option callTracer :=
  setTop
    (fun _ =>
       mkCallFrame (if create then CREATE else CALL) from 0 (Some to)
         input [] value)
    t.

(** Modelled from the spec: "Call end(outputs, gasUsed, err) — outermost
    call completes"; none of the frame fields that the tracer reads
    changes. *)
Definition End_ (output : option (list byte)) (gasUsed : Z)
    (err : error) (t : callTracer) : option callTracer :=
  setTop (fun f => f) t.

(** Modelled from the spec: "Call enter(type, from, to, value) — entering
    a nested call"; the new frame goes on the stack. *)
Definition Enter (typ : OpCode) (from to : Address)
    (input : option (list byte)) (gas : Z) (value : option Z)
    (t : callTracer) : option callTracer :=
  Some (mkCallTracer
          (ctCallstack t ++ [mkCallFrame typ from 0 (Some to) input [] value])
          (ctGasLimit t)).

(** Modelled from the spec: "Call exit(callframe) — leaving a nested
    call, using the call-frame tracer's completed frame"; the completed
    frame, with its gas used, leaves the stack and joins the calls of its
    parent, and the outermost frame stays. *)
Definition Exit (output : option (list byte)) (gasUsed : Z)
    (err : error) (t : callTracer) : option callTracer :=
  match rev (ctCallstack t) with
  | call :: parent :: below =>
      Some (mkCallTracer
              (rev below ++ [addCall (withGasUsed gasUsed call) parent])
              (ctGasLimit t))
  | _ => Some t
  end.

(** Modelled from the spec: "Fault: forwarded to the call-frame tracer";
    no frame changes. *)
Definition Fault (pc : Z) (op : OpCode) (gas cost : Z)
    (scope : ScopeContext) (depth : Z) (err : error) (t : callTracer)
  : option callTracer := Some t.

#[global] Instance callTracer_ops : CallTracer callTracer := {|
  callstack := ctCallstack;
  ct_CaptureTxStart := TxStart;
  ct_CaptureTxEnd := TxEnd;
  ct_CaptureStart := Start;
  ct_CaptureEnd := End_;
  ct_CaptureEnter := Enter;
  ct_CaptureExit := Exit;
  ct_CaptureFault := Fault
|}.

End SpecCallTracer.

(** [newStateTracer] over the call tracer above. *)
Definition newStateTracer : StateDiffTracer SpecCallTracer.callTracer :=
  mkTracer ∅ None 0 SpecCallTracer.newCallTracer.


(** ** Vocabulary of the statements *)

Section Vocabulary.

Context {T : Type}.

(** The entry that [tryInitAccDiff] creates. *)
Definition freshAccountDiff : accountDiff :=
  mkAccountDiff (Some 0) 0 ∅ (mkDiff None None).

Definition withAccount (l : StateDiffTracer T) (addr : Address)
    (d : accountDiff) : StateDiffTracer T :=
  mkTracer (<[addr := d]> (accounts l)) (env l) (gasLimit l) (tracer l).

(** The entry of [addr], or the one its first touch would create. *)
Definition entryOf (l : StateDiffTracer T) (addr : Address) : accountDiff :=
  default freshAccountDiff (accounts l !! addr).

Definition balanceOf (l : StateDiffTracer T) (addr : Address) : Z :=
  default 0 (balanceDelta (entryOf l addr)).

Definition nonceOf (l : StateDiffTracer T) (addr : Address) : Z :=
  nonceDelta (entryOf l addr).

(** Every entry carries a balance delta, as every entry made by
    [tryInitAccDiff] does. *)
Definition wf (l : StateDiffTracer T) : Prop :=
  map_Forall (fun _ d => is_Some (balanceDelta d)) (accounts l).

(** The calls of the diff store, as a sequence. *)
Inductive storeOp : Type :=
| RecBalance (addr : Address) (delta : Z)
| RecNonce (addr : Address)
| RecCode (addr : Address) (newCode : option (list byte))
| RecStorage (addr : Address) (key newAfter : Hash)
| SetEnv (e : EVM).

Definition applyOp (o : storeOp) : M (StateDiffTracer T) unit :=
  match o with
  | RecBalance addr delta => recordBalanceChange addr delta
  | RecNonce addr => recordNonceIncrese addr
  | RecCode addr c => recordCode addr c
  | RecStorage addr k v => recordStorage addr k v
  | SetEnv e =>
      l <- get ;;
      put (mkTracer (accounts l) (Some e) (gasLimit l) (tracer l))
  end.

Fixpoint runOps (ops : list storeOp) : M (StateDiffTracer T) unit :=
  match ops with
  | [] => ret tt
  | o :: rest => applyOp o ;; runOps rest
  end.

End Vocabulary.

(** The sum of the amounts recorded for [addr]. *)
Fixpoint recordedBalance (addr : Address) (ops : list storeOp) : Z :=
  match ops with
  | [] => 0
  | RecBalance a delta :: rest =>
      (if decide (a = addr) then delta else 0) + recordedBalance addr rest
  | _ :: rest => recordedBalance addr rest
  end.

(** *** Reading the rendered text back *)

Fixpoint indexOf (c : ascii) (s : string) : option N :=
  match s with
  | EmptyString => None
  | String x rest =>
      if Ascii.eqb x c then Some 0%N else N.succ <$> indexOf c rest
  end.

(** The nibble that a lowercase hexadecimal digit stands for. *)
Definition unhexdigit (c : ascii) : option N := indexOf c hextable.

(** The inverse of [EncodeToString]. *)
Fixpoint DecodeString (s : string) : option (list byte) :=
  match s with
  | EmptyString => Some []
  | String a (String b rest) =>
      match unhexdigit a, unhexdigit b, DecodeString rest with
      | Some hi, Some lo, Some bs => Some (byte_of_N (16 * hi + lo) :: bs)
      | _, _, _ => None
      end
  | String _ EmptyString => None
  end.

Definition string_of_bytes (bs : list byte) : string :=
  string_of_list_ascii (List.map ascii_of_byte bs).

Definition strip0x (s : string) : option string :=
  match s with
  | String "0" (String "x" rest) => Some rest
  | _ => None
  end.

(** The number that a rendered balance stands for: the inverse of the
    rendering in [reportBalance]. *)
Definition parseBalance (s : string) : option Z :=
  match strip0x s with
  | Some digits =>
      match DecodeString digits with
      | Some bs =>
          option_map Z.of_hex_int
            (NilEmpty.int_of_string (string_of_bytes bs))
      | None => None
      end
  | None => None
  end.

(** The number that a rendered nonce stands for. *)
Definition parseNonce (s : string) : option Z :=
  match strip0x s with
  | Some digits =>
      option_map (fun u => Z.of_N (N.of_hex_uint u))
        (NilEmpty.uint_of_string digits)
  | None => None
  end.

(** *** The handlers as sequences of diff-store calls

    Each handler first runs the method of the call tracer ([innerStep]) and
    then makes the diff-store calls listed by [effects]; the list is absent
    where the handler panics before a call. *)

Section Effects.

Context {T : Type} `{CallTracer T}.

Definition withTracer (l : StateDiffTracer T) (t : T) : StateDiffTracer T :=
  mkTracer (accounts l) (env l) (gasLimit l) t.

Definition innerStep (ev : event) (t : T) : option T :=
  match ev with
  | TxStart g => ct_CaptureTxStart g t
  | TxEnd r => ct_CaptureTxEnd r t
  | Start e from to create input gas value =>
      ct_CaptureStart e from to create input gas value t
  | End_ output gasUsed err => ct_CaptureEnd output gasUsed err t
  | Enter typ from to input gas value =>
      ct_CaptureEnter typ from to input gas value t
  | Exit output gasUsed err => ct_CaptureExit output gasUsed err t
  | Fault pc op gas cost scope depth err =>
      ct_CaptureFault pc op gas cost scope depth err t
  | State _ _ _ _ _ _ _ _ => Some t
  | Host _ => Some t
  end.

Definition transferOps (f : callFrame) : option (list storeOp) :=
  match cfValue f with
  | Some value =>
      match cfTo f with
      | Some to => Some [RecBalance (cfFrom f) (- value); RecBalance to value]
      | None => None
      end
  | None => Some []
  end.

(** The calls for a completed frame whose type is a creation or [CALL];
    [deployed] is the code recorded for a creation. *)
Definition frameOps (f : callFrame) (deployed : option (option (list byte)))
  : option (list storeOp) :=
  match (if decide (cfType f = CREATE \/ cfType f = CREATE2)
         then match cfTo f, deployed with
              | Some contract, Some c => Some [RecCode contract c]
              | _, _ => None
              end
         else Some []),
        transferOps f with
  | Some codeOps, Some moveOps => Some (codeOps ++ moveOps)
  | _, _ => None
  end.

Definition effects (ev : event) (l : StateDiffTracer T)
  : option (list storeOp) :=
  match ev with
  | TxStart _ => Some []
  | TxEnd _ =>
      match callstack (tracer l) !! 0%nat with
      | Some f =>
          Some (RecBalance (cfFrom f)
                  (neg_int64 (int64_of_uint64 (cfGasUsed f)))
                :: if decide (cfType f <> CREATE)
                   then [RecNonce (cfFrom f)] else [])
      | None => None
      end
  | Start e from _ create _ _ _ =>
      Some (SetEnv e :: if create then [RecNonce from] else [])
  | End_ _ _ _ =>
      match callstack (tracer l) !! 0%nat with
      | Some f =>
          if decide (cfType f = CREATE \/ cfType f = CREATE2 \/ cfType f = CALL)
          then frameOps f
                 (match cfTo f, env l with
                  | Some contract, Some e =>
                      Some (GetCode (evmStateDB e) contract)
                  | _, _ => None
                  end)
          else Some []
      | None => None
      end
  | Enter typ from _ _ _ _ =>
      Some (if decide (typ = CREATE \/ typ = CREATE2)
            then [RecNonce from] else [])
  | Exit _ _ _ =>
      match last (callstack (tracer l)) with
      | Some top =>
          match last (cfCalls top) with
          | Some f =>
              if decide (cfType f = CREATE \/ cfType f = CREATE2
                         \/ cfType f = CALL)
              then frameOps f (Some (cfInput f))
              else if decide (cfType f = SELFDESTRUCT) then
                match cfTo f, env l with
                | Some contract, Some e =>
                    Some [RecCode contract (Some []);
                          RecBalance contract
                            (- GetBalance (evmStateDB e) contract)]
                | _, _ => None
                end
              else Some []
          | None => None
          end
      | None => None
      end
  | Fault _ _ _ _ _ _ _ => Some []
  | State _ op _ _ scope _ _ _ =>
      if decide (op = SSTORE) then
        match rev (scopeStack scope) with
        | k :: v :: _ =>
            Some [RecStorage (contractAddress (scopeContract scope))
                    (Bytes32 k) (Bytes32 v)]
        | _ => Some []
        end
      else Some []
  | Host db =>
      Some (match env l with
            | Some _ => [SetEnv (mkEVM db)]
            | None => []
            end)
  end.

(** The balance that the value transfer of a frame adds to [a]. *)
Definition valueMoved (f : callFrame) (a : Address) : Z :=
  match cfValue f, cfTo f with
  | Some value, Some to =>
      (if decide (cfFrom f = a) then - value else 0)
      + (if decide (to = a) then value else 0)
  | _, _ => 0
  end.

(** A handler, as the method of the call tracer followed by its calls. *)
Definition factored (ev : event) (l : StateDiffTracer T)
  : option (unit * StateDiffTracer T) :=
  match innerStep ev (tracer l) with
  | Some t =>
      match effects ev (withTracer l t) with
      | Some ops => runOps ops (withTracer l t)
      | None => None
      end
  | None => None
  end.

(** The result of a computation, with the call tracer replaced. *)
Definition retrace (t : T) (r : option (unit * StateDiffTracer T))
  : option (unit * StateDiffTracer T) :=
  match r with
  | Some (x, l') => Some (x, withTracer l' t)
  | None => None
  end.

End Effects.

(** The number of nonce increments recorded for [addr]. *)
Fixpoint recordedNonce (addr : Address) (ops : list storeOp) : nat :=
  match ops with
  | [] => 0
  | RecNonce a :: rest =>
      ((if decide (a = addr) then 1 else 0) + recordedNonce addr rest)%nat
  | _ :: rest => recordedNonce addr rest
  end.



(** A frame without the gas that it and its nested calls report. *)
Fixpoint stripGas (f : callFrame) : callFrame :=
  mkCallFrame (cfType f) (cfFrom f) 0 (cfTo f) (cfInput f)
    (List.map stripGas (cfCalls f)) (cfValue f).

(** Two states of the call tracer that differ in reported gas only. *)
Definition sameFrames (t1 t2 : SpecCallTracer.callTracer) : Prop :=
  List.map stripGas (SpecCallTracer.ctCallstack t1)
  = List.map stripGas (SpecCallTracer.ctCallstack t2) /\
  SpecCallTracer.ctGasLimit t1 = SpecCallTracer.ctGasLimit t2.

(** Two tracers that differ in the gas reported by the frames only. *)
Definition sameDiffs (l1 l2 : StateDiffTracer SpecCallTracer.callTracer)
  : Prop :=
  accounts l1 = accounts l2 /\ env l1 = env l2 /\
  gasLimit l1 = gasLimit l2 /\ sameFrames (tracer l1) (tracer l2).

(** The event with another [gasUsed]. *)
Definition withReportedGas (g : Z) (ev : event) : event :=
  match ev with
  | End_ output _ err => End_ output g err
  | Exit output _ err => Exit output g err
  | _ => ev
  end.

(** The events whose handlers record no balance change. *)
Definition noBalanceEvent (ev : event) : Prop :=
  match ev with
  | TxEnd _ | End_ _ _ _ | Exit _ _ _ => False
  | _ => True
  end.

(** *** Sample inputs *)

Module Sample.

(** A 20-byte address and a 32-byte hash from a number. *)
Definition addr (n : N) : Address := be_bytes 20 n.
Definition hash (n : N) : Hash := Bytes32 n.

Definition sender : Address := addr 1.
Definition contract : Address := addr 2.

(** A committed state: every balance is 255, every nonce is 0, no account
    has code, and slot 2 of every account holds 7. *)
Definition db : StateDB :=
  mkStateDB (fun _ => 255) (fun _ => 0) (fun _ => None)
    (fun _ k => if decide (k = hash 2) then hash 7 else zeroHash).

Definition evm : EVM := mkEVM db.

(** The tracer after [CaptureStart]. *)
Definition started : StateDiffTracer SpecCallTracer.callTracer :=
  mkTracer ∅ (Some evm) 0 SpecCallTracer.newCallTracer.

Definition scope (stack : list N) : ScopeContext :=
  mkScope (mkContract contract) stack.

(** Two storage writes of one contract: value 5 to slot 1, then value 9
    to slot 2. *)
Definition twoWrites : list event :=
  [State 0 SSTORE 0 0 (scope [5; 1]%N) None 1 None;
   State 0 SSTORE 0 0 (scope [9; 2]%N) None 1 None].

(** The tracer during a plain call of [contract] by [sender], with a gas
    limit of 21000. *)
Definition callFrom (typ : OpCode) : StateDiffTracer SpecCallTracer.callTracer :=
  mkTracer ∅ (Some evm) 0
    (SpecCallTracer.mkCallTracer
       [mkCallFrame typ sender 0 (Some contract) None [] None] 21000).

(** A transaction that creates [contract]. *)
Definition creation : list event :=
  [TxStart 21000; Start evm sender contract true None 21000 None;
   End_ None 21000 None; TxEnd 0].

(** An account whose slot 1 went from zero to 5 and whose slot 2 was
    written with the 7 that it held. *)
Definition twoSlots : accountDiff :=
  mkAccountDiff (Some 0) 0
    (<[hash 1 := mkDiff zeroHash (hash 5)]>
       (<[hash 2 := mkDiff (hash 7) (hash 7)]> ∅))
    (mkDiff None None).

(** Two charges to [sender]: a transfer of 30 and gas of 21000. *)
Definition twoCharges : list storeOp :=
  [RecBalance sender (- 30); RecBalance contract 30;
   RecBalance sender (- 21000)].

End Sample.

(** The account that a diff-store call names. *)
Definition opAddr (o : storeOp) : option Address :=
  match o with
  | RecBalance a _ => Some a
  | RecNonce a => Some a
  | RecCode a _ => Some a
  | RecStorage a _ _ => Some a
  | SetEnv _ => None
  end.

(** ** The first accumulator: [eth/tracers/logger/statediff.go] *)

Module Logger.

(** [accountDiff] of package [logger]: the balance is kept as a pair of
    pointers, [None] for [nil]; the storage map is [None] in the zero
    value of the struct and [Some ∅] after [make]. *)
Record accountDiff : Type := mkAccountDiff {
  balance : diff (option Z);
  storage : option (gmap Hash (diff Hash));
  code : diff (option (list byte))
}.

(** [accountsDiff], a Go map: [None] is the [nil] map, which a read finds
    empty and a write panics on. *)
Definition accountsDiff : Type := option (gmap Address accountDiff).

Record StateDiffLogger : Type := mkLogger { accounts : accountsDiff }.

(** The zero value of [accountDiff], which indexing a map gives for a key
    that is absent. *)
Definition zeroAccountDiff : accountDiff :=
  mkAccountDiff (mkDiff None None) None (mkDiff None None).

(** [accsDiff[addr]] with the [ok] flag. *)
Definition index (addr : Address) : M accountsDiff (option accountDiff) :=
  a <- get ;;
  ret (match a with
       | Some m => m !! addr
       | None => None
       end).

(** [accsDiff[addr] = d]. *)
Definition assign (addr : Address) (d : accountDiff) : M accountsDiff unit :=
  a <- get ;;
  m <- deref a ;;
  put (Some (<[addr := d]> m)).

Definition tryInitAddr (addr : Address) : M accountsDiff unit :=
  o <- index addr ;;
  match o with
  | Some _ => ret tt
  | None =>
      assign addr
        (mkAccountDiff (mkDiff None None) (Some ∅) (mkDiff None None))
  end.

(** [recordBalance]; [big.NewInt(0).Set(x)] dereferences [x]. *)
Definition recordBalance (acc : Address) (before_ after_ : option Z) :
    M accountsDiff unit :=
  tryInitAddr acc ;;
  o <- index acc ;;
  let diff := default zeroAccountDiff o in
  diff <- match before (balance diff) with
          | None =>
              (* take only the initial balance *)
              b <- deref before_ ;;
              ret (mkAccountDiff
                     (mkDiff (Some b) (after (balance diff)))
                     (storage diff) (code diff))
          | Some _ => ret diff
          end ;;
  a <- deref after_ ;;
  assign acc
    (mkAccountDiff (mkDiff (before (balance diff)) (Some a))
       (storage diff) (code diff)).

(** A method of the [accounts] field run on the logger. *)
Definition onAccounts {A} (c : M accountsDiff A) : M StateDiffLogger A :=
  fun l => match c (accounts l) with
           | Some (x, a) => Some (x, mkLogger a)
           | None => None
           end.

(** [WrappedTransferFunc]; the state handle is mutated by [core.Transfer],
    so the state after the transfer is returned.  A balance that
    [GetBalance] gave is a value of its own, as in [StateDB] above: the
    transfer puts a new balance in the state and does not update in place
    the one that was read before it. *)
Definition WrappedTransferFunc (db : StateDB) (sender recipient : Address)
    (amount : Z) : M StateDiffLogger StateDB :=
  let senderBalanceBefore := GetBalance db sender in
  let recipientBalanceBefore := GetBalance db recipient in
  let db' := Rev0.Transfer db sender recipient amount in
  (* the deferred function *)
  let senderBalanceAfter := GetBalance db' sender in
  let recipientBalanceAfter := GetBalance db' recipient in
  onAccounts (recordBalance sender (Some senderBalanceBefore)
                (Some senderBalanceAfter)) ;;
  onAccounts (recordBalance recipient (Some recipientBalanceBefore)
                (Some recipientBalanceAfter)) ;;
  ret db'.

(** A sequence of transfers, each one through the hook, on the state that
    the one before left. *)
Fixpoint transfers (ts : list (Address * Address * Z)) (db : StateDB) :
    M StateDiffLogger StateDB :=
  match ts with
  | [] => ret db
  | (sender, recipient, amount) :: ts =>
      db' <- WrappedTransferFunc db sender recipient amount ;;
      transfers ts db'
  end.

End Logger.

(** The same sequence of transfers through the hook of the first revision
    of the tracer. *)
Fixpoint Rev0_transfers {T : Type} (ts : list (Address * Address * Z))
    (db : StateDB) : M (StateDiffTracer T) StateDB :=
  match ts with
  | [] => ret db
  | (sender, recipient, amount) :: ts =>
      db' <- Rev0.WrappedTransferFunc db sender recipient amount ;;
      Rev0_transfers ts db'
  end.

(** The state that a sequence of transfers leaves. *)
Definition finalState (ts : list (Address * Address * Z)) (db : StateDB) :
    StateDB :=
  fold_left (fun db t => Rev0.Transfer db t.1.1 t.1.2 t.2) ts db.

(** The accounts that a sequence of transfers names. *)
Definition parties (ts : list (Address * Address * Z)) : list Address :=
  flat_map (fun t => [t.1.1; t.1.2]) ts.

(** The entries of the logger against the state at the start and the state
    now. *)
Definition Logger_inv (db0 db : StateDB)
    (m : gmap Address Logger.accountDiff) : Prop :=
  forall a,
    match m !! a with
    | Some d =>
        d = Logger.mkAccountDiff
              (mkDiff (Some (GetBalance db0 a)) (Some (GetBalance db a)))
              (Some ∅) (mkDiff None None)
    | None => GetBalance db a = GetBalance db0 a
    end.

(** ** More inputs *)

Module More.

Definition other : Address := Sample.addr 3.

(** The frame of a nested call of [other] by [Sample.contract]. *)
Definition child (typ : OpCode) (value : option Z) : callFrame :=
  mkCallFrame typ Sample.contract 0 (Some other) (Some [x60; x00]) [] value.

(** The tracer inside a nested call of type [typ], under a plain call of
    [Sample.contract] by [Sample.sender]. *)
Definition nestedIn (typ : OpCode) (value : option Z) :
    StateDiffTracer SpecCallTracer.callTracer :=
  mkTracer ∅ (Some Sample.evm) 0
    (SpecCallTracer.mkCallTracer
       [mkCallFrame CALL Sample.sender 0 (Some Sample.contract) None [] None;
        child typ value] 21000).

(** The call tracer after the nested call has been left with 700 gas
    used, and its outermost frame. *)
Definition parent (typ : OpCode) (value : option Z) : callFrame :=
  mkCallFrame CALL Sample.sender 0 (Some Sample.contract) None
    [SpecCallTracer.withGasUsed 700 (child typ value)] None.

Definition left (typ : OpCode) (value : option Z) :
    SpecCallTracer.callTracer :=
  SpecCallTracer.mkCallTracer [parent typ value] 21000.

(** A tracer whose outermost frame is a creation without a target. *)
Definition noTarget : StateDiffTracer SpecCallTracer.callTracer :=
  mkTracer ∅ (Some Sample.evm) 0
    (SpecCallTracer.mkCallTracer
       [mkCallFrame CREATE Sample.sender 0 None None [] None] 21000).

(** A tracer that holds [Sample.twoSlots] for [Sample.contract]. *)
Definition withSlots : StateDiffTracer SpecCallTracer.callTracer :=
  mkTracer {[Sample.contract := Sample.twoSlots]} (Some Sample.evm) 0
    SpecCallTracer.newCallTracer.

(** An account diff with a balance delta of 30. *)
Definition gained : accountDiff :=
  mkAccountDiff (Some 30) 0 ∅ (mkDiff None None).

(** 30 from [Sample.sender] to [Sample.contract], and 10 back. *)
Definition thereAndBack : list (Address * Address * Z) :=
  [(Sample.sender, Sample.contract, 30); (Sample.contract, Sample.sender, 10)].

(** The text of an account: [0x] and its hexadecimal digits. *)
Definition hex (a : Address) : string := "0x" +:+ EncodeToString a.

End More.

(** * Properties *)

(** ** The monad *)

Section MonadFacts.

Context {S : Type}.

Lemma bind_ret_l {A B} (a : A) (k : A -> M S B) (s : S) :
  bind (ret a) k s = k a s.
Proof. reflexivity. Qed.

Lemma bind_Some {A B} (c : M S A) (k : A -> M S B) (s : S) (b : B) (s2 : S) :
  bind c k s = Some (b, s2) <->
  exists a s1, c s = Some (a, s1) /\ k a s1 = Some (b, s2).
Proof.
  unfold bind. split.
  - destruct (c s) as [[a s1]|] eqn:E; [eauto | discriminate].
  - intros (a & s1 & -> & Hk). exact Hk.
Qed.

Lemma deref_Some {A} (o : option A) (s : S) (a : A) (s1 : S) :
  deref o s = Some (a, s1) <-> o = Some a /\ s1 = s.
Proof.
  destruct o; simpl; unfold ret, panic; split.
  - intros [= -> ->]. auto.
  - intros [[= ->] ->]. reflexivity.
  - discriminate.
  - intros [[=] _].
Qed.

Lemma exec_Some {A} (c : M S A) (s s1 : S) :
  exec c s = Some s1 <-> exists a, c s = Some (a, s1).
Proof.
  unfold exec. destruct (c s) as [[a s2]|]; split.
  - intros [= ->]. eauto.
  - intros [a' [= _ ->]]. reflexivity.
  - discriminate.
  - intros [a' [=]].
Qed.

End MonadFacts.

(** ** Equations of the diff store *)

Section DiffStoreFacts.

Context {T : Type}.
Implicit Types (l : StateDiffTracer T) (addr : Address).

Lemma tryInitAccDiff_eq l addr :
  tryInitAccDiff addr l =
  match accounts l !! addr with
  | None => Some (true, withAccount l addr freshAccountDiff)
  | Some _ => Some (false, l)
  end.
Proof.
  unfold tryInitAccDiff, bind, get.
  destruct (accounts l !! addr); reflexivity.
Qed.

Lemma withAccount_twice l addr d1 d2 :
  withAccount (withAccount l addr d1) addr d2 = withAccount l addr d2.
Proof.
  unfold withAccount. simpl. by rewrite insert_insert_eq.
Qed.

Lemma entryOf_withAccount l addr d :
  entryOf (withAccount l addr d) addr = d.
Proof.
  unfold entryOf, withAccount. simpl. by rewrite lookup_insert_eq.
Qed.

Lemma recordNonceIncrese_eq l addr :
  recordNonceIncrese addr l =
  let d := entryOf l addr in
  Some (tt, withAccount l addr
              (mkAccountDiff (balanceDelta d) (int_incr (nonceDelta d))
                 (storage d) (code d))).
Proof.
  unfold recordNonceIncrese, bind. rewrite tryInitAccDiff_eq.
  unfold entryOf. destruct (accounts l !! addr) as [d|] eqn:E; simpl.
  - unfold accountAt, bind, get, ret. rewrite E. reflexivity.
  - unfold accountAt, bind, get, ret. simpl. rewrite lookup_insert_eq. simpl.
    unfold setAccount, bind, get, put. simpl.
    by rewrite insert_insert_eq.
Qed.

Lemma recordBalanceChange_eq l addr delta :
  recordBalanceChange addr delta l =
  let d := entryOf l addr in
  match balanceDelta d with
  | Some b =>
      Some (tt, withAccount l addr
                  (mkAccountDiff (Some (b + delta)) (nonceDelta d)
                     (storage d) (code d)))
  | None => None
  end.
Proof.
  unfold recordBalanceChange, bind. rewrite tryInitAccDiff_eq.
  unfold entryOf. destruct (accounts l !! addr) as [d|] eqn:E; simpl.
  - unfold accountAt, bind, get, ret. rewrite E. simpl.
    destruct (balanceDelta d); reflexivity.
  - unfold accountAt, bind, get, ret. simpl. rewrite lookup_insert_eq. simpl.
    unfold setAccount, bind, get, put, withAccount. simpl.
    by rewrite insert_insert_eq.
Qed.

(** [GetCode], with "no code" as the empty sequence. *)
Lemma recordCode_eq l addr newCode :
  recordCode addr newCode l =
  match accounts l !! addr with
  | Some d =>
      Some (tt, withAccount l addr
                  (mkAccountDiff (balanceDelta d) (nonceDelta d) (storage d)
                     (mkDiff (before (code d)) newCode)))
  | None =>
      match env l with
      | Some e =>
          Some (tt, withAccount l addr
                      (mkAccountDiff (Some 0) 0 ∅
                         (mkDiff
                            (Some (default [] (GetCode (evmStateDB e) addr)))
                            newCode)))
      | None => None
      end
  end.
Proof.
  unfold recordCode, bind. rewrite tryInitAccDiff_eq.
  destruct (accounts l !! addr) as [d|] eqn:E; simpl.
  - unfold accountAt, bind, get, ret. rewrite E. reflexivity.
  - unfold accountAt, stateDB, bind, get, ret. simpl.
    rewrite lookup_insert_eq. simpl.
    destruct (env l) as [e|]; simpl; [|reflexivity].
    unfold setAccount, bind, get, put, withAccount. simpl.
    rewrite insert_insert_eq.
    destruct (GetCode (evmStateDB e) addr); reflexivity.
Qed.

Lemma recordStorage_eq l addr key newAfter :
  recordStorage addr key newAfter l =
  match accounts l !! addr with
  | Some d =>
      Some (tt, withAccount l addr
                  (mkAccountDiff (balanceDelta d) (nonceDelta d)
                     (<[key :=
                          mkDiff
                            (before (default (mkDiff zeroHash zeroHash)
                                       (storage d !! key)))
                            newAfter]> (storage d))
                     (code d)))
  | None =>
      match env l with
      | Some e =>
          Some (tt, withAccount l addr
                      (mkAccountDiff (Some 0) 0
                         {[key :=
                             mkDiff (GetState (evmStateDB e) addr key)
                               newAfter]}
                         (mkDiff None None)))
      | None => None
      end
  end.
Proof.
  unfold recordStorage, bind. rewrite tryInitAccDiff_eq.
  destruct (accounts l !! addr) as [d|] eqn:E; simpl.
  - unfold accountAt, bind, get, ret. rewrite E. reflexivity.
  - unfold accountAt, stateDB, bind, get, ret. simpl.
    destruct (env l) as [e|]; simpl; [|reflexivity].
    rewrite lookup_insert_eq. simpl.
    unfold setAccount, bind, get, put, withAccount. simpl.
    rewrite insert_insert_eq. reflexivity.
Qed.

End DiffStoreFacts.

(** ** The handlers are their sequences of diff-store calls *)

Section HandlerFacts.

Context {T : Type} `{CallTracer T}.
Implicit Types (l : StateDiffTracer T).

Lemma bind_unit_r {S} (c : M S unit) (s : S) : bind c (fun _ => ret tt) s = c s.
Proof. unfold bind, ret. destruct (c s) as [[[] s1]|]; reflexivity. Qed.

Lemma runOps_singleton l (o : storeOp) : runOps [o] l = applyOp o l.
Proof. simpl. apply bind_unit_r. Qed.

Lemma runOps_app (ops1 ops2 : list storeOp) l :
  runOps (ops1 ++ ops2) l = bind (runOps ops1) (fun _ => runOps ops2) l.
Proof.
  revert l. induction ops1 as [|o ops1 IH]; intros l; simpl.
  - reflexivity.
  - unfold bind. destruct (applyOp o l) as [[[] l1]|]; [|reflexivity].
    apply IH.
Qed.

Lemma withTracer_same l : withTracer l (tracer l) = l.
Proof. destruct l; reflexivity. Qed.

Lemma onTracer_eq (m : T -> option T) l :
  onTracer m l = match m (tracer l) with Some t => Some (tt, withTracer l t) | None => None end.
Proof. unfold onTracer, bind, get, deref. destruct (m (tracer l)); reflexivity. Qed.

Ltac mred :=
  simpl;
  repeat (progress cbv beta iota delta
            [bind ret get put deref panic getCallstack onTracer stateDB
             recordTransfer factored withTracer frameOps transferOps];
          simpl).

Ltac mcase :=
  first
    [ case_decide
    | case_bool_decide
    | match goal with
      | |- context [match ?x with _ => _ end] =>
          lazymatch x with
          | context [match _ with _ => _ end] => fail
          | _ =>
              lazymatch type of x with
              | option (unit * _) => destruct x as [[[] ?]|] eqn:?
              | option _ => destruct x eqn:?
              | bool => destruct x eqn:?
              end
          end
      end ].

Ltac msplit :=
  mred; repeat (mcase; mred); rewrite ?bind_unit_r;
  try reflexivity; try tauto; try congruence.

Lemma handle_TxStart g l : handle (TxStart g) l = factored (TxStart g) l.
Proof. simpl. unfold CaptureTxStart. msplit. Qed.

Lemma handle_TxEnd r l : handle (TxEnd r) l = factored (TxEnd r) l.
Proof. simpl. unfold CaptureTxEnd. msplit. Qed.

Lemma handle_Start e from to create input gas value l :
  handle (Start e from to create input gas value) l
  = factored (Start e from to create input gas value) l.
Proof. simpl. unfold CaptureStart. msplit. Qed.

Lemma handle_Enter typ from to input gas value l :
  handle (Enter typ from to input gas value) l
  = factored (Enter typ from to input gas value) l.
Proof. simpl. unfold CaptureEnter. msplit. Qed.

Lemma handle_Fault pc op gas cost scope depth err l :
  handle (Fault pc op gas cost scope depth err) l
  = factored (Fault pc op gas cost scope depth err) l.
Proof. simpl. unfold CaptureFault. msplit. Qed.

Lemma handle_Host db l : handle (Host db) l = factored (Host db) l.
Proof. simpl. msplit. all: destruct l; simplify_eq/=; reflexivity. Qed.


Lemma handle_State pc op gas cost scope rData depth err l :
  handle (State pc op gas cost scope rData depth err) l
  = factored (State pc op gas cost scope rData depth err) l.
Proof.
  unfold factored. simpl. unfold CaptureState.
  destruct l as [acc e g t]. destruct scope as [c stack]. simpl.
  case_decide; [|reflexivity].
  destruct (rev stack) as [|k [|v below]] eqn:E.
  - apply (f_equal (@rev N)) in E. rewrite rev_involutive in E. subst. reflexivity.
  - apply (f_equal (@rev N)) in E. rewrite rev_involutive in E. subst. reflexivity.
  - apply (f_equal (@rev N)) in E. rewrite rev_involutive in E. subst. simpl.
    rewrite <- !app_assoc. simpl.
    case_decide.
    2:{ rewrite length_app in *. simpl in *. lia. }
    rewrite length_app. simpl.
    replace (length (rev below) + 2 - 2)%nat with (length (rev below) + 0)%nat by lia.
    replace (length (rev below) + 2 - 1)%nat with (length (rev below) + 1)%nat by lia.
    rewrite !lookup_app_r by lia.
    replace (length (rev below) + 0 - length (rev below))%nat with 0%nat by lia.
    replace (length (rev below) + 1 - length (rev below))%nat with 1%nat by lia.
    msplit.
Qed.

Lemma handle_End output gasUsed err l :
  handle (End_ output gasUsed err) l = factored (End_ output gasUsed err) l.
Proof.
  simpl. unfold CaptureEnd. msplit.
Qed.

Lemma handle_Exit output gasUsed err l :
  handle (Exit output gasUsed err) l = factored (Exit output gasUsed err) l.
Proof.
  simpl. unfold CaptureExit. msplit.
  all: repeat match goal with
       | E : Some _ = Some _ |- _ => injection E as <-
       | E : recordCode _ _ _ = Some (_, ?s), E' : env ?s = _ |- _ =>
           rewrite recordCode_eq in E; simpl in E;
           destruct (accounts _ !! _); try discriminate E;
           injection E as <-; simpl in E'
       end; try congruence.
Qed.

Lemma handle_effects ev l : handle ev l = factored ev l.
Proof.
  destruct ev;
    auto using handle_TxStart, handle_TxEnd, handle_Start, handle_End,
      handle_Enter, handle_Exit, handle_Fault, handle_State, handle_Host.
Qed.


End HandlerFacts.

(** ** Invariants of the diff store *)

Section StoreFacts.
Context {T : Type}.
Implicit Types (l : StateDiffTracer T) (a addr : Address) (o : storeOp).

(** One call of the diff store rewrites one entry, or only the environment. *)
Lemma applyOp_shape o l l' :
  applyOp o l = Some (tt, l') ->
  (accounts l' = accounts l) \/
  (exists addr d', accounts l' = <[addr := d']> (accounts l) /\
     match o with
     | RecBalance a delta =>
         a = addr /\ exists b, balanceDelta (entryOf l addr) = Some b /\
         d' = mkAccountDiff (Some (b + delta)) (nonceDelta (entryOf l addr))
                (storage (entryOf l addr)) (code (entryOf l addr))
     | RecNonce a =>
         a = addr /\
         d' = mkAccountDiff (balanceDelta (entryOf l addr))
                (int_incr (nonceDelta (entryOf l addr)))
                (storage (entryOf l addr)) (code (entryOf l addr))
     | RecCode a c =>
         a = addr /\
         balanceDelta d' = balanceDelta (entryOf l addr) /\
         nonceDelta d' = nonceDelta (entryOf l addr) /\
         storage d' = storage (entryOf l addr) /\
         after (code d') = c /\
         before (code d') =
           match accounts l !! addr with
           | Some d => before (code d)
           | None =>
               match env l with
               | Some e => Some (default [] (GetCode (evmStateDB e) addr))
               | None => None
               end
           end
     | RecStorage a k v =>
         a = addr /\
         balanceDelta d' = balanceDelta (entryOf l addr) /\
         nonceDelta d' = nonceDelta (entryOf l addr) /\
         code d' = code (entryOf l addr) /\
         exists b, storage d' = <[k := mkDiff b v]> (storage (entryOf l addr))
     | SetEnv _ => False
     end).
Proof.
  destruct o as [a delta|a|a c|a k v|e]; simpl.
  - rewrite recordBalanceChange_eq. simpl.
    destruct (balanceDelta (entryOf l a)) as [b|] eqn:E; [|discriminate].
    intros [= <-]. right. eexists _, _. split; [reflexivity|]. eauto.
  - rewrite recordNonceIncrese_eq. simpl. intros [= <-]. right.
    eexists _, _. split; [reflexivity|]. eauto.
  - rewrite recordCode_eq. unfold entryOf.
    destruct (accounts l !! a) as [d|] eqn:E.
    + intros [= <-]. right. eexists _, _. split; [reflexivity|].
      simpl. rewrite E. simpl. auto 10.
    + destruct (env l) as [e|] eqn:Ee; [|discriminate].
      intros [= <-]. right. eexists _, _. split; [reflexivity|].
      simpl. rewrite E. simpl. auto 10.
  - rewrite recordStorage_eq. unfold entryOf.
    destruct (accounts l !! a) as [d|] eqn:E.
    + intros [= <-]. right. eexists _, _. split; [reflexivity|].
      simpl. rewrite E. simpl. repeat split; eauto.
    + destruct (env l) as [e|] eqn:Ee; [|discriminate].
      intros [= <-]. right. eexists _, _. split; [reflexivity|].
      simpl. rewrite E. simpl. repeat split; eauto.
  - unfold bind, get, put. intros [= <-]. left. reflexivity.
Qed.


Lemma runOps_rel (R : StateDiffTracer T -> StateDiffTracer T -> Prop) :
  (forall l, R l l) ->
  (forall l1 l2 l3, R l1 l2 -> R l2 l3 -> R l1 l3) ->
  (forall o l l', applyOp o l = Some (tt, l') -> R l l') ->
  forall ops l l', runOps ops l = Some (tt, l') -> R l l'.
Proof.
  intros Hrefl Htrans Hstep ops.
  induction ops as [|o ops IH]; intros l l' Hrun; simpl in Hrun.
  - injection Hrun as <-. apply Hrefl.
  - apply bind_Some in Hrun as ([] & l1 & Ho & Hrest).
    eapply Htrans; [eapply Hstep | eapply IH]; eassumption.
Qed.

(** No call of the diff store removes an entry. *)
Lemma runOps_keeps_entries ops l l' a :
  runOps ops l = Some (tt, l') ->
  is_Some (accounts l !! a) -> is_Some (accounts l' !! a).
Proof.
  intros Hrun. revert a.
  refine (runOps_rel
    (fun l l' => forall a, is_Some (accounts l !! a) -> is_Some (accounts l' !! a))
    _ _ _ ops l l' Hrun); clear.
  - auto.
  - auto.
  - intros o l l' Ho a Ha.
    destruct (applyOp_shape _ _ _ Ho) as [-> | (addr & d' & -> & _)]; [done|].
    destruct (decide (addr = a)) as [->|Hne].
    + rewrite lookup_insert_eq. eauto.
    + by rewrite lookup_insert_ne.
Qed.

(** The [before] of the code of an entry never changes once the entry
    exists. *)
Lemma runOps_code_before ops l l' a d :
  runOps ops l = Some (tt, l') ->
  accounts l !! a = Some d ->
  exists d', accounts l' !! a = Some d' /\ before (code d') = before (code d).
Proof.
  intros Hrun. revert a d.
  refine (runOps_rel
    (fun l l' => forall a d, accounts l !! a = Some d ->
       exists d', accounts l' !! a = Some d' /\
                  before (code d') = before (code d))
    _ _ _ ops l l' Hrun); clear.
  - eauto.
  - intros l1 l2 l3 H12 H23 a d Hd.
    destruct (H12 _ _ Hd) as (d2 & Hd2 & E2).
    destruct (H23 _ _ Hd2) as (d3 & Hd3 & E3).
    exists d3. split; [done | congruence].
  - intros o l l' Ho a d Hd.
    destruct (applyOp_shape _ _ _ Ho) as [-> | (addr & d' & -> & Hshape)];
      [eauto|].
    destruct (decide (addr = a)) as [->|Hne].
    2:{ rewrite lookup_insert_ne by done. eauto. }
    rewrite lookup_insert_eq. exists d'. split; [done|].
    unfold entryOf in Hshape. rewrite Hd in Hshape. simpl in Hshape.
    destruct o; try done.
    + destruct Hshape as (_ & b & _ & ->). reflexivity.
    + destruct Hshape as (_ & ->). reflexivity.
    + destruct Hshape as (_ & _ & _ & _ & _ & ->). reflexivity.
    + destruct Hshape as (_ & _ & _ & -> & _). reflexivity.
Qed.

Lemma runOps_wf ops l l' :
  runOps ops l = Some (tt, l') -> wf l -> wf l'.
Proof.
  refine (runOps_rel (fun l l' => wf l -> wf l') _ _ _ ops l l'); clear.
  - auto.
  - auto.
  - intros o l l' Ho Hwf.
    destruct (applyOp_shape _ _ _ Ho) as [E | (addr & d' & E & Hshape)];
      unfold wf in *; rewrite E; [done|].
    apply map_Forall_insert_2; [|done].
    assert (Hold : is_Some (balanceDelta (entryOf l addr))).
    { unfold entryOf. destruct (accounts l !! addr) as [d|] eqn:Ed; simpl.
      - exact (Hwf _ _ Ed).
      - eauto. }
    destruct o; try done.
    + destruct Hshape as (_ & b & _ & ->). eauto.
    + destruct Hshape as (_ & ->). done.
    + destruct Hshape as (_ & -> & _). done.
    + destruct Hshape as (_ & -> & _). done.
Qed.

Lemma balanceOf_withAccount l addr d a :
  balanceOf (withAccount l addr d) a =
  if decide (addr = a) then default 0 (balanceDelta d) else balanceOf l a.
Proof.
  unfold balanceOf, entryOf, withAccount. simpl.
  case_decide as E; [subst; by rewrite lookup_insert_eq|].
  by rewrite lookup_insert_ne.
Qed.

Lemma nonceOf_withAccount l addr d a :
  nonceOf (withAccount l addr d) a =
  if decide (addr = a) then nonceDelta d else nonceOf l a.
Proof.
  unfold nonceOf, entryOf, withAccount. simpl.
  case_decide as E; [subst; by rewrite lookup_insert_eq|].
  by rewrite lookup_insert_ne.
Qed.

Ltac op_inv H :=
  first
    [ rewrite recordBalanceChange_eq in H; cbv zeta in H;
      destruct (balanceDelta (entryOf _ _)) eqn:?; [|discriminate H]
    | rewrite recordNonceIncrese_eq in H; cbv zeta in H
    | rewrite recordCode_eq in H;
      destruct (accounts _ !! _) eqn:?;
      [|destruct (env _) eqn:?; [|discriminate H]]
    | rewrite recordStorage_eq in H;
      destruct (accounts _ !! _) eqn:?;
      [|destruct (env _) eqn:?; [|discriminate H]]
    | unfold bind, get, put in H ];
  injection H as <-.

Lemma applyOp_balanceOf o l l' a :
  applyOp o l = Some (tt, l') ->
  balanceOf l' a = balanceOf l a + recordedBalance a [o].
Proof.
  intros Ho. destruct o as [addr delta|addr|addr c|addr k v|e]; simpl in *;
    op_inv Ho; rewrite ?balanceOf_withAccount; repeat case_decide; subst;
    simpl; try lia; try done.
  all: unfold balanceOf, entryOf in *;
    repeat match goal with E : _ !! _ = _ |- _ => rewrite E in *; clear E end;
    simpl in *; try lia.
  all: match goal with E : _ = Some _ |- _ => rewrite E; simpl; lia end.
Qed.

Lemma runOps_balanceOf ops l l' a :
  runOps ops l = Some (tt, l') ->
  balanceOf l' a = balanceOf l a + recordedBalance a ops.
Proof.
  revert l. induction ops as [|o ops IH]; intros l Hrun; simpl in Hrun.
  - injection Hrun as <-. simpl. lia.
  - apply bind_Some in Hrun as ([] & l1 & Ho & Hrest).
    rewrite (IH _ Hrest), (applyOp_balanceOf _ _ _ _ Ho).
    destruct o; simpl; lia.
Qed.

(** The number of nonce increments recorded for [a]. *)
Lemma applyOp_nonceOf o l l' a :
  applyOp o l = Some (tt, l') ->
  nonceOf l' a =
  match o with
  | RecNonce addr => if decide (addr = a) then int_incr (nonceOf l a) else nonceOf l a
  | _ => nonceOf l a
  end.
Proof.
  intros Ho. destruct o as [addr delta|addr|addr c|addr k v|e]; simpl in *;
    op_inv Ho; rewrite ?nonceOf_withAccount; repeat case_decide; subst;
    simpl; try done.
  all: unfold nonceOf, entryOf in *;
    repeat match goal with E : _ !! _ = _ |- _ => rewrite E in *; clear E end;
    simpl in *; try done.
Qed.

End StoreFacts.

(** ** Whole runs *)

Section RunFacts.

Context {T : Type} `{CallTracer T}.
Implicit Types (l : StateDiffTracer T) (a addr : Address).

Lemma handle_runOps ev l l' :
  handle ev l = Some (tt, l') ->
  exists t ops,
    innerStep ev (tracer l) = Some t /\
    effects ev (withTracer l t) = Some ops /\
    runOps ops (withTracer l t) = Some (tt, l').
Proof.
  rewrite handle_effects. unfold factored.
  destruct (innerStep ev (tracer l)) as [t|] eqn:Et; [|discriminate].
  destruct (effects ev (withTracer l t)) as [ops|] eqn:Eo; [|discriminate].
  intros Hops. exists t, ops. repeat split; assumption.
Qed.

Lemma run_keeps_entries evs l l' a :
  run evs l = Some (tt, l') ->
  is_Some (accounts l !! a) -> is_Some (accounts l' !! a).
Proof.
  revert l. induction evs as [|ev evs IH]; intros l Hrun Ha; simpl in Hrun.
  - by injection Hrun as <-.
  - apply bind_Some in Hrun as ([] & l1 & Hev & Hrest).
    apply handle_runOps in Hev as (t & ops & _ & _ & Hops).
    eapply IH; [eassumption|].
    eapply runOps_keeps_entries; [eassumption|]. exact Ha.
Qed.

Lemma run_code_before evs l l' a d :
  run evs l = Some (tt, l') ->
  accounts l !! a = Some d ->
  exists d', accounts l' !! a = Some d' /\ before (code d') = before (code d).
Proof.
  revert l d. induction evs as [|ev evs IH]; intros l d Hrun Ha;
    simpl in Hrun.
  - injection Hrun as <-. eauto.
  - apply bind_Some in Hrun as ([] & l1 & Hev & Hrest).
    apply handle_runOps in Hev as (t & ops & _ & _ & Hops).
    destruct (runOps_code_before _ _ _ a d Hops Ha) as (d1 & Hd1 & E1).
    destruct (IH _ _ Hrest Hd1) as (d' & Hd' & E').
    exists d'. split; [done | congruence].
Qed.

Lemma run_wf evs l l' : run evs l = Some (tt, l') -> wf l -> wf l'.
Proof.
  revert l. induction evs as [|ev evs IH]; intros l Hrun Hwf; simpl in Hrun.
  - by injection Hrun as <-.
  - apply bind_Some in Hrun as ([] & l1 & Hev & Hrest).
    apply handle_runOps in Hev as (t & ops & _ & _ & Hops).
    eapply IH; [eassumption|]. eapply runOps_wf; [eassumption|]. exact Hwf.
Qed.

End RunFacts.

(** ** The account-initialization operation *)

(** C8.  [tryInitAccDiff] on an account without an entry creates the entry
    with a zero balance delta, a zero nonce delta, an empty storage map and
    an empty code diff, touches no other entry and returns [true]; on an
    account with an entry it changes nothing and returns [false], so a
    second call is a no-op.  No sequence of diff-store calls and no
    sequence of events removes an entry. *)
Theorem tryInitAccDiff_creates_once
    {T : Type} `{CallTracer T} (l : StateDiffTracer T) (addr : Address) :
  (accounts l !! addr = None ->
   exists l',
     tryInitAccDiff addr l = Some (true, l') /\
     accounts l' !! addr =
       Some (mkAccountDiff (Some 0) 0 ∅ (mkDiff None None)) /\
     (forall a, a <> addr -> accounts l' !! a = accounts l !! a) /\
     env l' = env l /\ tracer l' = tracer l /\
     tryInitAccDiff addr l' = Some (false, l')) /\
  (forall d, accounts l !! addr = Some d ->
     tryInitAccDiff addr l = Some (false, l)) /\
  (forall ops l' a,
     runOps ops l = Some (tt, l') ->
     is_Some (accounts l !! a) -> is_Some (accounts l' !! a)) /\
  (forall evs l' a,
     run evs l = Some (tt, l') ->
     is_Some (accounts l !! a) -> is_Some (accounts l' !! a)).
Proof.
  split; [|split; [|split]].
  - intros Hnone. exists (withAccount l addr freshAccountDiff).
    rewrite !tryInitAccDiff_eq, Hnone. simpl.
    rewrite lookup_insert_eq. repeat split; try reflexivity.
    intros a Hne. by rewrite lookup_insert_ne.
  - intros d Hd. by rewrite tryInitAccDiff_eq, Hd.
  - intros ops l' a. apply runOps_keeps_entries.
  - intros evs l' a. apply run_keeps_entries.
Qed.

Lemma tryInitAccDiff_creates_once_witness :
  exists l',
    tryInitAccDiff Sample.contract Sample.started = Some (true, l') /\
    accounts l' !! Sample.contract =
      Some (mkAccountDiff (Some 0) 0 ∅ (mkDiff None None)) /\
    tryInitAccDiff Sample.contract l' = Some (false, l').
Proof.
  destruct (proj1 (tryInitAccDiff_creates_once Sample.started Sample.contract))
    as (l' & H1 & H2 & _ & _ & _ & H3).
  - reflexivity.
  - exists l'. auto.
Defined.

(** ** Recording code *)

(** C4.  [recordCode] reads the committed code into [before] when its call
    is the first touch of the account, with "no code" as the empty
    sequence and never as an absent value; on an account that has an entry
    it leaves [before] as it is; in both cases [after] becomes the new
    code.  No later diff-store call and no later event changes the
    [before] of an existing entry. *)
Theorem recordCode_before_once
    {T : Type} `{CallTracer T} (l : StateDiffTracer T) (addr : Address)
    (newCode : option (list byte)) :
  (forall e, accounts l !! addr = None -> env l = Some e ->
     exists l',
       recordCode addr newCode l = Some (tt, l') /\
       accounts l' !! addr =
         Some (mkAccountDiff (Some 0) 0 ∅
                 (mkDiff (Some (default [] (GetCode (evmStateDB e) addr)))
                    newCode))) /\
  (forall d, accounts l !! addr = Some d ->
     exists l',
       recordCode addr newCode l = Some (tt, l') /\
       accounts l' !! addr =
         Some (mkAccountDiff (balanceDelta d) (nonceDelta d) (storage d)
                 (mkDiff (before (code d)) newCode))) /\
  (forall d ops l', accounts l !! addr = Some d ->
     runOps ops l = Some (tt, l') ->
     exists d', accounts l' !! addr = Some d' /\
                before (code d') = before (code d)) /\
  (forall d evs l', accounts l !! addr = Some d ->
     run evs l = Some (tt, l') ->
     exists d', accounts l' !! addr = Some d' /\
                before (code d') = before (code d)).
Proof.
  split; [|split; [|split]].
  - intros e Hnone He. rewrite recordCode_eq, Hnone, He.
    eexists. split; [reflexivity|]. simpl. by rewrite lookup_insert_eq.
  - intros d Hd. rewrite recordCode_eq, Hd.
    eexists. split; [reflexivity|]. simpl. by rewrite lookup_insert_eq.
  - intros d ops l' Hd Hrun. eapply runOps_code_before; eassumption.
  - intros d evs l' Hd Hrun. eapply run_code_before; eassumption.
Qed.

Lemma recordCode_before_once_witness :
  exists l',
    recordCode Sample.contract (Some [xab; xcd]) Sample.started
      = Some (tt, l') /\
    accounts l' !! Sample.contract =
      Some (mkAccountDiff (Some 0) 0 ∅ (mkDiff (Some []) (Some [xab; xcd]))).
Proof.
  apply (proj1 (recordCode_before_once Sample.started Sample.contract
                  (Some [xab; xcd])) Sample.evm); reflexivity.
Defined.

(** ** Recording storage *)

(** Every call sets [after] to the new value. *)
Lemma recordStorage_sets_after {T : Type} (l l' : StateDiffTracer T)
    (addr : Address) (key newAfter : Hash) :
  recordStorage addr key newAfter l = Some (tt, l') ->
  exists d v, accounts l' !! addr = Some d /\ storage d !! key = Some v /\
              after v = newAfter.
Proof.
  rewrite recordStorage_eq.
  destruct (accounts l !! addr) as [d|]; [|destruct (env l); [|discriminate]];
    intros [= <-]; simpl; rewrite lookup_insert_eq;
    eexists _, _; (split; [reflexivity|]); simpl;
    by rewrite ?lookup_insert_eq, ?lookup_singleton_eq.
Qed.

(** The committed value is read only when the call creates the entry of
    the account. *)
Lemma recordStorage_first_touch {T : Type} (l : StateDiffTracer T)
    (addr : Address) (key newAfter : Hash) (e : EVM) :
  accounts l !! addr = None -> env l = Some e ->
  exists l' d,
    recordStorage addr key newAfter l = Some (tt, l') /\
    accounts l' !! addr = Some d /\
    storage d !! key =
      Some (mkDiff (GetState (evmStateDB e) addr key) newAfter).
Proof.
  intros Hnone He. rewrite recordStorage_eq, Hnone, He.
  eexists _, _. split; [reflexivity|]. simpl. rewrite lookup_insert_eq.
  split; [reflexivity|]. simpl. by rewrite lookup_singleton_eq.
Qed.

(** On an account that has an entry, a key not seen before gets the zero
    hash as [before], whatever the committed state holds. *)
Lemma recordStorage_touched_account {T : Type} (l : StateDiffTracer T)
    (addr : Address) (key newAfter : Hash) (d : accountDiff) :
  accounts l !! addr = Some d -> storage d !! key = None ->
  exists l' d',
    recordStorage addr key newAfter l = Some (tt, l') /\
    accounts l' !! addr = Some d' /\
    storage d' !! key = Some (mkDiff zeroHash newAfter).
Proof.
  intros Hd Hk. rewrite recordStorage_eq, Hd, Hk.
  eexists _, _. split; [reflexivity|]. simpl. rewrite lookup_insert_eq.
  split; [reflexivity|]. simpl. by rewrite lookup_insert_eq.
Qed.

(** C1.  A contract writes slot 1 and then slot 2, which holds 7 in the
    committed state: the diff of slot 2 has the zero hash as [before], not
    the committed 7, because the account had been touched by the first
    write. *)
Theorem recordStorage_later_key_before_not_read :
  (exec (run Sample.twoWrites) Sample.started ≫= fun l' =>
   accounts l' !! Sample.contract ≫= fun d =>
   storage d !! Sample.hash 2)
  = Some (mkDiff zeroHash (Sample.hash 9)) /\
  GetState Sample.db Sample.contract (Sample.hash 2) = Sample.hash 7 /\
  zeroHash <> Sample.hash 7.
Proof.
  split; [vm_compute; reflexivity|].
  split; [vm_compute; reflexivity|].
  vm_compute. discriminate.
Qed.

(** ** Balance deltas of the handlers *)

Section GasFacts.
Context {T : Type} `{CallTracer T}.
Implicit Types (l : StateDiffTracer T) (a addr : Address).

Lemma wf_entryOf l a : wf l -> is_Some (balanceDelta (entryOf l a)).
Proof.
  intros Hwf. unfold entryOf.
  destruct (accounts l !! a) as [d|] eqn:E; simpl; [exact (Hwf _ _ E) | eauto].
Qed.

Lemma recordBalanceChange_wf l a delta :
  wf l -> exists l', recordBalanceChange a delta l = Some (tt, l').
Proof.
  intros Hwf. rewrite recordBalanceChange_eq. simpl.
  destruct (wf_entryOf l a Hwf) as [b ->]. eauto.
Qed.

Lemma handle_balanceOf ev l l' a :
  handle ev l = Some (tt, l') ->
  exists t ops,
    innerStep ev (tracer l) = Some t /\
    effects ev (withTracer l t) = Some ops /\
    balanceOf l' a = balanceOf l a + recordedBalance a ops.
Proof.
  intros Hev. apply handle_runOps in Hev as (t & ops & Ht & Hops & Hrun).
  exists t, ops. repeat split; try assumption.
  apply (runOps_balanceOf _ _ _ a) in Hrun. exact Hrun.
Qed.

Lemma CaptureTxEnd_balance l restGas t f :
  ct_CaptureTxEnd restGas (tracer l) = Some t ->
  callstack t !! 0%nat = Some f ->
  wf l ->
  exists l',
    CaptureTxEnd restGas l = Some (tt, l') /\
    forall a,
      balanceOf l' a =
      balanceOf l a
      + (if decide (cfFrom f = a)
         then neg_int64 (int64_of_uint64 (cfGasUsed f)) else 0).
Proof.
  intros Ht Hf Hwf.
  assert (Hsome : exists l', CaptureTxEnd restGas l = Some (tt, l')).
  { change (CaptureTxEnd restGas l) with (handle (TxEnd restGas) l).
    rewrite handle_effects. unfold factored. simpl. rewrite Ht. simpl.
    rewrite Hf.
    destruct (recordBalanceChange_wf (withTracer l t) (cfFrom f)
                (neg_int64 (int64_of_uint64 (cfGasUsed f))) Hwf) as [l1 H1].
    simpl. unfold bind. rewrite H1.
    case_decide; simpl.
    - rewrite bind_unit_r, recordNonceIncrese_eq. eauto.
    - eauto. }
  destruct Hsome as [l' Hl']. exists l'. split; [exact Hl'|].
  intros a.
  destruct (handle_balanceOf (TxEnd restGas) l l' a Hl')
    as (t' & ops & Ht' & Hops & ->).
  simpl in Ht', Hops. rewrite Ht in Ht'. injection Ht' as <-.
  rewrite Hf in Hops. injection Hops as <-.
  simpl. repeat case_decide; simpl; lia.
Qed.

Lemma CaptureEnd_balance l output gasUsed err l' t f a :
  ct_CaptureEnd output gasUsed err (tracer l) = Some t ->
  callstack t !! 0%nat = Some f ->
  CaptureEnd output gasUsed err l = Some (tt, l') ->
  balanceOf l' a =
  balanceOf l a
  + (if decide (cfType f = CREATE \/ cfType f = CREATE2 \/ cfType f = CALL)
     then valueMoved f a else 0).
Proof.
  intros Ht Hf Hl'.
  destruct (handle_balanceOf (End_ output gasUsed err) l l' a Hl')
    as (t' & ops & Ht' & Hops & ->).
  simpl in Ht', Hops. rewrite Ht in Ht'. injection Ht' as <-.
  rewrite Hf in Hops. f_equal. unfold valueMoved.
  case_decide; [|by injection Hops as <-].
  unfold frameOps, transferOps in Hops.
  repeat (case_match; simplify_eq/=; try done);
    simpl; repeat case_decide; lia.
Qed.


Lemma CaptureExit_balance l output gasUsed err l' t top f a :
  ct_CaptureExit output gasUsed err (tracer l) = Some t ->
  last (callstack t) = Some top ->
  last (cfCalls top) = Some f ->
  CaptureExit output gasUsed err l = Some (tt, l') ->
  balanceOf l' a =
  balanceOf l a
  + (if decide (cfType f = CREATE \/ cfType f = CREATE2 \/ cfType f = CALL)
     then valueMoved f a
     else if decide (cfType f = SELFDESTRUCT) then
       match cfTo f, env l with
       | Some contract, Some e =>
           if decide (contract = a)
           then - GetBalance (evmStateDB e) contract else 0
       | _, _ => 0
       end
     else 0).
Proof.
  intros Ht Htop Hf Hl'.
  destruct (handle_balanceOf (Exit output gasUsed err) l l' a Hl')
    as (t' & ops & Ht' & Hops & ->).
  simpl in Ht', Hops. rewrite Ht in Ht'. injection Ht' as <-.
  rewrite Htop, Hf in Hops. f_equal. unfold valueMoved.
  case_decide.
  - unfold frameOps, transferOps in Hops.
    repeat (case_match; simplify_eq/=; try done);
      simpl; repeat case_decide; lia.
  - case_decide; [|by injection Hops as <-].
    repeat (case_match; simplify_eq/=; try done);
      simpl; repeat case_decide; lia.
Qed.

End GasFacts.

Lemma TxEnd_gasUsed (t t' : SpecCallTracer.callTracer) (restGas : Z) :
  SpecCallTracer.TxEnd restGas t = Some t' ->
  exists f, SpecCallTracer.ctCallstack t' !! 0%nat = Some f /\
            cfGasUsed f = sub_uint64 (SpecCallTracer.ctGasLimit t) restGas.
Proof.
  unfold SpecCallTracer.TxEnd, SpecCallTracer.setTop.
  destruct (SpecCallTracer.ctCallstack t) as [|top rest]; [discriminate|].
  intros [= <-]. simpl. eauto.
Qed.

Lemma neg_int64_of_gas (g r : Z) :
  0 <= r <= g -> g < 2 ^ 63 ->
  neg_int64 (int64_of_uint64 (sub_uint64 g r)) = - (g - r).
Proof.
  intros Hr Hg.
  unfold neg_int64, int64_of_uint64, sub_uint64, wrap_int64, wrap_uint64.
  rewrite (Z.mod_small (g - r)) by lia.
  rewrite (Z.mod_small (g - r + 2 ^ 63)) by lia.
  replace (g - r + 2 ^ 63 - 2 ^ 63) with (g - r) by lia.
  destruct (decide (g - r = 0)) as [->|Hne].
  - reflexivity.
  - rewrite (Z.mod_small (- (g - r) + 2 ^ 63)) by lia. lia.
Qed.


(** *** The call tracer does not matter to the diff store *)

Section TracerIrrelevant.
Context {T : Type} `{CallTracer T}.
Implicit Types (l : StateDiffTracer T) (a addr : Address).

Lemma applyOp_withTracer o l t :
  applyOp o (withTracer l t) = retrace t (applyOp o l).
Proof.
  destruct o as [addr delta|addr|addr c|addr k v|e]; simpl.
  - rewrite !recordBalanceChange_eq. simpl.
    change (entryOf (withTracer l t) addr) with (entryOf l addr).
    destruct (balanceDelta (entryOf l addr)); reflexivity.
  - rewrite !recordNonceIncrese_eq. reflexivity.
  - rewrite !recordCode_eq. simpl.
    destruct (accounts l !! addr); [reflexivity|].
    destruct (env l); reflexivity.
  - rewrite !recordStorage_eq. simpl.
    destruct (accounts l !! addr); [reflexivity|].
    destruct (env l); reflexivity.
  - reflexivity.
Qed.

Lemma withTracer_withTracer l t1 t2 :
  withTracer (withTracer l t1) t2 = withTracer l t2.
Proof. reflexivity. Qed.

Lemma runOps_withTracer ops l t :
  runOps ops (withTracer l t) = retrace t (runOps ops l).
Proof.
  revert l. induction ops as [|o ops IH]; intros l; simpl.
  - reflexivity.
  - unfold bind. rewrite applyOp_withTracer.
    destruct (applyOp o l) as [[[] l1]|]; simpl; [|reflexivity].
    apply IH.
Qed.

Lemma runOps_accounts_any_tracer ops l t1 t2 :
  accounts <$> exec (runOps ops) (withTracer l t1)
  = accounts <$> exec (runOps ops) (withTracer l t2).
Proof.
  unfold exec. rewrite !runOps_withTracer.
  destruct (runOps ops l) as [[[] l1]|]; reflexivity.
Qed.

End TracerIrrelevant.


Lemma CaptureEnd_any_gasUsed (l : StateDiffTracer SpecCallTracer.callTracer)
    (output : option (list byte)) (g1 g2 : Z) (err : option string) :
  CaptureEnd output g1 err l = CaptureEnd output g2 err l.
Proof. reflexivity. Qed.

Lemma frameOps_withGasUsed (g : Z) (f : callFrame)
    (deployed : option (option (list byte))) :
  frameOps (SpecCallTracer.withGasUsed g f) deployed = frameOps f deployed.
Proof. reflexivity. Qed.

Lemma CaptureExit_any_gasUsed (l : StateDiffTracer SpecCallTracer.callTracer)
    (output : option (list byte)) (g1 g2 : Z) (err : option string) :
  accounts <$> exec (CaptureExit output g1 err) l
  = accounts <$> exec (CaptureExit output g2 err) l.
Proof.
  change (CaptureExit output g1 err) with (handle (Exit output g1 err)).
  change (CaptureExit output g2 err) with (handle (Exit output g2 err)).
  unfold exec. rewrite !handle_effects. unfold factored. simpl.
  unfold SpecCallTracer.Exit.
  destruct (rev (SpecCallTracer.ctCallstack (tracer l))) as [|call [|parent below]] eqn:E;
    try reflexivity.
  simpl. rewrite !last_snoc. simpl. rewrite !last_snoc. simpl.
  rewrite !frameOps_withGasUsed.
  set (t1 := SpecCallTracer.mkCallTracer _ _).
  set (t2 := SpecCallTracer.mkCallTracer _ _).
  match goal with
  | |- context [match ?o with Some ops => runOps ops (withTracer l t1) | None => None end] =>
      destruct o as [ops|]; [|reflexivity]
  end.
  apply (runOps_accounts_any_tracer ops l t1 t2).
Qed.

(** *** The gas that the frames report does not matter *)

Section GasIndependence.

Implicit Types (l : StateDiffTracer SpecCallTracer.callTracer)
  (t : SpecCallTracer.callTracer).

Lemma stripGas_fields f1 f2 :
  stripGas f1 = stripGas f2 ->
  cfType f1 = cfType f2 /\ cfFrom f1 = cfFrom f2 /\ cfTo f1 = cfTo f2 /\
  cfInput f1 = cfInput f2 /\ cfValue f1 = cfValue f2 /\
  List.map stripGas (cfCalls f1) = List.map stripGas (cfCalls f2).
Proof.
  destruct f1, f2. simpl. intros [= -> -> -> -> E ->]. auto 10.
Qed.

Lemma sameFrames_innerStep ev g t1 t2 :
  sameFrames t1 t2 ->
  match innerStep ev t1, innerStep (withReportedGas g ev) t2 with
  | Some t1', Some t2' =>
      sameFrames t1' t2' /\
      (forall r, ev = TxEnd r ->
         cfGasUsed <$> SpecCallTracer.ctCallstack t1' !! 0%nat
         = cfGasUsed <$> SpecCallTracer.ctCallstack t2' !! 0%nat)
  | None, None => True
  | _, _ => False
  end.
Proof.
  intros [Hcs Hgl]. destruct ev; simpl.
  - (* TxStart *) split; [split; done | discriminate].
  - (* TxEnd *)
    unfold SpecCallTracer.TxEnd, SpecCallTracer.setTop.
    destruct (SpecCallTracer.ctCallstack t1) as [|top1 rest1],
             (SpecCallTracer.ctCallstack t2) as [|top2 rest2];
      try discriminate Hcs; [done|].
    simpl in Hcs. injection Hcs as Htop Hrest.
    split; [split|]; simpl.
    + f_equal; [|done]. destruct top1, top2. simpl in *. done.
    + done.
    + intros r _. by rewrite Hgl.
  - (* Start *)
    unfold SpecCallTracer.Start, SpecCallTracer.setTop.
    destruct (SpecCallTracer.ctCallstack t1) as [|top1 rest1],
             (SpecCallTracer.ctCallstack t2) as [|top2 rest2];
      try discriminate Hcs; [done|].
    simpl in Hcs. injection Hcs as Htop Hrest.
    split; [split|discriminate]; simpl; [by f_equal | done].
  - (* End_ *)
    unfold SpecCallTracer.End_, SpecCallTracer.setTop.
    destruct (SpecCallTracer.ctCallstack t1) as [|top1 rest1],
             (SpecCallTracer.ctCallstack t2) as [|top2 rest2];
      try discriminate Hcs; [done|].
    split; [split|discriminate]; simpl; done.
  - (* Enter *)
    split; [split|discriminate]; simpl; [|done].
    rewrite !List.map_app. by f_equal.
  - (* Exit *)
    unfold SpecCallTracer.Exit.
    assert (Hrev : List.map stripGas (rev (SpecCallTracer.ctCallstack t1))
                   = List.map stripGas (rev (SpecCallTracer.ctCallstack t2))).
    { rewrite !List.map_rev. by f_equal. }
    destruct (rev (SpecCallTracer.ctCallstack t1)) as [|c1 [|p1 b1]],
             (rev (SpecCallTracer.ctCallstack t2)) as [|c2 [|p2 b2]];
      try discriminate Hrev; try (split; [split; done | discriminate]).
    simpl in Hrev. injection Hrev as Hc Hp Hb.
    split; [split|discriminate]; simpl; [|done].
    rewrite !List.map_app, !List.map_rev. f_equal; [by f_equal|].
    simpl. f_equal.
    destruct (stripGas_fields _ _ Hp) as (-> & -> & -> & -> & -> & Hcalls).
    f_equal. rewrite !List.map_app. f_equal; [done|].
    simpl. f_equal. destruct c1, c2. simpl in *. done.
  - (* Fault *) split; [split; done | discriminate].
  - (* State *) split; [split; done | discriminate].
  - (* Host *) split; [split; done | discriminate].
Qed.


Lemma last_map_stripGas (cs : list callFrame) :
  last (List.map stripGas cs) = stripGas <$> last cs.
Proof.
  induction cs as [|c [|c' cs] IH]; [done..|]. exact IH.
Qed.

Lemma frameOps_stripGas f1 f2 deployed :
  stripGas f1 = stripGas f2 -> frameOps f1 deployed = frameOps f2 deployed.
Proof.
  intros E. destruct (stripGas_fields _ _ E) as (Ht & Hf & Hto & _ & Hv & _).
  unfold frameOps, transferOps. by rewrite Ht, Hf, Hto, Hv.
Qed.

Lemma sameFrames_effects ev g l1 l2 :
  sameDiffs l1 l2 ->
  (forall r, ev = TxEnd r ->
     cfGasUsed <$> SpecCallTracer.ctCallstack (tracer l1) !! 0%nat
     = cfGasUsed <$> SpecCallTracer.ctCallstack (tracer l2) !! 0%nat) ->
  effects ev l1 = effects (withReportedGas g ev) l2.
Proof.
  intros (Hacc & Henv & _ & Hcs & _) Hused.
  assert (Htop : forall n,
            stripGas <$> SpecCallTracer.ctCallstack (tracer l1) !! n
            = stripGas <$> SpecCallTracer.ctCallstack (tracer l2) !! n).
  { intros n. rewrite <- !list_lookup_fmap. exact (f_equal (.!! n) Hcs). }
  destruct ev; simpl; try reflexivity.
  - (* TxEnd *)
    specialize (Hused _ eq_refl). specialize (Htop 0%nat).
    destruct (SpecCallTracer.ctCallstack (tracer l1) !! 0%nat) as [f1|],
             (SpecCallTracer.ctCallstack (tracer l2) !! 0%nat) as [f2|];
      try discriminate Htop; [|done].
    simpl in Htop, Hused. injection Htop as Htop. injection Hused as Hused.
    destruct (stripGas_fields _ _ Htop) as (-> & -> & _). by rewrite Hused.
  - (* End_ *)
    specialize (Htop 0%nat).
    destruct (SpecCallTracer.ctCallstack (tracer l1) !! 0%nat) as [f1|],
             (SpecCallTracer.ctCallstack (tracer l2) !! 0%nat) as [f2|];
      try discriminate Htop; [|done].
    simpl in Htop. injection Htop as Htop.
    rewrite (frameOps_stripGas f1 f2 _ Htop).
    destruct (stripGas_fields _ _ Htop) as (-> & _ & -> & _).
    by rewrite Henv.
  - (* Exit *)
    pose proof (f_equal last Hcs) as Hlast.
    rewrite !last_map_stripGas in Hlast.
    destruct (last (SpecCallTracer.ctCallstack (tracer l1))) as [top1|],
             (last (SpecCallTracer.ctCallstack (tracer l2))) as [top2|];
      try discriminate Hlast; [|done].
    simpl in Hlast. injection Hlast as Hlast.
    destruct (stripGas_fields _ _ Hlast) as (_ & _ & _ & _ & _ & Hcalls).
    apply (f_equal last) in Hcalls. rewrite !last_map_stripGas in Hcalls.
    destruct (last (cfCalls top1)) as [f1|], (last (cfCalls top2)) as [f2|];
      try discriminate Hcalls; [|done].
    simpl in Hcalls. injection Hcalls as Hf.
    rewrite (frameOps_stripGas f1 f2 _ Hf).
    destruct (stripGas_fields _ _ Hf) as (-> & _ & -> & -> & _).
    by rewrite Henv.
  - (* Host *) by rewrite Henv.
Qed.

Lemma handle_any_reported_gas ev g l1 l2 :
  sameDiffs l1 l2 ->
  match handle ev l1, handle (withReportedGas g ev) l2 with
  | Some (_, l1'), Some (_, l2') => sameDiffs l1' l2'
  | None, None => True
  | _, _ => False
  end.
Proof.
  intros Hsim. pose proof Hsim as (Hacc & Henv & Hgl & Hfr).
  rewrite !handle_effects. unfold factored.
  pose proof (sameFrames_innerStep ev g _ _ Hfr) as Hstep.
  destruct (innerStep ev (tracer l1)) as [t1|],
           (innerStep (withReportedGas g ev) (tracer l2)) as [t2|];
    try done.
  destruct Hstep as [Hfr' Hused].
  assert (Hsim' : sameDiffs (withTracer l1 t1) (withTracer l2 t2)).
  { unfold sameDiffs. simpl. auto. }
  rewrite (sameFrames_effects ev g _ _ Hsim' Hused).
  destruct (effects (withReportedGas g ev) (withTracer l2 t2)) as [ops|];
    [|done].
  assert (E : withTracer l2 t2 = withTracer l1 t2).
  { unfold withTracer. by rewrite Hacc, Henv, Hgl. }
  rewrite E, !runOps_withTracer.
  destruct (runOps ops l1) as [[[] l']|]; simpl; [|done].
  unfold sameDiffs. simpl. auto.
Qed.

Lemma run_any_reported_gas (evs evs' : list event) l1 l2 :
  Forall2 (fun ev ev' => exists g, ev' = withReportedGas g ev) evs evs' ->
  sameDiffs l1 l2 ->
  match run evs l1, run evs' l2 with
  | Some (_, l1'), Some (_, l2') => sameDiffs l1' l2'
  | None, None => True
  | _, _ => False
  end.
Proof.
  intros Hevs. revert l1 l2.
  induction Hevs as [|ev ev' evs evs' [g ->] _ IH]; intros l1 l2 Hsim; simpl.
  - exact Hsim.
  - unfold bind.
    pose proof (handle_any_reported_gas ev g l1 l2 Hsim) as Hstep.
    destruct (handle ev l1) as [[[] l1']|],
             (handle (withReportedGas g ev) l2) as [[[] l2']|]; try done.
    by apply IH.
Qed.

End GasIndependence.

Lemma handle_noBalanceEvent {T : Type} `{CallTracer T}
    (ev : event) (l l' : StateDiffTracer T) (a : Address) :
  noBalanceEvent ev ->
  handle ev l = Some (tt, l') ->
  balanceOf l' a = balanceOf l a.
Proof.
  intros Hev Hl'.
  destruct (handle_balanceOf ev l l' a Hl') as (t & ops & _ & Hops & ->).
  destruct ev; simpl in Hev, Hops; try done.
  - injection Hops as <-. simpl. lia.
  - injection Hops as <-. destruct create; simpl; lia.
  - injection Hops as <-. case_decide; simpl; lia.
  - injection Hops as <-. simpl. lia.
  - repeat (case_match; simplify_eq/=; try done); lia.
  - injection Hops as <-. case_match; simpl; lia.
Qed.

(** ** Gas is charged once, at transaction end *)

(** C2.  [CaptureTxEnd] adds to the balance delta of the caller the negated
    gas used of the outermost frame, which the call tracer has just set to
    the gas limit minus the rest, and changes no other balance delta.
    [CaptureEnd] and [CaptureExit] change balance deltas by the value that
    the frame transfers (and, for a self-destruct, by the balance of the
    contract) and by nothing else; the other handlers change no balance
    delta.  With the call tracer of the spec, the diff store after a whole
    run of events is the same whatever gas the frames report in
    [CaptureEnd] and [CaptureExit]. *)
Theorem gas_charged_once_at_TxEnd :
  (forall (T : Type) (H : CallTracer T) (l : StateDiffTracer T) (restGas : Z)
          (t : T) (f : callFrame),
     ct_CaptureTxEnd restGas (tracer l) = Some t ->
     callstack t !! 0%nat = Some f ->
     wf l ->
     exists l',
       CaptureTxEnd restGas l = Some (tt, l') /\
       forall a,
         balanceOf l' a =
         balanceOf l a
         + (if decide (cfFrom f = a)
            then neg_int64 (int64_of_uint64 (cfGasUsed f)) else 0)) /\
  (forall (t t' : SpecCallTracer.callTracer) (restGas : Z),
     SpecCallTracer.TxEnd restGas t = Some t' ->
     exists f,
       SpecCallTracer.ctCallstack t' !! 0%nat = Some f /\
       cfGasUsed f = sub_uint64 (SpecCallTracer.ctGasLimit t) restGas /\
       (0 <= restGas <= SpecCallTracer.ctGasLimit t ->
        SpecCallTracer.ctGasLimit t < 2 ^ 63 ->
        neg_int64 (int64_of_uint64 (cfGasUsed f))
        = - (SpecCallTracer.ctGasLimit t - restGas))) /\
  (forall (T : Type) (H : CallTracer T) (l l' : StateDiffTracer T)
          (output : option (list byte)) (gasUsed : Z) (err : error)
          (t : T) (f : callFrame) (a : Address),
     ct_CaptureEnd output gasUsed err (tracer l) = Some t ->
     callstack t !! 0%nat = Some f ->
     CaptureEnd output gasUsed err l = Some (tt, l') ->
     balanceOf l' a =
     balanceOf l a
     + (if decide (cfType f = CREATE \/ cfType f = CREATE2 \/ cfType f = CALL)
        then valueMoved f a else 0)) /\
  (forall (T : Type) (H : CallTracer T) (l l' : StateDiffTracer T)
          (output : option (list byte)) (gasUsed : Z) (err : error)
          (t : T) (top f : callFrame) (a : Address),
     ct_CaptureExit output gasUsed err (tracer l) = Some t ->
     last (callstack t) = Some top ->
     last (cfCalls top) = Some f ->
     CaptureExit output gasUsed err l = Some (tt, l') ->
     balanceOf l' a =
     balanceOf l a
     + (if decide (cfType f = CREATE \/ cfType f = CREATE2 \/ cfType f = CALL)
        then valueMoved f a
        else if decide (cfType f = SELFDESTRUCT) then
          match cfTo f, env l with
          | Some contract, Some e =>
              if decide (contract = a)
              then - GetBalance (evmStateDB e) contract else 0
          | _, _ => 0
          end
        else 0)) /\
  (forall (T : Type) (H : CallTracer T) (ev : event)
          (l l' : StateDiffTracer T) (a : Address),
     noBalanceEvent ev ->
     handle ev l = Some (tt, l') ->
     balanceOf l' a = balanceOf l a) /\
  (forall (evs evs' : list event)
          (l : StateDiffTracer SpecCallTracer.callTracer),
     Forall2 (fun ev ev' => exists g, ev' = withReportedGas g ev) evs evs' ->
     accounts <$> exec (run evs) l = accounts <$> exec (run evs') l).
Proof.
  split; [|split; [|split; [|split; [|split]]]].
  - intros T H l restGas t f. apply CaptureTxEnd_balance.
  - intros t t' restGas Ht.
    destruct (TxEnd_gasUsed _ _ _ Ht) as (f & Hf & Hused).
    exists f. split; [exact Hf|]. split; [exact Hused|].
    intros Hr Hg. rewrite Hused. by apply neg_int64_of_gas.
  - intros T H l l' output gasUsed err t f a. apply CaptureEnd_balance.
  - intros T H l l' output gasUsed err t top f a. apply CaptureExit_balance.
  - intros T H ev l l' a. apply handle_noBalanceEvent.
  - intros evs evs' l Hevs.
    assert (Hsame : sameDiffs l l) by (unfold sameDiffs, sameFrames; auto).
    pose proof (run_any_reported_gas evs evs' l l Hevs Hsame) as Hrun.
    unfold exec.
    destruct (run evs l) as [[[] l1]|], (run evs' l) as [[[] l2]|];
      try done.
    destruct Hrun as (Hacc & _). simpl. by rewrite Hacc.
Qed.

Lemma gas_charged_once_at_TxEnd_witness :
  exists l',
    CaptureTxEnd 0 (Sample.callFrom CALL) = Some (tt, l') /\
    balanceOf l' Sample.sender = - 21000.
Proof.
  destruct (proj1 gas_charged_once_at_TxEnd _ _ (Sample.callFrom CALL) 0
              (SpecCallTracer.mkCallTracer
                 [mkCallFrame CALL Sample.sender 21000 (Some Sample.contract)
                    None [] None] 21000)
              (mkCallFrame CALL Sample.sender 21000 (Some Sample.contract)
                 None [] None))
    as (l' & Hl' & Hbal).
  - reflexivity.
  - reflexivity.
  - apply map_Forall_empty.
  - exists l'. split; [exact Hl'|]. rewrite Hbal. reflexivity.
Defined.

(** The first revision charged the gas of the outermost frame in
    [CaptureEnd] and once more in [CaptureTxEnd]: a plain call that uses all
    of its 21000 gas costs the sender 42000. *)
Lemma Rev0_gas_charged_twice :
  (exec (Rev0.CaptureEnd None 21000 None ;; Rev0.CaptureTxEnd 0)
        (Sample.callFrom CALL) ≫= fun l' =>
   accounts l' !! Sample.sender ≫= balanceDelta)
  = Some (- 42000).
Proof. vm_compute. reflexivity. Qed.

(** ** Nonce deltas *)

Section NonceFacts.
Context {T : Type} `{CallTracer T}.
Implicit Types (l : StateDiffTracer T) (a addr : Address).

Lemma applyOp_tracer o l l' : applyOp o l = Some (tt, l') -> tracer l' = tracer l.
Proof.
  intros Ho. generalize (applyOp_withTracer o l (tracer l)).
  rewrite withTracer_same, Ho. simpl. intros [= E].
  rewrite E at 1. reflexivity.
Qed.

Lemma runOps_tracer ops l l' : runOps ops l = Some (tt, l') -> tracer l' = tracer l.
Proof.
  revert l. induction ops as [|o ops IH]; intros l Hrun; simpl in Hrun.
  - by injection Hrun as <-.
  - apply bind_Some in Hrun as ([] & l1 & Ho & Hrest).
    rewrite (IH _ Hrest). eapply applyOp_tracer; eassumption.
Qed.

Lemma runOps_nonceOf ops l l' a :
  runOps ops l = Some (tt, l') ->
  nonceOf l' a = Nat.iter (recordedNonce a ops) int_incr (nonceOf l a).
Proof.
  revert l. induction ops as [|o ops IH]; intros l Hrun; simpl in Hrun.
  - by injection Hrun as <-.
  - apply bind_Some in Hrun as ([] & l1 & Ho & Hrest).
    rewrite (IH _ Hrest), (applyOp_nonceOf _ _ _ a Ho).
    destruct o; simpl; try reflexivity.
    case_decide; simpl; [|reflexivity].
    rewrite <- Nat.iter_succ_r. reflexivity.
Qed.



End NonceFacts.

(** *** A whole transaction over the call tracer of the spec *)

Section WholeTransaction.

Implicit Types (l : StateDiffTracer SpecCallTracer.callTracer).




Lemma run_app {T : Type} `{CallTracer T} (evs1 evs2 : list event)
    (l : StateDiffTracer T) :
  run (evs1 ++ evs2) l = bind (run evs1) (fun _ => run evs2) l.
Proof.
  revert l. induction evs1 as [|ev evs1 IH]; intros l; simpl.
  - reflexivity.
  - unfold bind. destruct (handle ev l) as [[[] l1]|]; [|reflexivity].
    apply IH.
Qed.




End WholeTransaction.




(** ** The storage-write opcode *)

(** C9.  On [SSTORE] with fewer than two words on the stack,
    [CaptureState] returns without a panic and leaves the tracer as it is;
    with two or more it records, for the address of the executing
    contract, the top word as the key and the word below it as the value.
    Another opcode changes nothing. *)
Theorem CaptureState_SSTORE_guarded
    {T : Type} (l : StateDiffTracer T) (pc : Z) (op : OpCode) (gas cost : Z)
    (scope : ScopeContext) (rData : option (list byte)) (depth : Z)
    (err : option string) :
  (op = SSTORE -> (length (scopeStack scope) < 2)%nat ->
   CaptureState pc op gas cost scope rData depth err l = Some (tt, l)) /\
  (forall below v k,
     op = SSTORE -> scopeStack scope = below ++ [v; k] ->
     CaptureState pc op gas cost scope rData depth err l
     = recordStorage (contractAddress (scopeContract scope))
         (Bytes32 k) (Bytes32 v) l) /\
  (op <> SSTORE ->
   CaptureState pc op gas cost scope rData depth err l = Some (tt, l)).
Proof.
  unfold CaptureState. split; [|split].
  - intros -> Hlen. rewrite decide_True by done.
    rewrite decide_False by lia. reflexivity.
  - intros below v k -> Hstack. rewrite decide_True by done.
    rewrite Hstack, length_app. simpl.
    rewrite decide_True by lia.
    replace (length below + 2 - 2)%nat with (length below + 0)%nat by lia.
    replace (length below + 2 - 1)%nat with (length below + 1)%nat by lia.
    rewrite !lookup_app_r by lia.
    replace (length below + 0 - length below)%nat with 0%nat by lia.
    replace (length below + 1 - length below)%nat with 1%nat by lia.
    reflexivity.
  - intros Hop. by rewrite decide_False.
Qed.

Lemma CaptureState_SSTORE_guarded_witness :
  CaptureState 0 SSTORE 0 0 (Sample.scope [5%N]) None 1 None Sample.started
  = Some (tt, Sample.started) /\
  CaptureState 0 SSTORE 0 0 (Sample.scope [5; 1]%N) None 1 None Sample.started
  = recordStorage Sample.contract (Bytes32 1) (Bytes32 5) Sample.started.
Proof.
  split.
  - apply (proj1 (CaptureState_SSTORE_guarded Sample.started 0 SSTORE 0 0
                    (Sample.scope [5%N]) None 1 None)); [reflexivity|].
    simpl. lia.
  - apply (proj1 (proj2 (CaptureState_SSTORE_guarded Sample.started 0 SSTORE
                           0 0 (Sample.scope [5; 1]%N) None 1 None)) [] 5%N 1%N);
      reflexivity.
Defined.

(** ** Text of the report *)

Lemma strip0x_0x (s : string) : strip0x ("0x" +:+ s) = Some s.
Proof. reflexivity. Qed.

Lemma decode_byte (b : byte) :
  match unhexdigit (hexdigit (Byte.to_N b / 16)),
        unhexdigit (hexdigit (Byte.to_N b mod 16)) with
  | Some hi, Some lo => byte_of_N (16 * hi + lo) = b
  | _, _ => False
  end.
Proof. destruct b; vm_compute; reflexivity. Qed.

Lemma DecodeString_EncodeToString (bs : list byte) :
  DecodeString (EncodeToString bs) = Some bs.
Proof.
  induction bs as [|b bs IH]; [reflexivity|].
  cbn [EncodeToString DecodeString]. rewrite IH.
  pose proof (decode_byte b) as Hb.
  destruct (unhexdigit (hexdigit (Byte.to_N b / 16))) as [hi|]; [|done].
  destruct (unhexdigit (hexdigit (Byte.to_N b mod 16))) as [lo|]; [|done].
  by rewrite Hb.
Qed.

Lemma EncodeToString_inj (bs1 bs2 : list byte) :
  EncodeToString bs1 = EncodeToString bs2 -> bs1 = bs2.
Proof.
  intros E. apply (f_equal DecodeString) in E.
  rewrite !DecodeString_EncodeToString in E. by injection E.
Qed.

Lemma Hash_Hex_inj (h1 h2 : Hash) : Hash_Hex h1 = Hash_Hex h2 -> h1 = h2.
Proof.
  unfold Hash_Hex. intros E. apply EncodeToString_inj.
  apply (f_equal strip0x) in E. rewrite !strip0x_0x in E. by injection E.
Qed.

Lemma string_of_bytes_of_string (s : string) :
  string_of_bytes (bytes_of_string s) = s.
Proof.
  unfold string_of_bytes, bytes_of_string.
  rewrite List.map_map.
  rewrite (List.map_ext _ (fun x => x)) by apply ascii_of_byte_of_ascii.
  rewrite List.map_id. apply string_of_list_ascii_of_string.
Qed.

Lemma parseBalance_fmt (z : Z) :
  parseBalance ("0x" +:+ fmt_x_string (Text16 z)) = Some z.
Proof.
  unfold parseBalance, fmt_x_string, Text16. rewrite strip0x_0x.
  rewrite DecodeString_EncodeToString, string_of_bytes_of_string.
  rewrite NilEmpty.isi. simpl. by rewrite HexadecimalZ.of_to.
Qed.

Lemma reportStorage_lookup (a : accountDiff) (s : string) (ft : string * string) :
  reportStorage a !! s = Some ft <->
  exists k v, storage a !! k = Some v /\ s = Hash_Hex k /\
              before v <> after v /\
              ft = (Hash_Hex (before v), Hash_Hex (after v)).
Proof.
  unfold reportStorage.
  apply (map_fold_weak_ind
    (fun (res : gmap string (string * string)) (m : gmap Hash (diff Hash)) =>
       res !! s = Some ft <->
       exists k v, m !! k = Some v /\ s = Hash_Hex k /\
                   before v <> after v /\
                   ft = (Hash_Hex (before v), Hash_Hex (after v)))).
  - rewrite lookup_empty. split; [done|].
    intros (k & v & Hk & _). by rewrite lookup_empty in Hk.
  - intros k v m res Hfresh IH. simpl.
    assert (Hne : Hash_Hex (before v) <> Hash_Hex (after v)
                  <-> before v <> after v).
    { split; intros Hd E; apply Hd; [by rewrite E | by apply Hash_Hex_inj]. }
    split.
    + intros Hres. case_decide as Hch.
      * destruct (decide (Hash_Hex k = s)) as [<-|Hks].
        -- rewrite lookup_insert_eq in Hres. injection Hres as <-.
           exists k, v. rewrite lookup_insert_eq. by rewrite <- Hne.
        -- rewrite lookup_insert_ne in Hres by done.
           apply IH in Hres as (k' & v' & Hk' & -> & Hd & ->).
           exists k', v'. rewrite lookup_insert_ne by congruence. done.
      * apply IH in Hres as (k' & v' & Hk' & -> & Hd & ->).
        exists k', v'. rewrite lookup_insert_ne by congruence. done.
    + intros (k' & v' & Hk' & -> & Hd & ->).
      destruct (decide (k = k')) as [<-|Hkk].
      * rewrite lookup_insert_eq in Hk'. injection Hk' as <-.
        rewrite decide_True by by apply Hne.
        by rewrite lookup_insert_eq.
      * rewrite lookup_insert_ne in Hk' by done.
        assert (Hin : res !! Hash_Hex k' =
                      Some (Hash_Hex (before v'), Hash_Hex (after v'))).
        { apply IH. eauto 10. }
        case_decide; [|done].
        rewrite lookup_insert_ne; [done|].
        intros E. by apply Hash_Hex_inj in E.
Qed.

Lemma sub_uint64_mod (a b : Z) :
  sub_uint64 a (uint64_of_int b) = (a - b) mod 2 ^ 64.
Proof.
  unfold sub_uint64, uint64_of_int, wrap_uint64.
  apply Zminus_mod_idemp_r.
Qed.

Lemma parseNonce_fmt (n : Z) :
  0 <= n -> parseNonce ("0x" +:+ fmt_x_uint64 n) = Some n.
Proof.
  intros Hn. unfold parseNonce, fmt_x_uint64. rewrite strip0x_0x.
  rewrite NilEmpty.usu. simpl.
  rewrite HexadecimalN.Unsigned.of_to. by rewrite Z2N.id.
Qed.

Lemma report_eq {T : Type} (l : StateDiffTracer T) (addr : Address)
    (a : accountDiff) (e : EVM) :
  env l = Some e ->
  exists bal non,
    reportBalance addr a l = Some (bal, l) /\
    reportNonce addr a l = Some (non, l) /\
    report addr a l
    = Some (mkReport bal non (reportCode a) (reportStorage a), l).
Proof.
  intros He.
  assert (Hb : exists bal, reportBalance addr a l = Some (bal, l)).
  { unfold reportBalance. destruct (balanceDelta a) as [d|]; [|by eexists].
    case_decide; [|by eexists].
    unfold stateDB, bind, get, deref, ret. rewrite He. by eexists. }
  assert (Hn : exists non, reportNonce addr a l = Some (non, l)).
  { unfold reportNonce. case_decide; [|by eexists].
    unfold stateDB, bind, get, deref, ret. rewrite He. by eexists. }
  destruct Hb as [bal Hb], Hn as [non Hn]. exists bal, non.
  split; [done|]. split; [done|].
  unfold report, bind. by rewrite Hb, Hn.
Qed.

(** ** The nonce of the report *)

(** C10.  For a non-zero nonce delta the report gives, as [from], the
    current nonce minus the delta in unsigned 64-bit arithmetic: the
    difference modulo [2 ^ 64], which is the difference plus [2 ^ 64] when
    the delta exceeds the current nonce. *)
Theorem report_nonce_from_wraps
    {T : Type} (l : StateDiffTracer T) (addr : Address) (a : accountDiff)
    (e : EVM) :
  env l = Some e ->
  nonceDelta a <> 0 ->
  let current := GetNonce (evmStateDB e) addr in
  exists r fromS toS,
    report addr a l = Some (r, l) /\
    Nonce r = Changed fromS toS /\
    fromS = "0x" +:+ fmt_x_uint64 ((current - nonceDelta a) mod 2 ^ 64) /\
    toS = "0x" +:+ fmt_x_uint64 current /\
    parseNonce fromS = Some ((current - nonceDelta a) mod 2 ^ 64) /\
    (current < nonceDelta a <= current + 2 ^ 64 ->
     parseNonce fromS = Some (current - nonceDelta a + 2 ^ 64)).
Proof.
  intros He Hnd current.
  destruct (report_eq l addr a e He) as (bal & non & _ & Hnon & Hrep).
  unfold reportNonce in Hnon. rewrite decide_True in Hnon by done.
  unfold stateDB, bind, get, deref, ret in Hnon. rewrite He in Hnon.
  injection Hnon as <-. rewrite sub_uint64_mod in Hrep.
  fold current in Hrep.
  eexists _, _, _. split; [exact Hrep|].
  split; [reflexivity|]. split; [reflexivity|]. split; [reflexivity|].
  assert (Hpos : 0 <= (current - nonceDelta a) mod 2 ^ 64).
  { apply Z.mod_pos_bound. lia. }
  split.
  - apply (parseNonce_fmt _ Hpos).
  - intros Hlt. rewrite (parseNonce_fmt _ Hpos). f_equal.
    rewrite <- (Z_mod_plus_full (current - nonceDelta a) 1 (2 ^ 64)).
    apply Z.mod_small. lia.
Qed.

Lemma report_nonce_from_wraps_witness :
  exists r,
    report Sample.sender (mkAccountDiff (Some 0) 1 ∅ (mkDiff None None))
      Sample.started = Some (r, Sample.started) /\
    Nonce r = Changed "0xffffffffffffffff" "0x0".
Proof.
  destruct (report_nonce_from_wraps Sample.started Sample.sender
              (mkAccountDiff (Some 0) 1 ∅ (mkDiff None None)) Sample.evm)
    as (r & fromS & toS & Hrep & Hnon & -> & -> & _).
  - reflexivity.
  - simpl. lia.
  - exists r. split; [exact Hrep|]. rewrite Hnon. vm_compute. reflexivity.
Defined.

(** ** The storage of the report *)

Lemma report_Storage {T : Type} (l l' : StateDiffTracer T) (addr : Address)
    (a : accountDiff) (r : accountReport) :
  report addr a l = Some (r, l') -> Storage r = reportStorage a.
Proof.
  unfold report. intros Hr.
  apply bind_Some in Hr as (bal & l1 & _ & Hr).
  apply bind_Some in Hr as (non & l2 & _ & Hr).
  by injection Hr as <- _.
Qed.

(** C6.  A key of the storage map of an entry is in the storage of the
    report exactly when its [before] differs from its [after], then with
    both rendered; the report has no other key. *)
Theorem report_storage_changed_keys_only
    {T : Type} (l l' : StateDiffTracer T) (addr : Address) (a : accountDiff)
    (r : accountReport) :
  report addr a l = Some (r, l') ->
  (forall k v, storage a !! k = Some v ->
     (is_Some (Storage r !! Hash_Hex k) <-> before v <> after v)) /\
  (forall k v, storage a !! k = Some v -> before v <> after v ->
     Storage r !! Hash_Hex k
     = Some (Hash_Hex (before v), Hash_Hex (after v))) /\
  (forall s, is_Some (Storage r !! s) ->
     exists k v, storage a !! k = Some v /\ s = Hash_Hex k /\
                 before v <> after v).
Proof.
  intros Hr. rewrite (report_Storage _ _ _ _ _ Hr). split; [|split].
  - intros k v Hk. split.
    + intros [ft Hft].
      apply reportStorage_lookup in Hft as (k' & v' & Hk' & E & Hd & _).
      apply Hash_Hex_inj in E as <-. by simplify_eq.
    + intros Hd. eexists. apply reportStorage_lookup. eauto 10.
  - intros k v Hk Hd. apply reportStorage_lookup. eauto 10.
  - intros s [ft Hft].
    apply reportStorage_lookup in Hft as (k & v & Hk & E & Hd & _). eauto.
Qed.

Lemma report_storage_changed_keys_only_witness :
  exists r,
    report Sample.contract Sample.twoSlots Sample.started
      = Some (r, Sample.started) /\
    is_Some (Storage r !! Hash_Hex (Sample.hash 1)) /\
    ~ is_Some (Storage r !! Hash_Hex (Sample.hash 2)).
Proof.
  destruct (report_eq Sample.started Sample.contract Sample.twoSlots
              Sample.evm eq_refl) as (bal & non & _ & _ & Hr).
  eexists. split; [exact Hr|].
  destruct (report_storage_changed_keys_only _ _ _ _ _ Hr) as (Hiff & _ & _).
  split.
  - apply (Hiff (Sample.hash 1) (mkDiff zeroHash (Sample.hash 5))).
    + vm_compute. reflexivity.
    + vm_compute. discriminate.
  - intros Hin.
    apply (Hiff (Sample.hash 2) (mkDiff (Sample.hash 7) (Sample.hash 7)))
      in Hin.
    + by apply Hin.
    + vm_compute. reflexivity.
Defined.

(** ** The balance of the report *)




(** ** Text of the numeric and code fields *)

(** The nonce is rendered as [0x] and its hexadecimal digits. *)
Lemma reportNonce_text {T : Type} (l : StateDiffTracer T) (addr : Address)
    (a : accountDiff) (e : EVM) :
  env l = Some e -> nonceDelta a <> 0 ->
  reportNonce addr a l
  = Some (Changed
            ("0x" +:+ fmt_x_uint64
                        (sub_uint64 (GetNonce (evmStateDB e) addr)
                           (uint64_of_int (nonceDelta a))))
            ("0x" +:+ fmt_x_uint64 (GetNonce (evmStateDB e) addr)), l).
Proof.
  intros He Hnd. unfold reportNonce. rewrite decide_True by done.
  unfold stateDB, bind, get, deref, ret. by rewrite He.
Qed.

(** The code is rendered in lowercase hexadecimal digits, two for each
    byte, without a prefix. *)
Lemma EncodeToString_lowercase (bs : list byte) :
  Forall (fun c => is_Some (unhexdigit c))
    (list_ascii_of_string (EncodeToString bs)) /\
  String.length (EncodeToString bs) = (2 * length bs)%nat.
Proof.
  induction bs as [|b bs [IH1 IH2]]; [split; [constructor | reflexivity]|].
  cbn [EncodeToString list_ascii_of_string String.length length].
  split; [|lia].
  pose proof (decode_byte b) as Hb.
  destruct (unhexdigit (hexdigit (Byte.to_N b / 16))) as [hi|] eqn:E1;
    [|done].
  destruct (unhexdigit (hexdigit (Byte.to_N b mod 16))) as [lo|] eqn:E2;
    [|done].
  repeat constructor; [by rewrite E1 | by rewrite E2 | exact IH1].
Qed.

Lemma Text16_not_empty (z : Z) : Text16 z <> ""%string.
Proof.
  unfold Text16. intros E.
  pose proof (NilEmpty.isi (Z.to_hex_int z)) as Hisi. rewrite E in Hisi.
  simpl in Hisi. injection Hisi as Hz.
  pose proof (HexadecimalZ.of_to z) as Hof. rewrite <- Hz in Hof.
  simpl in Hof. subst z. discriminate Hz.
Qed.

(** For no balance is the rendered text [0x] followed by the hexadecimal
    digits of the balance: it is twice as long. *)
Lemma balance_text_never_plain (z : Z) :
  "0x" +:+ fmt_x_string (Text16 z) <> "0x" +:+ Text16 z.
Proof.
  intros E. apply (f_equal strip0x) in E. rewrite !strip0x_0x in E.
  injection E as E. apply (f_equal String.length) in E.
  unfold fmt_x_string in E.
  rewrite (proj2 (EncodeToString_lowercase _)) in E.
  unfold bytes_of_string in E. rewrite length_map in E.
  assert (Hlen : length (list_ascii_of_string (Text16 z))
                 = String.length (Text16 z)).
  { generalize (Text16 z). intros s. induction s; simpl; congruence. }
  rewrite Hlen in E.
  pose proof (Text16_not_empty z) as Hne.
  destruct (Text16 z); [done|]. simpl in E. lia.
Qed.

(** C7.  An account whose balance went from 254 to 255: the report gives
    the hexadecimal form of the characters of [fe] and [ff], not [0xfe]
    and [0xff]. *)
Theorem report_balance_text_is_hex_of_hex :
  fst <$> report Sample.sender
            (mkAccountDiff (Some 1) 0 ∅ (mkDiff None None)) Sample.started
  = Some (mkReport (Changed "0x6665" "0x6666") Unchanged Unchanged ∅) /\
  "0x" +:+ Text16 254 = "0xfe"%string /\
  "0x" +:+ Text16 255 = "0xff"%string.
Proof. repeat split; vm_compute; reflexivity. Qed.

(** * Further properties of the diff store *)

Section StoreLaws.

Context {T : Type}.
Implicit Types (l : StateDiffTracer T) (a addr : Address).

(** X1.  Two balance changes of one account in a row are one change by the
    sum of the two amounts. *)
Theorem recordBalanceChange_adds l a (d1 d2 : Z) :
  (recordBalanceChange a d1 ;; recordBalanceChange a d2) l
  = recordBalanceChange a (d1 + d2) l.
Proof.
  unfold bind. rewrite !recordBalanceChange_eq. cbv zeta.
  destruct (balanceDelta (entryOf l a)) as [b|]; [|reflexivity].
  rewrite recordBalanceChange_eq. cbv zeta.
  rewrite entryOf_withAccount. simpl.
  by rewrite withAccount_twice, Z.add_assoc.
Qed.

Lemma applyOp_other_account o l l' a :
  applyOp o l = Some (tt, l') ->
  opAddr o <> Some a ->
  accounts l' !! a = accounts l !! a.
Proof.
  intros Ho Ha.
  destruct (applyOp_shape _ _ _ Ho) as [-> | (addr & d' & -> & Hshape)];
    [done|].
  apply lookup_insert_ne. intros <-. apply Ha.
  destruct o; simpl in *; try done.
  all: by destruct Hshape as [-> _].
Qed.

Lemma runOps_untouched (ops : list storeOp) l l' a :
  runOps ops l = Some (tt, l') ->
  Forall (fun o => opAddr o <> Some a) ops ->
  accounts l' !! a = accounts l !! a.
Proof.
  revert l. induction ops as [|o ops IH]; intros l Hrun Hall; simpl in Hrun.
  - by injection Hrun as <-.
  - apply bind_Some in Hrun as ([] & l1 & Ho & Hrest).
    apply Forall_cons in Hall as [Ho' Hall].
    rewrite (IH _ Hrest Hall). by apply (applyOp_other_account o).
Qed.

(** X2.  A run of diff-store calls leaves the entry of every account that
    no call names as it was; such an account gets no entry. *)
Theorem runOps_other_accounts (ops : list storeOp) l l' a :
  runOps ops l = Some (tt, l') ->
  Forall (fun o => opAddr o <> Some a) ops ->
  accounts l' !! a = accounts l !! a.
Proof. apply runOps_untouched. Qed.

Lemma applyOp_storage_before o l l' a d k v :
  applyOp o l = Some (tt, l') ->
  accounts l !! a = Some d -> storage d !! k = Some v ->
  exists d' v', accounts l' !! a = Some d' /\ storage d' !! k = Some v' /\
                before v' = before v.
Proof.
  intros Ho Hd Hk.
  destruct o as [a' delta|a'|a' c|a' k' v'|e]; simpl in Ho.
  - rewrite recordBalanceChange_eq in Ho. cbv zeta in Ho.
    destruct (balanceDelta (entryOf l a')); [|discriminate Ho].
    injection Ho as <-. simpl.
    destruct (decide (a' = a)) as [->|Hne];
      [|rewrite lookup_insert_ne by done; eauto].
    rewrite lookup_insert_eq. unfold entryOf. rewrite Hd. simpl. eauto.
  - rewrite recordNonceIncrese_eq in Ho. cbv zeta in Ho.
    injection Ho as <-. simpl.
    destruct (decide (a' = a)) as [->|Hne];
      [|rewrite lookup_insert_ne by done; eauto].
    rewrite lookup_insert_eq. unfold entryOf. rewrite Hd. simpl. eauto.
  - rewrite recordCode_eq in Ho.
    destruct (decide (a' = a)) as [->|Hne].
    + rewrite Hd in Ho. injection Ho as <-. simpl.
      rewrite lookup_insert_eq. simpl. eauto.
    + destruct (accounts l !! a'); [|destruct (env l); [|discriminate Ho]];
        injection Ho as <-; simpl; rewrite lookup_insert_ne by done; eauto.
  - rewrite recordStorage_eq in Ho.
    destruct (decide (a' = a)) as [->|Hne].
    + rewrite Hd in Ho. injection Ho as <-. simpl.
      rewrite lookup_insert_eq. simpl.
      destruct (decide (k' = k)) as [->|Hk'].
      * eexists _, _. split; [reflexivity|]. simpl.
        rewrite lookup_insert_eq.
        split; [reflexivity|]. by rewrite Hk.
      * eexists _, _. split; [reflexivity|]. simpl.
        rewrite lookup_insert_ne by done. eauto.
    + destruct (accounts l !! a'); [|destruct (env l); [|discriminate Ho]];
        injection Ho as <-; simpl; rewrite lookup_insert_ne by done; eauto.
  - unfold bind, get, put in Ho. injection Ho as <-. simpl. eauto.
Qed.

Lemma runOps_storage_before (ops : list storeOp) l l' a d k v :
  runOps ops l = Some (tt, l') ->
  accounts l !! a = Some d -> storage d !! k = Some v ->
  exists d' v', accounts l' !! a = Some d' /\ storage d' !! k = Some v' /\
                before v' = before v.
Proof.
  revert l d v. induction ops as [|o ops IH]; intros l d v Hrun Hd Hk;
    simpl in Hrun.
  - injection Hrun as <-. eauto.
  - apply bind_Some in Hrun as ([] & l1 & Ho & Hrest).
    destruct (applyOp_storage_before _ _ _ _ _ _ _ Ho Hd Hk)
      as (d1 & v1 & Hd1 & Hk1 & E1).
    destruct (IH _ _ _ Hrest Hd1 Hk1) as (d' & v' & Hd' & Hk' & E').
    exists d', v'. repeat split; [done..|congruence].
Qed.

(** X3.  The [before] of a storage key that has a diff never changes, through
    any run of events: later writes to the key only replace [after]. *)
Theorem run_storage_before `{CallTracer T} (evs : list event) l l' a d k v :
  run evs l = Some (tt, l') ->
  accounts l !! a = Some d -> storage d !! k = Some v ->
  exists d' v', accounts l' !! a = Some d' /\ storage d' !! k = Some v' /\
                before v' = before v.
Proof.
  revert l d v. induction evs as [|ev evs IH]; intros l d v Hrun Hd Hk;
    simpl in Hrun.
  - injection Hrun as <-. eauto.
  - apply bind_Some in Hrun as ([] & l1 & Hev & Hrest).
    apply handle_runOps in Hev as (t & ops & _ & _ & Hops).
    destruct (runOps_storage_before _ _ _ _ _ _ _ Hops Hd Hk)
      as (d1 & v1 & Hd1 & Hk1 & E1).
    destruct (IH _ _ _ Hrest Hd1 Hk1) as (d' & v' & Hd' & Hk' & E').
    exists d', v'. repeat split; [done..|congruence].
Qed.

(** X4.  Of two writes to one storage key in a row the second decides
    [after], and [before] is what the first write alone would have left:
    the two calls are the second call alone. *)
Theorem recordStorage_last_write_wins l a (k v1 v2 : Hash) :
  (recordStorage a k v1 ;; recordStorage a k v2) l = recordStorage a k v2 l.
Proof.
  unfold bind. rewrite !recordStorage_eq.
  destruct (accounts l !! a) as [d|] eqn:Hd.
  - rewrite recordStorage_eq. simpl. rewrite lookup_insert_eq. simpl.
    rewrite lookup_insert_eq. simpl.
    by rewrite withAccount_twice, insert_insert_eq.
  - destruct (env l) as [e|]; [|reflexivity].
    rewrite recordStorage_eq. simpl. rewrite lookup_insert_eq. simpl.
    rewrite lookup_singleton_eq. simpl.
    by rewrite withAccount_twice, insert_singleton_eq.
Qed.

(** X5.  Of two code recordings of one account in a row the second decides
    [after] and the first touch decides [before]: the two calls are the
    second call alone. *)
Theorem recordCode_last_write_wins l a (c1 c2 : option (list byte)) :
  (recordCode a c1 ;; recordCode a c2) l = recordCode a c2 l.
Proof.
  unfold bind. rewrite !recordCode_eq.
  destruct (accounts l !! a) as [d|] eqn:Hd.
  - rewrite recordCode_eq. simpl. rewrite lookup_insert_eq. simpl.
    by rewrite withAccount_twice.
  - destruct (env l) as [e|]; [|reflexivity].
    rewrite recordCode_eq. simpl. rewrite lookup_insert_eq. simpl.
    by rewrite withAccount_twice.
Qed.

Lemma iter_int_incr (n : nat) (x : Z) :
  - 2 ^ 63 <= x -> x + Z.of_nat n < 2 ^ 63 ->
  Nat.iter n int_incr x = x + Z.of_nat n.
Proof.
  revert x. induction n as [|n IH]; intros x Hlo Hhi.
  - simpl. lia.
  - rewrite Nat.iter_succ_r.
    assert (E : int_incr x = x + 1).
    { unfold int_incr, wrap_int64. rewrite Z.mod_small by lia. lia. }
    rewrite E, IH by lia. lia.
Qed.

(** X6.  After a run of diff-store calls the nonce delta of an account is
    its old value plus the number of increments recorded for it, as long
    as the sum stays below [2 ^ 63], the range of [int]. *)
Theorem runOps_nonce_counts (ops : list storeOp) l l' a :
  runOps ops l = Some (tt, l') ->
  - 2 ^ 63 <= nonceOf l a ->
  nonceOf l a + Z.of_nat (recordedNonce a ops) < 2 ^ 63 ->
  nonceOf l' a = nonceOf l a + Z.of_nat (recordedNonce a ops).
Proof.
  intros Hrun Hlo Hhi. rewrite (runOps_nonceOf _ _ _ a Hrun).
  by apply iter_int_incr.
Qed.

(** X7.  In a tracer that started with an empty diff store, every entry
    holds a balance delta (the pointer is never [nil]) after any run of
    events, so a balance change of any account succeeds. *)
Theorem run_balanceDelta_not_nil `{CallTracer T} (evs : list event) l0 l :
  accounts l0 = ∅ ->
  run evs l0 = Some (tt, l) ->
  (forall a d, accounts l !! a = Some d -> is_Some (balanceDelta d)) /\
  (forall a delta, exists l', recordBalanceChange a delta l = Some (tt, l')).
Proof.
  intros H0 Hrun.
  assert (Hwf : wf l).
  { apply (run_wf _ _ _ Hrun). unfold wf. rewrite H0.
    apply map_Forall_empty. }
  split.
  - intros a d Hd. exact (Hwf _ _ Hd).
  - intros a delta. by apply recordBalanceChange_wf.
Qed.

End StoreLaws.

(** * Further properties of the handlers *)

Section HandlerLaws.

Context {T : Type} `{CallTracer T}.
Implicit Types (l : StateDiffTracer T) (a addr : Address).

(** X8.  [CaptureEnter] increments the nonce delta of the caller when the
    call type is [CREATE] or [CREATE2] and leaves the diff store as it is
    for every other type; the entries of the other accounts never change,
    and it fails only where the call tracer does. *)
Theorem CaptureEnter_creation_only l (typ : OpCode) (from to : Address)
    (input : option (list byte)) (gas : Z) (value : option Z) :
  match ct_CaptureEnter typ from to input gas value (tracer l) with
  | None => CaptureEnter typ from to input gas value l = None
  | Some t =>
      exists l',
        CaptureEnter typ from to input gas value l = Some (tt, l') /\
        tracer l' = t /\ env l' = env l /\
        (forall a, a <> from -> accounts l' !! a = accounts l !! a) /\
        (typ = CREATE \/ typ = CREATE2 ->
         nonceOf l' from = int_incr (nonceOf l from) /\
         balanceOf l' from = balanceOf l from) /\
        (~ (typ = CREATE \/ typ = CREATE2) -> accounts l' = accounts l)
  end.
Proof.
  change (CaptureEnter typ from to input gas value)
    with (handle (Enter typ from to input gas value)).
  rewrite handle_effects. unfold factored. simpl.
  destruct (ct_CaptureEnter typ from to input gas value (tracer l)) as [t|];
    [|reflexivity].
  case_decide as Hty; simpl.
  - rewrite bind_unit_r, recordNonceIncrese_eq. cbv zeta.
    eexists. split; [reflexivity|]. simpl.
    split; [reflexivity|]. split; [reflexivity|]. split; [|split].
    + intros a Ha. by rewrite lookup_insert_ne.
    + intros _. rewrite nonceOf_withAccount, balanceOf_withAccount.
      rewrite !decide_True by done. simpl. done.
    + done.
  - eexists. split; [reflexivity|]. simpl. repeat split; try done.
Qed.

(** X9.  [CaptureStart] keeps the EVM it is given and increments the nonce
    delta of the sender exactly when the transaction is a creation; no
    other entry changes. *)
Theorem CaptureStart_sets_env l (e : EVM) (from to : Address) (create : bool)
    (input : option (list byte)) (gas : Z) (value : option Z) :
  match ct_CaptureStart e from to create input gas value (tracer l) with
  | None => CaptureStart e from to create input gas value l = None
  | Some t =>
      exists l',
        CaptureStart e from to create input gas value l = Some (tt, l') /\
        tracer l' = t /\ env l' = Some e /\
        (forall a, a <> from -> accounts l' !! a = accounts l !! a) /\
        nonceOf l' from
        = (if create then int_incr (nonceOf l from) else nonceOf l from) /\
        balanceOf l' from = balanceOf l from /\
        (create = false -> accounts l' = accounts l)
  end.
Proof.
  change (CaptureStart e from to create input gas value)
    with (handle (Start e from to create input gas value)).
  rewrite handle_effects. unfold factored. simpl.
  destruct (ct_CaptureStart e from to create input gas value (tracer l))
    as [t|]; [|reflexivity].
  unfold bind at 1. simpl. destruct create; simpl.
  - rewrite bind_unit_r, recordNonceIncrese_eq. cbv zeta.
    eexists. split; [reflexivity|]. simpl.
    split; [reflexivity|]. split; [reflexivity|]. split; [|split; [|split]].
    + intros a Ha. by rewrite lookup_insert_ne.
    + rewrite nonceOf_withAccount. by rewrite decide_True.
    + rewrite balanceOf_withAccount. by rewrite decide_True.
    + done.
  - eexists. split; [reflexivity|]. simpl. repeat split; try done.
Qed.

(** X10.  A completed frame whose type is none of [CREATE], [CREATE2],
    [CALL] and [SELFDESTRUCT] (a delegate call, a static call) changes
    nothing in the diff store, whatever value it carries: [CaptureExit]
    only takes over the state of the call tracer. *)
Theorem CaptureExit_ignores_other_types l (output : option (list byte))
    (gasUsed : Z) (err : error) (t : T) (top f : callFrame) :
  ct_CaptureExit output gasUsed err (tracer l) = Some t ->
  last (callstack t) = Some top ->
  last (cfCalls top) = Some f ->
  cfType f <> CREATE -> cfType f <> CREATE2 -> cfType f <> CALL ->
  cfType f <> SELFDESTRUCT ->
  CaptureExit output gasUsed err l = Some (tt, withTracer l t).
Proof.
  intros Ht Htop Hf H1 H2 H3 H4.
  change (CaptureExit output gasUsed err)
    with (handle (Exit output gasUsed err)).
  rewrite handle_effects. unfold factored. simpl. rewrite Ht. simpl.
  rewrite Htop, Hf. rewrite decide_False by tauto.
  by rewrite decide_False.
Qed.

(** X11.  On a self-destruct frame [CaptureExit] records the empty code as
    [after] of the contract, with the committed code as [before] when the
    contract had no entry, and lowers its balance delta by its committed
    balance; no other account changes. *)
Theorem CaptureExit_selfdestruct l (output : option (list byte))
    (gasUsed : Z) (err : error) (t : T) (top f : callFrame)
    (contract : Address) (e : EVM) :
  ct_CaptureExit output gasUsed err (tracer l) = Some t ->
  last (callstack t) = Some top ->
  last (cfCalls top) = Some f ->
  cfType f = SELFDESTRUCT -> cfTo f = Some contract ->
  env l = Some e -> wf l ->
  exists l' d,
    CaptureExit output gasUsed err l = Some (tt, l') /\
    accounts l' !! contract = Some d /\
    after (code d) = Some [] /\
    before (code d)
    = match accounts l !! contract with
      | Some d0 => before (code d0)
      | None => Some (default [] (GetCode (evmStateDB e) contract))
      end /\
    balanceDelta d
    = Some (balanceOf l contract - GetBalance (evmStateDB e) contract) /\
    nonceDelta d = nonceOf l contract /\
    (forall a, a <> contract -> accounts l' !! a = accounts l !! a).
Proof.
  intros Ht Htop Hf Hty Hto He Hwf.
  change (CaptureExit output gasUsed err)
    with (handle (Exit output gasUsed err)).
  rewrite handle_effects. unfold factored. simpl. rewrite Ht. simpl.
  rewrite Htop, Hf, Hty, Hto, He.
  rewrite decide_False by (intros [|[|]]; discriminate).
  rewrite decide_True by done.
  cbn [runOps applyOp]. unfold bind.
  rewrite recordCode_eq. simpl. rewrite He.
  unfold balanceOf, nonceOf, entryOf.
  destruct (accounts l !! contract) as [d0|] eqn:Hd0; simpl.
  - rewrite recordBalanceChange_eq. cbv zeta.
    rewrite entryOf_withAccount. simpl.
    destruct (Hwf _ _ Hd0) as [b Hb]. rewrite Hb. simpl.
    eexists _, _. split; [reflexivity|]. simpl.
    rewrite lookup_insert_eq. split; [reflexivity|]. simpl.
    repeat split; try done.
    intros a Ha. by rewrite lookup_insert_ne, lookup_insert_ne.
  - rewrite recordBalanceChange_eq. cbv zeta.
    rewrite entryOf_withAccount. simpl.
    eexists _, _. split; [reflexivity|]. simpl.
    rewrite lookup_insert_eq. split; [reflexivity|]. simpl.
    repeat split; try done.
    intros a Ha. by rewrite lookup_insert_ne, lookup_insert_ne.
Qed.

Lemma applyOp_code_kept o l l' a d :
  applyOp o l = Some (tt, l') ->
  (forall c, o <> RecCode a c) ->
  accounts l !! a = Some d ->
  exists d', accounts l' !! a = Some d' /\ code d' = code d.
Proof.
  intros Ho Hno Hd.
  destruct (applyOp_shape _ _ _ Ho) as [-> | (addr & d' & -> & Hshape)];
    [eauto|].
  destruct (decide (addr = a)) as [->|Hne].
  2:{ rewrite lookup_insert_ne by done. eauto. }
  rewrite lookup_insert_eq. exists d'. split; [done|].
  unfold entryOf in Hshape. rewrite Hd in Hshape. simpl in Hshape.
  destruct o as [a' delta|a'|a' c|a' k' v'|e]; try done.
  - destruct Hshape as (_ & b & _ & ->). reflexivity.
  - destruct Hshape as (_ & ->). reflexivity.
  - destruct Hshape as (-> & _). by destruct (Hno c).
  - destruct Hshape as (_ & _ & _ & -> & _). reflexivity.
Qed.

Lemma runOps_code_kept (ops : list storeOp) l l' a d :
  runOps ops l = Some (tt, l') ->
  Forall (fun o => forall c, o <> RecCode a c) ops ->
  accounts l !! a = Some d ->
  exists d', accounts l' !! a = Some d' /\ code d' = code d.
Proof.
  revert l d. induction ops as [|o ops IH]; intros l d Hrun Hall Hd;
    simpl in Hrun.
  - injection Hrun as <-. eauto.
  - apply bind_Some in Hrun as ([] & l1 & Ho & Hrest).
    apply Forall_cons in Hall as [Ho' Hall].
    destruct (applyOp_code_kept _ _ _ _ _ Ho Ho' Hd) as (d1 & Hd1 & E1).
    destruct (IH _ _ Hrest Hall Hd1) as (d' & Hd' & E').
    exists d'. split; [done | congruence].
Qed.

Lemma transferOps_no_code (f : callFrame) (ops : list storeOp) a :
  transferOps f = Some ops ->
  Forall (fun o => forall c, o <> RecCode a c) ops.
Proof.
  unfold transferOps. destruct (cfValue f); [destruct (cfTo f)|];
    intros [= <-]; repeat constructor; done.
Qed.

(** X12.  On a nested creation frame [CaptureExit] records the [Input] of
    the frame as the new code of the created account, whether or not the
    frame carries a value. *)
Theorem CaptureExit_creation_records_input l l' (output : option (list byte))
    (gasUsed : Z) (err : error) (t : T) (top f : callFrame)
    (contract : Address) :
  ct_CaptureExit output gasUsed err (tracer l) = Some t ->
  last (callstack t) = Some top ->
  last (cfCalls top) = Some f ->
  cfType f = CREATE \/ cfType f = CREATE2 ->
  cfTo f = Some contract ->
  CaptureExit output gasUsed err l = Some (tt, l') ->
  exists d,
    accounts l' !! contract = Some d /\
    after (code d) = cfInput f /\
    before (code d)
    = match accounts l !! contract, env l with
      | Some d0, _ => before (code d0)
      | None, Some e => Some (default [] (GetCode (evmStateDB e) contract))
      | None, None => None
      end.
Proof.
  intros Ht Htop Hf Hty Hto.
  change (CaptureExit output gasUsed err)
    with (handle (Exit output gasUsed err)).
  rewrite handle_effects. unfold factored. simpl. rewrite Ht. simpl.
  rewrite Htop, Hf. rewrite decide_True by tauto.
  unfold frameOps. rewrite decide_True by done. rewrite Hto.
  destruct (transferOps f) as [moveOps|] eqn:Hmove; [|discriminate].
  rewrite runOps_app. cbn [runOps applyOp]. intros Hrun.
  apply bind_Some in Hrun as ([] & l1 & Hcode & Hrest).
  rewrite bind_unit_r, recordCode_eq in Hcode. simpl in Hcode.
  assert (Hd1 : exists d1, accounts l1 !! contract = Some d1 /\
            after (code d1) = cfInput f /\
            before (code d1)
            = match accounts l !! contract, env l with
              | Some d0, _ => before (code d0)
              | None, Some e =>
                  Some (default [] (GetCode (evmStateDB e) contract))
              | None, None => None
              end).
  { destruct (accounts l !! contract) as [d0|];
      [|destruct (env l); [|discriminate Hcode]];
      injection Hcode as <-; simpl; rewrite lookup_insert_eq; eauto. }
  destruct Hd1 as (d1 & Hd1 & Ha1 & Hb1).
  destruct (runOps_code_kept _ _ _ _ _ Hrest
              (transferOps_no_code _ _ _ Hmove) Hd1) as (d & Hd & E).
  exists d. rewrite E. auto.
Qed.

(** X13.  When the outermost frame is a creation and the created account
    has no entry yet, [CaptureEnd] reads the committed code twice, as
    [before] and as [after]: the two agree, and the report gives the code
    of the created account as unchanged. *)
Theorem CaptureEnd_creation_same_code l l' (output : option (list byte))
    (gasUsed : Z) (err : error) (t : T) (f : callFrame)
    (contract : Address) :
  ct_CaptureEnd output gasUsed err (tracer l) = Some t ->
  callstack t !! 0%nat = Some f ->
  cfType f = CREATE \/ cfType f = CREATE2 ->
  cfTo f = Some contract ->
  accounts l !! contract = None ->
  CaptureEnd output gasUsed err l = Some (tt, l') ->
  exists d e,
    env l = Some e /\
    accounts l' !! contract = Some d /\
    code d = mkDiff (Some (default [] (GetCode (evmStateDB e) contract)))
               (GetCode (evmStateDB e) contract) /\
    reportCode d = Unchanged.
Proof.
  intros Ht Hf Hty Hto Hnone.
  change (CaptureEnd output gasUsed err)
    with (handle (End_ output gasUsed err)).
  rewrite handle_effects. unfold factored. simpl. rewrite Ht. simpl.
  rewrite Hf. rewrite decide_True by tauto.
  unfold frameOps. rewrite decide_True by done. rewrite Hto.
  destruct (env l) as [e|] eqn:He; [|discriminate].
  destruct (transferOps f) as [moveOps|] eqn:Hmove; [|discriminate].
  rewrite runOps_app. cbn [runOps applyOp]. intros Hrun.
  apply bind_Some in Hrun as ([] & l1 & Hcode & Hrest).
  rewrite bind_unit_r, recordCode_eq in Hcode. simpl in Hcode.
  rewrite Hnone, He in Hcode. injection Hcode as <-.
  pose proof (fun d0 => runOps_code_kept _ _ _ contract d0 Hrest
                          (transferOps_no_code _ _ _ Hmove)) as Hkept.
  edestruct Hkept as (d & Hd & E); [simpl; apply lookup_insert_eq|].
  simpl in E. exists d, e. repeat split; try done.
  unfold reportCode. rewrite E. simpl.
  destruct (GetCode (evmStateDB e) contract); simpl;
    try rewrite decide_False by (intros Hne; by apply Hne); reflexivity.
Qed.

(** X14.  With a balance delta in every entry, [CaptureTxEnd] fails exactly
    when the call tracer fails or leaves an empty call stack. *)
Theorem CaptureTxEnd_fails_iff l (restGas : Z) :
  wf l ->
  (CaptureTxEnd restGas l = None <->
   match ct_CaptureTxEnd restGas (tracer l) with
   | None => True
   | Some t => callstack t = []
   end).
Proof.
  intros Hwf.
  destruct (ct_CaptureTxEnd restGas (tracer l)) as [t|] eqn:Ht.
  - destruct (callstack t) as [|f rest] eqn:Hcs.
    + split; [done|]. intros _.
      change (CaptureTxEnd restGas) with (handle (TxEnd restGas)).
      rewrite handle_effects. unfold factored. simpl. by rewrite Ht, Hcs.
    + split; [|done]. intros Hnone. exfalso.
      destruct (CaptureTxEnd_balance l restGas t f Ht) as (l' & Hl' & _);
        [by rewrite Hcs | done |]. congruence.
  - split; [done|]. intros _.
    change (CaptureTxEnd restGas) with (handle (TxEnd restGas)).
    rewrite handle_effects. unfold factored. simpl. by rewrite Ht.
Qed.

(** X15.  [CaptureExit] fails when the last frame of the call stack has no
    nested call: the frame it is to read is not there. *)
Theorem CaptureExit_without_call_fails l (output : option (list byte))
    (gasUsed : Z) (err : error) (t : T) :
  ct_CaptureExit output gasUsed err (tracer l) = Some t ->
  (forall top, last (callstack t) = Some top -> cfCalls top = []) ->
  CaptureExit output gasUsed err l = None.
Proof.
  intros Ht Hno.
  change (CaptureExit output gasUsed err)
    with (handle (Exit output gasUsed err)).
  rewrite handle_effects. unfold factored. simpl. rewrite Ht. simpl.
  destruct (last (callstack t)) as [top|]; [|reflexivity].
  by rewrite (Hno top eq_refl).
Qed.

(** X16.  [CaptureEnd] fails on a creation frame, and on a call frame that
    carries a value, when the frame has no [To]. *)
Theorem CaptureEnd_without_To_fails l (output : option (list byte))
    (gasUsed : Z) (err : error) (t : T) (f : callFrame) :
  ct_CaptureEnd output gasUsed err (tracer l) = Some t ->
  callstack t !! 0%nat = Some f ->
  cfTo f = None ->
  cfType f = CREATE \/ cfType f = CREATE2
  \/ (cfType f = CALL /\ is_Some (cfValue f)) ->
  CaptureEnd output gasUsed err l = None.
Proof.
  intros Ht Hf Hto Hty.
  change (CaptureEnd output gasUsed err)
    with (handle (End_ output gasUsed err)).
  rewrite handle_effects. unfold factored. simpl. rewrite Ht. simpl.
  rewrite Hf. rewrite decide_True by tauto.
  unfold frameOps, transferOps. rewrite Hto.
  case_decide.
  - reflexivity.
  - destruct Hty as [?|[?|[_ [v ->]]]]; [tauto..|]. reflexivity.
Qed.

End HandlerLaws.

(** * Whole transactions over the call tracer of the spec *)


Lemma balanceOf_empty {T : Type} (l : StateDiffTracer T) a :
  accounts l = ∅ -> balanceOf l a = 0.
Proof. intros E. unfold balanceOf, entryOf. by rewrite E, lookup_empty. Qed.

Lemma nonceOf_empty {T : Type} (l : StateDiffTracer T) a :
  accounts l = ∅ -> nonceOf l a = 0.
Proof. intros E. unfold nonceOf, entryOf. by rewrite E, lookup_empty. Qed.

Lemma handle_Some_of_ops {T : Type} `{CallTracer T} (ev : event)
    (l : StateDiffTracer T) (t : T) (ops : list storeOp) :
  innerStep ev (tracer l) = Some t ->
  effects ev (withTracer l t) = Some ops ->
  handle ev l = runOps ops (withTracer l t).
Proof.
  intros Ht Hops. rewrite handle_effects. unfold factored.
  by rewrite Ht, Hops.
Qed.

Lemma runOps_balances_wf {T : Type} (l : StateDiffTracer T)
    (ops : list storeOp) :
  wf l ->
  Forall (fun o => match o with
                   | RecBalance _ _ | RecNonce _ | SetEnv _ => True
                   | _ => False
                   end) ops ->
  exists l', runOps ops l = Some (tt, l').
Proof.
  revert l. induction ops as [|o ops IH]; intros l Hwf Hall.
  - by eexists.
  - apply Forall_cons in Hall as [Ho Hall].
    assert (Hstep : exists l1, applyOp o l = Some (tt, l1)).
    { destruct o; try done; simpl.
      - by apply recordBalanceChange_wf.
      - rewrite recordNonceIncrese_eq. by eexists.
      - by eexists. }
    destruct Hstep as [l1 Hl1].
    assert (Hwf1 : wf l1).
    { apply (runOps_wf [o] l l1); [|done]. simpl.
      unfold bind. by rewrite Hl1. }
    destruct (IH l1 Hwf1 Hall) as [l' Hl'].
    exists l'. simpl. unfold bind. by rewrite Hl1.
Qed.

Section Transactions.

Implicit Types (l : StateDiffTracer SpecCallTracer.callTracer).

(** X17.  A plain call that sends value [v] from [sender] to another account
    [recipient], with gas limit [g] and rest [r], ends with a balance delta
    of [- v - (g - r)] for the sender and [v] for the recipient, a nonce
    delta of one for the sender and none for the recipient, and entries
    for no other account. *)
Theorem plain_transfer_transaction (g r v : Z) (e : EVM)
    (sender recipient : Address) (input output : option (list byte))
    (gas gasUsed : Z) (err : error) :
  sender <> recipient ->
  0 <= r <= g -> g < 2 ^ 63 ->
  exists l',
    run [TxStart g; Start e sender recipient false input gas (Some v);
         End_ output gasUsed err; TxEnd r] newStateTracer = Some (tt, l') /\
    balanceOf l' sender = - v - (g - r) /\
    balanceOf l' recipient = v /\
    nonceOf l' sender = 1 /\
    nonceOf l' recipient = 0 /\
    (forall a, a <> sender -> a <> recipient -> accounts l' !! a = None).
Proof.
  intros Hne Hr Hg.
  set (f := mkCallFrame CALL sender 0 (Some recipient) input [] (Some v)).
  set (l2 := mkTracer ∅ (Some e) 0
               (SpecCallTracer.mkCallTracer [f] g)
             : StateDiffTracer SpecCallTracer.callTracer).
  assert (H2 : run [TxStart g; Start e sender recipient false input gas
                      (Some v)] newStateTracer = Some (tt, l2))
    by reflexivity.
  assert (Hwf2 : wf l2) by apply map_Forall_empty.
  (* the end of the call *)
  assert (Hend : handle (End_ output gasUsed err) l2
                 = runOps [RecBalance sender (- v); RecBalance recipient v]
                     l2).
  { apply (handle_Some_of_ops _ l2 (tracer l2)); reflexivity. }
  destruct (runOps_balances_wf l2
              [RecBalance sender (- v); RecBalance recipient v] Hwf2)
    as [l3 H3]; [repeat constructor|].
  assert (Hwf3 : wf l3) by exact (runOps_wf _ _ _ H3 Hwf2).
  assert (Ht3 : tracer l3 = tracer l2) by exact (runOps_tracer _ _ _ H3).
  (* the end of the transaction *)
  remember (neg_int64 (int64_of_uint64 (sub_uint64 g r))) as used eqn:Eused.
  set (t4 := SpecCallTracer.mkCallTracer
               [SpecCallTracer.withGasUsed (sub_uint64 g r) f] g).
  assert (Htx : handle (TxEnd r) l3
                = runOps [RecBalance sender used; RecNonce sender]
                    (withTracer l3 t4)).
  { apply handle_Some_of_ops; [|by rewrite Eused].
    cbn [innerStep]. rewrite Ht3. reflexivity. }
  destruct (runOps_balances_wf (withTracer l3 t4)
              [RecBalance sender used; RecNonce sender] Hwf3)
    as [l4 H4]; [repeat constructor|].
  exists l4. split.
  { change [TxStart g; Start e sender recipient false input gas (Some v);
            End_ output gasUsed err; TxEnd r]
      with ([TxStart g; Start e sender recipient false input gas (Some v)]
            ++ [End_ output gasUsed err; TxEnd r]).
    rewrite run_app. unfold bind at 1. rewrite H2.
    cbn [run]. unfold bind at 1. rewrite Hend, H3.
    by rewrite bind_unit_r, Htx. }
  assert (Hused : used = - (g - r)).
  { rewrite Eused. by apply neg_int64_of_gas. }
  clear Eused.
  split; [|split; [|split; [|split]]].
  - rewrite (runOps_balanceOf _ _ _ sender H4).
    change (balanceOf (withTracer l3 t4) sender) with (balanceOf l3 sender).
    rewrite (runOps_balanceOf _ _ _ sender H3).
    rewrite (balanceOf_empty l2) by done. simpl.
    repeat case_decide; try congruence; lia.
  - rewrite (runOps_balanceOf _ _ _ recipient H4).
    change (balanceOf (withTracer l3 t4) recipient)
      with (balanceOf l3 recipient).
    rewrite (runOps_balanceOf _ _ _ recipient H3).
    rewrite (balanceOf_empty l2) by done. simpl.
    repeat case_decide; try congruence; lia.
  - rewrite (runOps_nonceOf _ _ _ sender H4).
    change (nonceOf (withTracer l3 t4) sender) with (nonceOf l3 sender).
    rewrite (runOps_nonceOf _ _ _ sender H3).
    rewrite (nonceOf_empty l2) by done. simpl.
    by rewrite decide_True.
  - rewrite (runOps_nonceOf _ _ _ recipient H4).
    change (nonceOf (withTracer l3 t4) recipient)
      with (nonceOf l3 recipient).
    rewrite (runOps_nonceOf _ _ _ recipient H3).
    rewrite (nonceOf_empty l2) by done. simpl.
    by rewrite decide_False.
  - intros a Hs Hrc.
    rewrite (runOps_untouched _ _ _ a H4).
    2:{ repeat constructor; simpl; congruence. }
    change (accounts (withTracer l3 t4)) with (accounts l3).
    rewrite (runOps_untouched _ _ _ a H3).
    2:{ repeat constructor; simpl; congruence. }
    apply lookup_empty.
Qed.

(** X18.  A nested plain call that enters and exits, with a value [v], adds
    [- v] to the balance delta of its caller and [v] to the one of its
    callee, changes no nonce delta, and leaves the call stack as deep as
    it was. *)
Theorem nested_call_moves_value l (from to : Address)
    (input output : option (list byte)) (gas gasUsed v : Z) (err : error) :
  SpecCallTracer.ctCallstack (tracer l) <> [] ->
  wf l ->
  exists l',
    run [Enter CALL from to input gas (Some v); Exit output gasUsed err] l
    = Some (tt, l') /\
    (forall a,
       balanceOf l' a
       = balanceOf l a + (if decide (from = a) then - v else 0)
         + (if decide (to = a) then v else 0)) /\
    (forall a, nonceOf l' a = nonceOf l a) /\
    length (SpecCallTracer.ctCallstack (tracer l'))
    = length (SpecCallTracer.ctCallstack (tracer l)).
Proof.
  intros Hcs Hwf.
  set (f := mkCallFrame CALL from 0 (Some to) input [] (Some v)).
  set (t1 := SpecCallTracer.mkCallTracer
               (SpecCallTracer.ctCallstack (tracer l) ++ [f])
               (SpecCallTracer.ctGasLimit (tracer l))).
  assert (H1 : handle (Enter CALL from to input gas (Some v)) l
               = Some (tt, withTracer l t1)).
  { rewrite (handle_Some_of_ops _ l t1 []); reflexivity. }
  destruct (rev (SpecCallTracer.ctCallstack (tracer l)))
    as [|parent below] eqn:Hrev.
  { apply (f_equal (@rev callFrame)) in Hrev.
    rewrite rev_involutive in Hrev. done. }
  set (t2 := SpecCallTracer.mkCallTracer
               (rev below
                ++ [SpecCallTracer.addCall
                      (SpecCallTracer.withGasUsed gasUsed f) parent])
               (SpecCallTracer.ctGasLimit (tracer l))).
  assert (Hin : innerStep (Exit output gasUsed err) t1 = Some t2).
  { cbn [innerStep]. simpl. unfold SpecCallTracer.Exit. simpl.
    rewrite rev_app_distr. simpl. by rewrite Hrev. }
  assert (H2 : handle (Exit output gasUsed err) (withTracer l t1)
               = runOps [RecBalance from (- v); RecBalance to v]
                   (withTracer l t2)).
  { rewrite (handle_Some_of_ops _ (withTracer l t1) t2
               [RecBalance from (- v); RecBalance to v]); [done|exact Hin|].
    simpl. rewrite last_snoc. simpl. rewrite last_snoc. reflexivity. }
  destruct (runOps_balances_wf (withTracer l t2)
              [RecBalance from (- v); RecBalance to v] Hwf)
    as [l' Hl']; [repeat constructor|].
  exists l'. split; [|split; [|split]].
  - cbn [run]. unfold bind at 1. rewrite H1.
    by rewrite bind_unit_r, H2.
  - intros a. rewrite (runOps_balanceOf _ _ _ a Hl').
    change (balanceOf (withTracer l t2) a) with (balanceOf l a).
    simpl. lia.
  - intros a. rewrite (runOps_nonceOf _ _ _ a Hl'). reflexivity.
  - rewrite (runOps_tracer _ _ _ Hl'). simpl.
    rewrite length_app, length_rev. simpl.
    apply (f_equal (@length callFrame)) in Hrev.
    rewrite length_rev in Hrev. simpl in Hrev. lia.
Qed.

End Transactions.

(** * Further properties of the report *)

(** X19.  The code field of the report is "unchanged" exactly when [before]
    and [after] hold the same bytes, an absent code counting as the empty
    one; otherwise it is the pair of their hexadecimal texts. *)
Theorem reportCode_unchanged_iff (a : accountDiff) :
  (reportCode a = Unchanged
   <-> default [] (before (code a)) = default [] (after (code a))) /\
  (default [] (before (code a)) <> default [] (after (code a)) ->
   reportCode a
   = Changed (EncodeToString (default [] (before (code a))))
       (EncodeToString (default [] (after (code a))))).
Proof.
  unfold reportCode.
  destruct (before (code a)) as [b|], (after (code a)) as [c|]; simpl.
  - split.
    + case_decide as Hd; split; try done.
      * intros E. destruct Hd. by rewrite E.
      * intros _. f_equal. apply EncodeToString_inj.
        destruct (decide (EncodeToString b = EncodeToString c)); tauto.
    + intros Hne. rewrite decide_True; [done|].
      intros E. by apply Hne, EncodeToString_inj.
  - change ""%string with (EncodeToString []). split.
    + case_decide as Hd; split; try done.
      * intros E. destruct Hd. by rewrite E.
      * intros _. apply EncodeToString_inj.
        destruct (decide (EncodeToString b = EncodeToString [])); tauto.
    + intros Hne. rewrite decide_True; [done|].
      intros E. by apply Hne, EncodeToString_inj.
  - change ""%string with (EncodeToString []). split.
    + case_decide as Hd; split; try done.
      * intros E. destruct Hd. by rewrite E.
      * intros _. apply EncodeToString_inj.
        destruct (decide (EncodeToString [] = EncodeToString c)); tauto.
    + intros Hne. rewrite decide_True; [done|].
      intros E. by apply Hne, EncodeToString_inj.
  - split; [done|]. by intros [].
Qed.

Section ReportLaws.

Context {T : Type}.
Implicit Types (l : StateDiffTracer T) (a : accountDiff).

Lemma report_None l addr a :
  env l = None ->
  report addr a l = None <->
  (exists d, balanceDelta a = Some d /\ d <> 0) \/ nonceDelta a <> 0.
Proof.
  intros He. unfold report, reportBalance, reportNonce, bind.
  destruct (balanceDelta a) as [d|].
  - destruct (decide (Z.sgn d <> 0)) as [Hd|Hd].
    + unfold stateDB, bind, get, deref, panic. rewrite He. simpl.
      split; [|done]. intros _. left. exists d. split; [done|]. lia.
    + assert (d = 0) as -> by lia.
      destruct (decide (nonceDelta a <> 0)) as [Hn|Hn].
      * unfold ret at 1. unfold stateDB, bind, get, deref, panic.
        rewrite He. simpl. split; [|done]. by right.
      * unfold ret. split; [done|].
        intros [(d & [= <-] & Hd')|Hn']; done.
  - destruct (decide (nonceDelta a <> 0)) as [Hn|Hn].
    + unfold ret at 1. unfold stateDB, bind, get, deref, panic.
      rewrite He. simpl. split; [|done]. by right.
    + unfold ret. split; [done|].
      intros [(d & [=] & _)|Hn']; done.
Qed.

(** X20.  [report] fails exactly when the tracer has no EVM yet and the
    balance delta or the nonce delta of the entry is not zero: only then
    does it read the state.  It never changes the tracer. *)
Theorem report_fails_iff l addr a :
  (report addr a l = None <->
   env l = None /\
   ((exists d, balanceDelta a = Some d /\ d <> 0) \/ nonceDelta a <> 0)) /\
  (forall r l', report addr a l = Some (r, l') -> l' = l).
Proof.
  destruct (env l) as [e|] eqn:He.
  - destruct (report_eq l addr a e He) as (bal & non & _ & _ & Hr).
    rewrite Hr. split.
    + split; [done|]. by intros [[=] _].
    + by intros r l' [= _ <-].
  - split.
    + rewrite (report_None l addr a He). tauto.
    + unfold report, reportBalance, reportNonce, bind.
      intros r l'.
      destruct (balanceDelta a) as [d|];
        [destruct (decide (Z.sgn d <> 0))|];
        unfold stateDB, bind, get, deref, panic, ret; rewrite ?He; simpl;
        try done;
        destruct (decide (nonceDelta a <> 0)); rewrite ?He; simpl;
        try done; by intros [= _ <-].
Qed.

(** X21.  With an EVM in place and distinct texts for distinct accounts,
    [GetResult] succeeds, leaves the tracer as it is, and its result holds
    the report of every account that has an entry, under the text of the
    account, and nothing else. *)
Theorem GetResult_reports_entries l (e : EVM)
    (Address_Hex : Address -> string) :
  (forall x y : Address, Address_Hex x = Address_Hex y -> x = y) ->
  env l = Some e ->
  exists res,
    GetResult Address_Hex l = Some (res, l) /\
    forall s r,
      res !! s = Some r <->
      exists addr d,
        accounts l !! addr = Some d /\ s = Address_Hex addr /\
        report addr d l = Some (r, l).
Proof.
  intros Hinj He. unfold GetResult, bind at 1, get.
  apply (map_fold_weak_ind
    (fun (acc : M (StateDiffTracer T) (gmap string accountReport))
         (m : gmap Address accountDiff) =>
       exists res,
         acc l = Some (res, l) /\
         forall s r,
           res !! s = Some r <->
           exists addr d,
             m !! addr = Some d /\ s = Address_Hex addr /\
             report addr d l = Some (r, l))).
  - exists ∅. split; [reflexivity|]. intros s r. rewrite lookup_empty.
    split; [done|]. intros (addr & d & Hd & _). by rewrite lookup_empty in Hd.
  - intros addr d m acc Hfresh (res & Hacc & Hres).
    destruct (report_eq l addr d e He) as (bal & non & _ & _ & Hrep).
    eexists. split.
    { unfold bind. rewrite Hacc, Hrep. reflexivity. }
    intros s r. split.
    + intros Hs. destruct (decide (Address_Hex addr = s)) as [<-|Hne].
      * rewrite lookup_insert_eq in Hs. injection Hs as <-.
        exists addr, d. by rewrite lookup_insert_eq.
      * rewrite lookup_insert_ne in Hs by done.
        apply Hres in Hs as (addr' & d' & Hd' & -> & Hr').
        exists addr', d'. rewrite lookup_insert_ne by congruence. done.
    + intros (addr' & d' & Hd' & -> & Hr').
      destruct (decide (addr = addr')) as [<-|Hne].
      * rewrite lookup_insert_eq in Hd'. injection Hd' as <-.
        rewrite lookup_insert_eq. congruence.
      * rewrite lookup_insert_ne in Hd' by done.
        rewrite lookup_insert_ne by (intros E; by apply Hinj in E).
        apply Hres. eauto.
Qed.

End ReportLaws.

Lemma balance_text_inj (z1 z2 : Z) :
  "0x" +:+ fmt_x_string (Text16 z1) = "0x" +:+ fmt_x_string (Text16 z2) ->
  z1 = z2.
Proof.
  intros E. apply (f_equal parseBalance) in E.
  rewrite !parseBalance_fmt in E. by injection E.
Qed.

(** X22.  A balance that [report] gives as changed never shows the same
    text twice: the text of a balance, the hexadecimal form of its
    hexadecimal digits, still tells balances apart, and the delta is not
    zero. *)
Theorem reportBalance_texts_differ {T : Type} (l l' : StateDiffTracer T)
    (addr : Address) (a : accountDiff) (from to : string) :
  reportBalance addr a l = Some (Changed from to, l') ->
  from <> to.
Proof.
  unfold reportBalance.
  destruct (balanceDelta a) as [delta|]; [|discriminate].
  case_decide as Hd; [|discriminate].
  unfold stateDB, bind, get, ret, deref.
  destruct (env l) as [e|]; [|discriminate]. simpl.
  intros [= <- <- <-] E. apply balance_text_inj in E.
  apply Hd. replace delta with 0 by lia. reflexivity.
Qed.

(** * The first revision of the handlers *)

Section Rev0Laws.

Context {T : Type} `{CallTracer T}.
Implicit Types (l : StateDiffTracer T).

Lemma Rev0_WrappedTransferFunc_ops l (db : StateDB)
    (sender recipient : Address) (amount : Z) :
  wf l ->
  exists l',
    Rev0.WrappedTransferFunc db sender recipient amount l
    = Some (Rev0.Transfer db sender recipient amount, l') /\
    runOps [RecBalance sender (- amount); RecBalance recipient amount] l
    = Some (tt, l').
Proof.
  intros Hwf.
  destruct (runOps_balances_wf l
              [RecBalance sender (- amount); RecBalance recipient amount]
              Hwf) as [l' Hl']; [repeat constructor|].
  exists l'. split; [|exact Hl'].
  unfold Rev0.WrappedTransferFunc. cbn [runOps applyOp] in Hl'.
  apply bind_Some in Hl' as ([] & l1 & H1 & H2).
  rewrite bind_unit_r in H2.
  unfold bind. by rewrite H1, H2.
Qed.

(** X23.  The transfer hook of the first revision records [- amount] for
    the sender and [amount] for the recipient and returns the state after
    the transfer; no nonce delta changes, and a transfer of an account to
    itself leaves its balance delta as it was. *)
Theorem WrappedTransferFunc_records_both l (db : StateDB)
    (sender recipient : Address) (amount : Z) :
  wf l ->
  exists l',
    Rev0.WrappedTransferFunc db sender recipient amount l
    = Some (Rev0.Transfer db sender recipient amount, l') /\
    (forall a,
       balanceOf l' a
       = balanceOf l a + (if decide (sender = a) then - amount else 0)
         + (if decide (recipient = a) then amount else 0)) /\
    (forall a, nonceOf l' a = nonceOf l a) /\
    (sender = recipient -> balanceOf l' sender = balanceOf l sender).
Proof.
  intros Hwf.
  destruct (Rev0_WrappedTransferFunc_ops l db sender recipient amount Hwf)
    as (l' & Hrun & Hl').
  exists l'.
  assert (Hbal : forall a,
            balanceOf l' a
            = balanceOf l a + (if decide (sender = a) then - amount else 0)
              + (if decide (recipient = a) then amount else 0)).
  { intros a. rewrite (runOps_balanceOf _ _ _ a Hl'). simpl. lia. }
  split; [exact Hrun|split; [exact Hbal|split]].
  - intros a. by rewrite (runOps_nonceOf _ _ _ a Hl').
  - intros <-. rewrite Hbal. rewrite !decide_True by done. lia.
Qed.

Lemma Rev0_CaptureEnd_ops l l' (output : option (list byte)) (gasUsed : Z)
    (err : error) (t : T) (f : callFrame) :
  ct_CaptureEnd output gasUsed err (tracer l) = Some t ->
  callstack t !! 0%nat = Some f ->
  Rev0.CaptureEnd output gasUsed err l = Some (tt, l') ->
  exists ops,
    runOps (RecBalance (cfFrom f) (- int64_of_uint64 gasUsed) :: ops)
      (withTracer l t) = Some (tt, l') /\
    Forall (fun o => match o with RecCode _ _ => True | _ => False end) ops.
Proof.
  intros Ht Hf. unfold Rev0.CaptureEnd.
  intros Hrun. apply bind_Some in Hrun as ([] & l1 & H1 & Hrun).
  rewrite onTracer_eq, Ht in H1. injection H1 as <-.
  unfold getCallstack in Hrun.
  apply bind_Some in Hrun as (cs & l2 & H2 & Hrun).
  apply bind_Some in H2 as (l0 & l3 & H3 & H2).
  injection H3 as <- <-. injection H2 as <- <-.
  simpl in Hrun. rewrite Hf in Hrun.
  apply bind_Some in Hrun as (f' & l2 & H2 & Hrun).
  injection H2 as <- <-.
  apply bind_Some in Hrun as ([] & l2 & Hbal & Hrun).
  case_decide.
  - apply bind_Some in Hrun as (contract & l3 & H3 & Hrun).
    apply deref_Some in H3 as [Hto ->].
    apply bind_Some in Hrun as (db & l4 & H4 & Hrun).
    unfold stateDB in H4.
    apply bind_Some in H4 as (l5 & l6 & H5 & H4).
    injection H5 as <- <-.
    apply bind_Some in H4 as (e & l7 & H7 & H4).
    apply deref_Some in H7 as [He ->]. injection H4 as <- <-.
    exists [RecCode contract (GetCode (evmStateDB e) contract)].
    split; [|repeat constructor].
    cbn [runOps applyOp]. unfold bind at 1. rewrite Hbal.
    by rewrite bind_unit_r.
  - injection Hrun as <-. exists []. split; [|constructor].
    cbn [runOps applyOp]. by rewrite bind_unit_r.
Qed.

Lemma recordedBalance_code_only (ops : list storeOp) a :
  Forall (fun o => match o with RecCode _ _ => True | _ => False end) ops ->
  recordedBalance a ops = 0.
Proof.
  induction 1 as [|o ops Ho _ IH]; [done|].
  destruct o; try done.
Qed.

(** X24.  In the first revision [CaptureEnd] charges the gas that the
    outermost call reports to the caller of the frame: its balance delta
    goes down by [int64(gasUsed)], and no other balance delta changes. *)
Theorem Rev0_CaptureEnd_charges_gas l l' (output : option (list byte))
    (gasUsed : Z) (err : error) (t : T) (f : callFrame) :
  ct_CaptureEnd output gasUsed err (tracer l) = Some t ->
  callstack t !! 0%nat = Some f ->
  Rev0.CaptureEnd output gasUsed err l = Some (tt, l') ->
  forall a,
    balanceOf l' a
    = balanceOf l a
      + (if decide (cfFrom f = a) then - int64_of_uint64 gasUsed else 0).
Proof.
  intros Ht Hf Hl' a.
  destruct (Rev0_CaptureEnd_ops _ _ _ _ _ _ _ Ht Hf Hl') as (ops & Hrun & Hops).
  rewrite (runOps_balanceOf _ _ _ a Hrun).
  change (balanceOf (withTracer l t) a) with (balanceOf l a).
  simpl. rewrite (recordedBalance_code_only _ _ Hops). lia.
Qed.

Lemma recordCode_env l l' a (c : option (list byte)) :
  recordCode a c l = Some (tt, l') -> env l' = env l.
Proof.
  rewrite recordCode_eq.
  destruct (accounts l !! a); [intros [= <-]; reflexivity|].
  destruct (env l) eqn:E; [intros [= <-]; simpl; congruence|done].
Qed.

Lemma Rev0_CaptureExit_ops l l' (output : option (list byte)) (gasUsed : Z)
    (err : error) (t : T) (top f : callFrame) :
  ct_CaptureExit output gasUsed err (tracer l) = Some t ->
  last (callstack t) = Some top ->
  last (cfCalls top) = Some f ->
  Rev0.CaptureExit output gasUsed err l = Some (tt, l') ->
  exists ops,
    runOps (RecBalance (cfFrom f) (- int64_of_uint64 gasUsed) :: ops)
      (withTracer l t) = Some (tt, l') /\
    forall a,
      recordedBalance a ops
      = if decide (cfType f = SELFDESTRUCT /\ cfTo f = Some a)
        then match env l with
             | Some e => - GetBalance (evmStateDB e) a
             | None => 0
             end
        else 0.
Proof.
  intros Ht Htop Hf. unfold Rev0.CaptureExit.
  intros Hrun. apply bind_Some in Hrun as ([] & l1 & H1 & Hrun).
  rewrite onTracer_eq, Ht in H1. injection H1 as <-.
  unfold getCallstack in Hrun.
  apply bind_Some in Hrun as (cs & l2 & H2 & Hrun).
  apply bind_Some in H2 as (l0 & l3 & H3 & H2).
  injection H3 as <- <-. injection H2 as <- <-.
  simpl in Hrun. rewrite Htop in Hrun.
  apply bind_Some in Hrun as (f' & l2 & H2 & Hrun).
  injection H2 as <- <-. rewrite Hf in Hrun.
  apply bind_Some in Hrun as (f' & l2 & H2 & Hrun).
  injection H2 as <- <-.
  apply bind_Some in Hrun as ([] & l2 & Hbal & Hrun).
  case_decide as Hc; [|case_decide as Hs].
  - apply bind_Some in Hrun as (contract & l3 & H3 & Hrun).
    apply deref_Some in H3 as [Hto ->].
    exists [RecCode contract (cfInput f)]. split.
    + cbn [runOps applyOp]. unfold bind at 1. rewrite Hbal.
      by rewrite bind_unit_r.
    + intros a. simpl. rewrite decide_False; [done|].
      intros [Hs _]. rewrite Hs in Hc. destruct Hc as [Hc|Hc]; discriminate Hc.
  - apply bind_Some in Hrun as (contract & l3 & H3 & Hrun).
    apply deref_Some in H3 as [Hto ->].
    apply bind_Some in Hrun as ([] & l3 & Hcode & Hrun).
    apply bind_Some in Hrun as (db & l4 & H4 & Hrun).
    unfold stateDB in H4.
    apply bind_Some in H4 as (l5 & l6 & H5 & H4).
    injection H5 as <- <-.
    apply bind_Some in H4 as (e & l7 & H7 & H4).
    apply deref_Some in H7 as [He ->]. injection H4 as <- <-.
    assert (Henv : env l = Some e).
    { rewrite <- He, (recordCode_env _ _ _ _ Hcode).
      rewrite recordBalanceChange_eq in Hbal. simpl in Hbal.
      destruct (balanceDelta (entryOf (withTracer l t) (cfFrom f)));
        [by injection Hbal as <-|done]. }
    exists [RecCode contract (Some []);
            RecBalance contract (- GetBalance (evmStateDB e) contract)].
    split.
    + cbn [runOps applyOp]. unfold bind at 1. rewrite Hbal.
      unfold bind at 1. rewrite Hcode. by rewrite bind_unit_r.
    + intros a. simpl. rewrite Henv.
      repeat case_decide; subst; try lia; try congruence;
        exfalso; intuition congruence.
  - injection Hrun as <-. exists []. split.
    + cbn [runOps applyOp]. by rewrite bind_unit_r.
    + intros a. simpl. rewrite decide_False; [done|]. by intros [? _].
Qed.

(** X25.  In the first revision [CaptureExit] charges the gas that the
    call just left reports to its caller, and a self-destruct also takes
    the balance that the state holds for the contract off its delta; no
    other balance delta changes. *)
Theorem Rev0_CaptureExit_charges_gas l l' (output : option (list byte))
    (gasUsed : Z) (err : error) (t : T) (top f : callFrame) :
  ct_CaptureExit output gasUsed err (tracer l) = Some t ->
  last (callstack t) = Some top ->
  last (cfCalls top) = Some f ->
  Rev0.CaptureExit output gasUsed err l = Some (tt, l') ->
  forall a,
    balanceOf l' a
    = balanceOf l a
      + (if decide (cfFrom f = a) then - int64_of_uint64 gasUsed else 0)
      + (if decide (cfType f = SELFDESTRUCT /\ cfTo f = Some a)
         then match env l with
              | Some e => - GetBalance (evmStateDB e) a
              | None => 0
              end
         else 0).
Proof.
  intros Ht Htop Hf Hl' a.
  destruct (Rev0_CaptureExit_ops _ _ _ _ _ _ _ _ Ht Htop Hf Hl')
    as (ops & Hrun & Hops).
  rewrite (runOps_balanceOf _ _ _ a Hrun).
  change (balanceOf (withTracer l t) a) with (balanceOf l a).
  simpl. rewrite (Hops a). lia.
Qed.

End Rev0Laws.

(** * The first accumulator *)

Lemma Transfer_balance (db : StateDB) (sender recipient : Address)
    (amount : Z) (a : Address) :
  GetBalance (Rev0.Transfer db sender recipient amount) a
  = GetBalance db a + (if decide (sender = a) then - amount else 0)
    + (if decide (recipient = a) then amount else 0).
Proof.
  unfold Rev0.Transfer. simpl. repeat case_decide; subst; try congruence; lia.
Qed.

Lemma Logger_recordBalance_Some (m : gmap Address Logger.accountDiff)
    (acc : Address) (b a : Z) :
  Logger.recordBalance acc (Some b) (Some a) (Some m)
  = Some (tt, Some (<[acc :=
      match m !! acc with
      | Some d =>
          Logger.mkAccountDiff
            (mkDiff (match before (Logger.balance d) with
                     | None => Some b
                     | Some x => Some x
                     end) (Some a))
            (Logger.storage d) (Logger.code d)
      | None =>
          Logger.mkAccountDiff (mkDiff (Some b) (Some a)) (Some ∅)
            (mkDiff None None)
      end]> m)).
Proof.
  unfold Logger.recordBalance, Logger.tryInitAddr, Logger.index,
    Logger.assign, bind, get, put, ret, deref. simpl.
  destruct (m !! acc) as [d|] eqn:E; simpl.
  - rewrite E. simpl. destruct d as [[[x|] af] st cd]; simpl; done.
  - rewrite lookup_insert_eq. simpl. by rewrite insert_insert_eq.
Qed.

(** X26.  The transfer hook of the logger needs an allocated map: on a
    logger whose [accounts] is the [nil] map, which is what the zero value
    of the struct holds, it panics, and on any other it returns. *)
Theorem Logger_WrappedTransferFunc_panics_iff (l : Logger.StateDiffLogger)
    (db : StateDB) (sender recipient : Address) (amount : Z) :
  Logger.WrappedTransferFunc db sender recipient amount l = None
  <-> Logger.accounts l = None.
Proof.
  destruct l as [[m|]]; simpl.
  - unfold Logger.WrappedTransferFunc, bind, Logger.onAccounts. simpl.
    rewrite Logger_recordBalance_Some. simpl.
    rewrite Logger_recordBalance_Some. simpl. done.
  - done.
Qed.

Lemma Logger_step (db0 db : StateDB) (m : gmap Address Logger.accountDiff)
    (sender recipient : Address) (amount : Z) :
  Logger_inv db0 db m ->
  exists m',
    Logger.WrappedTransferFunc db sender recipient amount
      (Logger.mkLogger (Some m))
    = Some (Rev0.Transfer db sender recipient amount,
            Logger.mkLogger (Some m')) /\
    Logger_inv db0 (Rev0.Transfer db sender recipient amount) m' /\
    (forall a, is_Some (m' !! a)
               <-> is_Some (m !! a) \/ a = sender \/ a = recipient).
Proof.
  intros Hinv.
  unfold Logger.WrappedTransferFunc, bind, Logger.onAccounts.
  cbn [Logger.accounts].
  rewrite Logger_recordBalance_Some. cbn [Logger.accounts].
  rewrite Logger_recordBalance_Some. eexists. split; [reflexivity|].
  remember (Rev0.Transfer db sender recipient amount) as db' eqn:Edb'.
  split.
  - intros a.
    destruct (decide (a = recipient)) as [->|Hr].
    + rewrite lookup_insert_eq.
      destruct (decide (recipient = sender)) as [->|Hs].
      * rewrite lookup_insert_eq. pose proof (Hinv sender) as Hs.
        destruct (m !! sender) as [d|]; simpl.
        -- subst d. simpl. done.
        -- by rewrite Hs.
      * rewrite lookup_insert_ne by done. pose proof (Hinv recipient) as Hr.
        destruct (m !! recipient) as [d|]; simpl.
        -- subst d. simpl. done.
        -- by rewrite Hr.
    + rewrite lookup_insert_ne by done.
      destruct (decide (a = sender)) as [->|Hs].
      * rewrite lookup_insert_eq. pose proof (Hinv sender) as Hs.
        destruct (m !! sender) as [d|]; simpl.
        -- subst d. simpl. done.
        -- by rewrite Hs.
      * rewrite lookup_insert_ne by done. pose proof (Hinv a) as Ha.
        assert (Hb : GetBalance db' a = GetBalance db a).
        { rewrite Edb', Transfer_balance.
          rewrite !decide_False by done. lia. }
        destruct (m !! a) as [d|]; simpl; rewrite Hb; done.
  - intros a.
    destruct (decide (a = recipient)) as [->|Hr].
    + rewrite lookup_insert_eq. split; [intros _; auto|intros _; eauto].
    + rewrite lookup_insert_ne by done.
      destruct (decide (a = sender)) as [->|Hs].
      * rewrite lookup_insert_eq. split; [intros _; auto|intros _; eauto].
      * rewrite lookup_insert_ne by done. tauto.
Qed.

Lemma Logger_transfers_inv (ts : list (Address * Address * Z))
    (db0 db : StateDB) (m : gmap Address Logger.accountDiff) :
  Logger_inv db0 db m ->
  exists db' m',
    Logger.transfers ts db (Logger.mkLogger (Some m))
    = Some (db', Logger.mkLogger (Some m')) /\
    db' = finalState ts db /\
    Logger_inv db0 db' m' /\
    (forall a, is_Some (m' !! a) <-> is_Some (m !! a) \/ a ∈ parties ts).
Proof.
  revert db m. induction ts as [|[[s r] v] ts IH]; intros db m Hinv.
  - exists db, m. split; [done|]. split; [done|]. split; [done|].
    intros a. simpl. rewrite elem_of_nil. tauto.
  - destruct (Logger_step db0 db m s r v Hinv) as (m1 & Hrun & Hinv1 & Hdom1).
    destruct (IH _ _ Hinv1) as (db' & m' & Hrun' & Hfin & Hinv' & Hdom').
    exists db', m'. split; [|split; [|split]].
    + cbn [Logger.transfers]. unfold bind at 1. by rewrite Hrun.
    + done.
    + done.
    + intros a. rewrite Hdom', Hdom1. unfold parties. simpl.
      rewrite !elem_of_cons. fold (parties ts). tauto.
Qed.

(** X27.  Over any sequence of transfers through the hook, from an
    allocated empty map, the logger holds an entry exactly for the accounts
    that some transfer names, and the entry of an account holds its balance
    in the state at the start as [before] and its balance in the state at
    the end as [after], with an empty storage map and no code. *)
Theorem Logger_transfers_before_after (ts : list (Address * Address * Z))
    (db : StateDB) :
  exists db' m,
    Logger.transfers ts db (Logger.mkLogger (Some ∅))
    = Some (db', Logger.mkLogger (Some m)) /\
    forall a,
      m !! a
      = if decide (a ∈ parties ts)
        then Some (Logger.mkAccountDiff
                     (mkDiff (Some (GetBalance db a))
                        (Some (GetBalance db' a)))
                     (Some ∅) (mkDiff None None))
        else None.
Proof.
  destruct (Logger_transfers_inv ts db db ∅)
    as (db' & m & Hrun & _ & Hinv & Hdom).
  { intros a. by rewrite lookup_empty. }
  exists db', m. split; [done|]. intros a.
  pose proof (Hinv a) as Ha. pose proof (Hdom a) as Hd.
  rewrite lookup_empty in Hd.
  case_decide as Hin.
  - destruct (m !! a) as [d|]; [by subst|].
    destruct Hd as [_ Hd]. destruct Hd as [? Hd]; [by right|done].
  - destruct (m !! a) as [d|]; [|done].
    destruct Hd as [Hd _]. destruct Hd as [[? Hd]|Hd]; [by eexists|done|done].
Qed.

Lemma Rev0_transfers_inv {T : Type}
    (ts : list (Address * Address * Z)) (db : StateDB)
    (l : StateDiffTracer T) :
  wf l ->
  exists l',
    Rev0_transfers ts db l = Some (finalState ts db, l') /\
    wf l' /\
    (forall a,
       balanceOf l' a
       = balanceOf l a + (GetBalance (finalState ts db) a - GetBalance db a)) /\
    (forall a, nonceOf l' a = nonceOf l a).
Proof.
  revert db l. induction ts as [|[[s r] v] ts IH]; intros db l Hwf.
  - exists l. split; [done|]. split; [done|]. split; [|done].
    intros a. simpl. lia.
  - destruct (Rev0_WrappedTransferFunc_ops (T:=T) l db s r v Hwf)
      as (l1 & Hrun & Hops).
    destruct (IH (Rev0.Transfer db s r v) l1 (runOps_wf _ _ _ Hops Hwf))
      as (l' & Hrun' & Hwf' & Hbal & Hnon).
    exists l'. split; [|split; [done|split]].
    + cbn [Rev0_transfers]. unfold bind at 1. rewrite Hrun. exact Hrun'.
    + intros a. rewrite Hbal, (runOps_balanceOf _ _ _ a Hops).
      cbn [finalState fold_left fst snd]. fold (finalState ts (Rev0.Transfer db s r v)).
      rewrite (Transfer_balance db s r v a). simpl.
      repeat case_decide; subst; try congruence; lia.
    + intros a. by rewrite Hnon, (runOps_nonceOf _ _ _ a Hops).
Qed.

(** X28.  Over any sequence of transfers through the hook of the first
    revision, the balance delta of every account moves by exactly what its
    balance in the state moves by, and no nonce delta changes. *)
Theorem Rev0_transfers_track_state {T : Type}
    (ts : list (Address * Address * Z)) (db : StateDB)
    (l : StateDiffTracer T) :
  wf l ->
  exists db' l',
    Rev0_transfers ts db l = Some (db', l') /\
    forall a,
      balanceOf l' a - balanceOf l a = GetBalance db' a - GetBalance db a /\
      nonceOf l' a = nonceOf l a.
Proof.
  intros Hwf.
  destruct (Rev0_transfers_inv ts db l Hwf) as (l' & Hrun & _ & Hbal & Hnon).
  exists (finalState ts db), l'. split; [exact Hrun|].
  intros a. split; [rewrite Hbal; lia|apply Hnon].
Qed.

(** X29.  The two accumulators agree: over the same sequence of transfers
    from the same state, the tracer of the first revision and the logger,
    both started empty, end in the same state, and the balance delta that
    the tracer holds for an account is the [after] minus the [before] of
    the logger's entry, and zero where the logger has no entry. *)
Theorem Rev0_and_Logger_agree {T : Type}
    (ts : list (Address * Address * Z)) (db : StateDB)
    (l : StateDiffTracer T) :
  accounts l = ∅ ->
  exists db' l' m,
    Rev0_transfers ts db l = Some (db', l') /\
    Logger.transfers ts db (Logger.mkLogger (Some ∅))
    = Some (db', Logger.mkLogger (Some m)) /\
    forall a,
      match m !! a with
      | Some d =>
          exists b af,
            Logger.balance d = mkDiff (Some b) (Some af) /\
            balanceOf l' a = af - b
      | None => balanceOf l' a = 0
      end.
Proof.
  intros Hempty.
  assert (Hwf : wf l) by (unfold wf; rewrite Hempty; apply map_Forall_empty).
  destruct (Rev0_transfers_inv ts db l Hwf) as (l' & Hrun & _ & Hbal & _).
  destruct (Logger_transfers_inv ts db db ∅)
    as (db' & m & HrunL & -> & Hinv & _).
  { intros a. by rewrite lookup_empty. }
  exists (finalState ts db), l', m. split; [exact Hrun|split; [exact HrunL|]].
  intros a. pose proof (Hinv a) as Ha. rewrite Hbal, (balanceOf_empty l a Hempty).
  destruct (m !! a) as [d|].
  - subst d. eexists _, _. split; [reflexivity|]. lia.
  - lia.
Qed.

(** * Instances on the sample inputs *)

Lemma runs_with {S : Type} (c : option (unit * S)) (P : S -> Prop) :
  match c with Some _ => True | None => False end ->
  (forall s, c = Some (tt, s) -> P s) ->
  exists s, c = Some (tt, s) /\ P s.
Proof. destruct c as [[[] s]|]; [eauto|done]. Qed.

Lemma More_hex_inj (x y : Address) : More.hex x = More.hex y -> x = y.
Proof.
  unfold More.hex. intros E. apply EncodeToString_inj.
  by injection E.
Qed.

Lemma runOps_other_accounts_witness :
  exists l',
    runOps Sample.twoCharges Sample.started = Some (tt, l') /\
    accounts l' !! More.other = None.
Proof.
  apply (runs_with (runOps Sample.twoCharges Sample.started)
           (fun l' => accounts l' !! More.other = None));
    [vm_compute; exact I|].
  intros l' E.
  rewrite (runOps_other_accounts Sample.twoCharges Sample.started l'
             More.other E).
  - reflexivity.
  - repeat constructor; discriminate.
Defined.

Lemma run_storage_before_witness :
  exists l',
    run Sample.twoWrites More.withSlots = Some (tt, l') /\
    exists d' v',
      accounts l' !! Sample.contract = Some d' /\
      storage d' !! Sample.hash 2 = Some v' /\
      before v' = Sample.hash 7.
Proof.
  apply (runs_with (run Sample.twoWrites More.withSlots)
           (fun l' =>
              exists d' v',
                accounts l' !! Sample.contract = Some d' /\
                storage d' !! Sample.hash 2 = Some v' /\
                before v' = Sample.hash 7));
    [vm_compute; exact I|].
  intros l' E.
  apply (run_storage_before Sample.twoWrites More.withSlots l'
           Sample.contract Sample.twoSlots (Sample.hash 2)
           (mkDiff (Sample.hash 7) (Sample.hash 7)) E); reflexivity.
Defined.

Lemma runOps_nonce_counts_witness :
  exists l',
    runOps [RecNonce Sample.sender; RecNonce Sample.sender] Sample.started
    = Some (tt, l') /\
    nonceOf l' Sample.sender = 2.
Proof.
  apply (runs_with
           (runOps [RecNonce Sample.sender; RecNonce Sample.sender]
              Sample.started)
           (fun l' => nonceOf l' Sample.sender = 2));
    [vm_compute; exact I|].
  intros l' E.
  rewrite (runOps_nonce_counts _ Sample.started l' Sample.sender E).
  - reflexivity.
  - vm_compute. discriminate.
  - vm_compute. reflexivity.
Defined.

Lemma run_balanceDelta_not_nil_witness :
  exists l,
    run Sample.creation newStateTracer = Some (tt, l) /\
    exists l', recordBalanceChange More.other 5 l = Some (tt, l').
Proof.
  apply (runs_with (run Sample.creation newStateTracer)
           (fun l =>
              exists l', recordBalanceChange More.other 5 l = Some (tt, l')));
    [vm_compute; exact I|].
  intros l E.
  apply (run_balanceDelta_not_nil Sample.creation newStateTracer l
           eq_refl E).
Defined.

Lemma CaptureExit_ignores_other_types_witness :
  CaptureExit None 700 None (More.nestedIn xf4 (Some 30))
  = Some (tt, withTracer (More.nestedIn xf4 (Some 30))
                (More.left xf4 (Some 30))).
Proof.
  apply (CaptureExit_ignores_other_types (More.nestedIn xf4 (Some 30)) None
           700 None (More.left xf4 (Some 30)) (More.parent xf4 (Some 30))
           (SpecCallTracer.withGasUsed 700 (More.child xf4 (Some 30))));
    [reflexivity|reflexivity|reflexivity|discriminate..].
Defined.

Lemma CaptureExit_selfdestruct_witness :
  exists l' d,
    CaptureExit None 700 None (More.nestedIn SELFDESTRUCT None)
    = Some (tt, l') /\
    accounts l' !! More.other = Some d /\
    code d = mkDiff (Some []) (Some []) /\
    balanceDelta d = Some (- 255).
Proof.
  destruct (CaptureExit_selfdestruct (More.nestedIn SELFDESTRUCT None) None
              700 None (More.left SELFDESTRUCT None)
              (More.parent SELFDESTRUCT None)
              (SpecCallTracer.withGasUsed 700 (More.child SELFDESTRUCT None))
              More.other Sample.evm)
    as (l' & d & Hrun & Hd & Hafter & Hbefore & Hbal & _);
    [reflexivity..|apply map_Forall_empty|].
  exists l', d. split; [exact Hrun|]. split; [exact Hd|]. split; [|exact Hbal].
  destruct d as [b n s [cb ca]]. simpl in *. by rewrite Hafter, Hbefore.
Defined.

Lemma CaptureExit_creation_records_input_witness :
  exists l',
    CaptureExit None 700 None (More.nestedIn CREATE2 None) = Some (tt, l') /\
    exists d,
      accounts l' !! More.other = Some d /\
      code d = mkDiff (Some []) (Some [x60; x00]).
Proof.
  apply (runs_with (CaptureExit None 700 None (More.nestedIn CREATE2 None))
           (fun l' =>
              exists d,
                accounts l' !! More.other = Some d /\
                code d = mkDiff (Some []) (Some [x60; x00])));
    [vm_compute; exact I|].
  intros l' E.
  destruct (CaptureExit_creation_records_input (More.nestedIn CREATE2 None)
              l' None 700 None (More.left CREATE2 None)
              (More.parent CREATE2 None)
              (SpecCallTracer.withGasUsed 700 (More.child CREATE2 None))
              More.other)
    as (d & Hd & Hafter & Hbefore);
    [reflexivity|reflexivity|reflexivity|by right|reflexivity|exact E|].
  exists d. split; [exact Hd|].
  destruct d as [b n s [cb ca]]. simpl in *. by rewrite Hafter, Hbefore.
Defined.

Lemma CaptureEnd_creation_same_code_witness :
  exists l',
    CaptureEnd None 21000 None (Sample.callFrom CREATE) = Some (tt, l') /\
    exists d,
      accounts l' !! Sample.contract = Some d /\
      code d = mkDiff (Some []) None /\
      reportCode d = Unchanged.
Proof.
  apply (runs_with (CaptureEnd None 21000 None (Sample.callFrom CREATE))
           (fun l' =>
              exists d,
                accounts l' !! Sample.contract = Some d /\
                code d = mkDiff (Some []) None /\
                reportCode d = Unchanged));
    [vm_compute; exact I|].
  intros l' E.
  destruct (CaptureEnd_creation_same_code (Sample.callFrom CREATE) l' None
              21000 None
              (SpecCallTracer.mkCallTracer
                 [mkCallFrame CREATE Sample.sender 0 (Some Sample.contract)
                    None [] None] 21000)
              (mkCallFrame CREATE Sample.sender 0 (Some Sample.contract)
                 None [] None)
              Sample.contract)
    as (d & e & He & Hd & Hcode & Hrep);
    [reflexivity|reflexivity|by left|reflexivity|reflexivity|exact E|].
  exists d. split; [exact Hd|].
  split; [|exact Hrep]. rewrite Hcode. injection He as <-. reflexivity.
Defined.

Lemma CaptureTxEnd_fails_iff_witness :
  CaptureTxEnd 0 (Sample.callFrom CALL) = None <-> [@nil callFrame] = [].
Proof.
  destruct (CaptureTxEnd_fails_iff (Sample.callFrom CALL) 0) as [H1 H2];
    [apply map_Forall_empty|].
  split.
  - intros E. apply H1 in E. discriminate E.
  - discriminate.
Defined.

Lemma CaptureExit_without_call_fails_witness :
  CaptureExit None 700 None (Sample.callFrom CALL) = None.
Proof.
  apply (CaptureExit_without_call_fails (Sample.callFrom CALL) None 700 None
           (tracer (Sample.callFrom CALL))); [reflexivity|].
  intros top [= <-]. reflexivity.
Defined.

Lemma CaptureEnd_without_To_fails_witness :
  CaptureEnd None 21000 None More.noTarget = None.
Proof.
  apply (CaptureEnd_without_To_fails More.noTarget None 21000 None
           (tracer More.noTarget)
           (mkCallFrame CREATE Sample.sender 0 None None [] None));
    [reflexivity|reflexivity|reflexivity|by left].
Defined.

Lemma plain_transfer_transaction_witness :
  exists l',
    run [TxStart 21000;
         Start Sample.evm Sample.sender Sample.contract false None 21000
           (Some 30);
         End_ None 21000 None; TxEnd 1000] newStateTracer = Some (tt, l') /\
    balanceOf l' Sample.sender = - 20030 /\
    balanceOf l' Sample.contract = 30 /\
    nonceOf l' Sample.sender = 1 /\
    accounts l' !! More.other = None.
Proof.
  destruct (plain_transfer_transaction 21000 1000 30 Sample.evm Sample.sender
              Sample.contract None None 21000 21000 None)
    as (l' & Hrun & Hs & Hr & Hn & _ & Hother);
    [discriminate|lia|lia|].
  exists l'. split; [exact Hrun|]. split; [exact Hs|]. split; [exact Hr|].
  split; [exact Hn|]. apply Hother; discriminate.
Defined.

Lemma nested_call_moves_value_witness :
  exists l',
    run [Enter CALL Sample.contract More.other None 5000 (Some 30);
         Exit None 700 None] (Sample.callFrom CALL) = Some (tt, l') /\
    balanceOf l' Sample.contract = - 30 /\
    balanceOf l' More.other = 30.
Proof.
  destruct (nested_call_moves_value (Sample.callFrom CALL) Sample.contract
              More.other None None 5000 700 30 None)
    as (l' & Hrun & Hbal & _);
    [discriminate|apply map_Forall_empty|].
  exists l'. split; [exact Hrun|].
  split; rewrite Hbal; reflexivity.
Defined.

Lemma GetResult_reports_entries_witness :
  exists res,
    GetResult More.hex More.withSlots = Some (res, More.withSlots) /\
    res !! More.hex More.other = None.
Proof.
  destruct (GetResult_reports_entries More.withSlots Sample.evm More.hex
              More_hex_inj eq_refl) as (res & Hrun & Hres).
  exists res. split; [exact Hrun|].
  destruct (res !! More.hex More.other) as [r|] eqn:E; [|reflexivity].
  apply Hres in E as (addr & d & Hd & Hs & _).
  apply More_hex_inj in Hs. subst addr. discriminate Hd.
Defined.

Lemma reportBalance_texts_differ_witness :
  "0x" +:+ fmt_x_string (Text16 (255 - 30))
  <> "0x" +:+ fmt_x_string (Text16 255).
Proof.
  apply (reportBalance_texts_differ Sample.started Sample.started
           Sample.contract More.gained).
  reflexivity.
Defined.

Lemma WrappedTransferFunc_records_both_witness :
  exists l',
    Rev0.WrappedTransferFunc Sample.db Sample.sender Sample.contract 30
      Sample.started
    = Some (Rev0.Transfer Sample.db Sample.sender Sample.contract 30, l') /\
    balanceOf l' Sample.sender = - 30 /\
    balanceOf l' Sample.contract = 30.
Proof.
  destruct (WrappedTransferFunc_records_both Sample.started Sample.db
              Sample.sender Sample.contract 30)
    as (l' & Hrun & Hbal & _); [apply map_Forall_empty|].
  exists l'. split; [exact Hrun|]. split; rewrite Hbal; reflexivity.
Defined.

Lemma Rev0_CaptureEnd_charges_gas_witness :
  exists l',
    Rev0.CaptureEnd None 21000 None (Sample.callFrom CALL) = Some (tt, l') /\
    balanceOf l' Sample.sender = - 21000.
Proof.
  apply (runs_with (Rev0.CaptureEnd None 21000 None (Sample.callFrom CALL))
           (fun l' => balanceOf l' Sample.sender = - 21000));
    [vm_compute; exact I|].
  intros l' E.
  rewrite (fun H1 H2 =>
             Rev0_CaptureEnd_charges_gas (Sample.callFrom CALL) l' None 21000
               None (tracer (Sample.callFrom CALL))
               (mkCallFrame CALL Sample.sender 0 (Some Sample.contract) None
                  [] None) H1 H2 E Sample.sender) by reflexivity.
  reflexivity.
Defined.

Lemma Rev0_CaptureExit_charges_gas_witness :
  exists l',
    Rev0.CaptureExit None 700 None (More.nestedIn SELFDESTRUCT None)
    = Some (tt, l') /\
    balanceOf l' Sample.contract = - 700 /\
    balanceOf l' More.other = - 255.
Proof.
  apply (runs_with
           (Rev0.CaptureExit None 700 None (More.nestedIn SELFDESTRUCT None))
           (fun l' =>
              balanceOf l' Sample.contract = - 700 /\
              balanceOf l' More.other = - 255));
    [vm_compute; exact I|].
  intros l' E.
  pose proof (fun H1 H2 H3 =>
                Rev0_CaptureExit_charges_gas
                  (More.nestedIn SELFDESTRUCT None) l' None 700 None
                  (More.left SELFDESTRUCT None)
                  (More.parent SELFDESTRUCT None)
                  (SpecCallTracer.withGasUsed 700
                     (More.child SELFDESTRUCT None))
                  H1 H2 H3 E) as Hbal.
  split; rewrite Hbal by reflexivity; reflexivity.
Defined.

Lemma Rev0_transfers_track_state_witness :
  exists db' l',
    Rev0_transfers More.thereAndBack Sample.db Sample.started
    = Some (db', l') /\
    balanceOf l' Sample.sender = GetBalance db' Sample.sender - 255.
Proof.
  destruct (Rev0_transfers_track_state More.thereAndBack Sample.db
              Sample.started) as (db' & l' & Hrun & Hbal);
    [apply map_Forall_empty|].
  exists db', l'. split; [exact Hrun|].
  destruct (Hbal Sample.sender) as [Hs _].
  change (balanceOf Sample.started Sample.sender) with 0 in Hs.
  change (GetBalance Sample.db Sample.sender) with 255 in Hs. lia.
Defined.

Lemma Rev0_and_Logger_agree_witness :
  exists db' l' m,
    Rev0_transfers More.thereAndBack Sample.db Sample.started
    = Some (db', l') /\
    Logger.transfers More.thereAndBack Sample.db (Logger.mkLogger (Some ∅))
    = Some (db', Logger.mkLogger (Some m)) /\
    match m !! Sample.sender with
    | Some d =>
        exists b af,
          Logger.balance d = mkDiff (Some b) (Some af) /\
          balanceOf l' Sample.sender = af - b
    | None => balanceOf l' Sample.sender = 0
    end.
Proof.
  destruct (Rev0_and_Logger_agree More.thereAndBack Sample.db Sample.started
              eq_refl) as (db' & l' & m & Hrun & HrunL & Hagree).
  exists db', l', m. split; [exact Hrun|]. split; [exact HrunL|].
  apply Hagree.
Defined.
